(** * Blitz Capital simulator: the simulation engine, embedded and verified

    A shallow embedding of [backend/simulators/historical.py] and
    [backend/simulators/realtime.py]: the portfolio and its valuation, the
    execution of strategy signals, the equal-weight benchmark, the two
    drivers and the performance report.

    Conventions of the embedding.
    - Python floats of the portfolio arithmetic are exact rationals ([Q]);
      rounding and overflow are outside this model.  Equalities between
      amounts are therefore stated with [==].  A division whose divisor is
      zero raises [ZeroDivisionError], as [float.__truediv__] does.
    - The performance report, whose subject is NaN and infinity, is embedded
      a second time over IEEE-754 binary64 ([PrimFloat]), module [Report].
    - Python dictionaries are finite maps ([gmap]); a dictionary whose
      iteration order decides the result (the signals of one tick, executed
      against one cash balance) is an association list in iteration order.
      The valuation sums the positions in the order of the map, which over
      [Q] gives the same sum as the insertion order.  A pandas frame is its
      list of rows (timestamp, close).
    - Timestamps are seconds ([Z]); one hour is [3600].
    - A method is a computation in a state-and-exception monad: the object
      keeps the mutations done before an exception is raised. *)

From Stdlib Require Import QArith Qminmax Lqa Lia ZArith String List Floats.
From Stdlib Require Uint63.
From stdpp Require Import gmap strings list fin_maps.

Local Open Scope Q_scope.

(** * Part I: the embedding *)

(** ** Exceptions and methods *)

(** The exceptions of the engine.  [StrategyError] is any exception raised
    by a strategy; [LoopBudget] is not a Python exception: it marks a loop cut
    short by the bound on its rounds, and [run_loop_raises] shows that the
    bound given by [run] is never reached. *)
Inductive exn : Type :=
  | ZeroDivisionError
  | KeyError (key : string)
  | ValueError (msg : string)
  | StrategyError (msg : string)
  | LoopBudget.

(** [M S A]: a method of an object with state [S] returning an [A] or
    raising; the final state is returned in both cases. *)
Definition M (S A : Type) : Type := S -> S * (exn + A).

Definition raise {S A} (e : exn) : M S A := fun s => (s, inl e).
Definition gets {S A} (f : S -> A) : M S A := fun s => (s, inr (f s)).
Definition modify {S} (f : S -> S) : M S unit := fun s => (f s, inr tt).

#[global] Instance M_ret {S} : MRet (M S) := fun A a s => (s, inr a).
#[global] Instance M_bind {S} : MBind (M S) := fun A B k m s =>
  match m s with
  | (s', inl e) => (s', inl e)
  | (s', inr a) => k a s'
  end.

(** [try: m except: h] *)
Definition try_except {S A} (m : M S A) (h : exn -> M S A) : M S A := fun s =>
  match m s with
  | (s', inl e) => h e s'
  | r => r
  end.

(** A method of a component, run on the object that owns the component. *)
Definition zoom {S T A} (proj : T -> S) (upd : S -> T -> T) (m : M S A) : M T A :=
  fun t => let '(s', r) := m (proj t) in (upd s' t, r).

(** [for x in l: body x] *)
Fixpoint for_each {S A} (l : list A) (body : A -> M S unit) : M S unit :=
  match l with
  | [] => mret tt
  | x :: l' => body x ;; for_each l' body
  end.

(** ** Numbers *)

Definition Qltb (x y : Q) : bool := negb (Qle_bool y x).

(** [a / b] on Python floats. *)
Definition py_div {S} (a b : Q) : M S Q :=
  if Qeq_bool b 0 then raise ZeroDivisionError else mret (a / b).

(** [l[-n:]] for [n > 0]. *)
Definition last_n {A} (n : nat) (l : list A) : list A :=
  drop (length l - n) l.

(** ** Data model: [models/portfolio.py] *)

Record Portfolio : Type := mkPortfolio {
  total_value : Q;
  cash : Q;
  positions : gmap string Q;
  unrealized_pnl : Q;
  realized_pnl : Q
}.

Record Trade : Type := mkTrade {
  trade_timestamp : Z;
  trade_symbol : string;
  trade_side : string;
  trade_quantity : Q;
  trade_price : Q;
  trade_value : Q;
  trade_algorithm : string
}.

(** A signal of a strategy: [{'action': ..., 'quantity': ...}]. *)
Record Signal : Type := mkSignal {
  action : string;
  quantity : Q
}.

(** [Portfolio(initial_capital)] *)
Definition new_portfolio (initial_capital : Q) : Portfolio :=
  mkPortfolio initial_capital initial_capital ∅ 0 0.

Definition set_total_value (v : Q) (p : Portfolio) : Portfolio :=
  mkPortfolio v (cash p) (positions p) (unrealized_pnl p) (realized_pnl p).
Definition set_cash (v : Q) (p : Portfolio) : Portfolio :=
  mkPortfolio (total_value p) v (positions p) (unrealized_pnl p) (realized_pnl p).
Definition set_positions (m : gmap string Q) (p : Portfolio) : Portfolio :=
  mkPortfolio (total_value p) (cash p) m (unrealized_pnl p) (realized_pnl p).

(** ** The engine: the state and the methods that [HistoricalSimulator] and
    [RealtimeSimulator] have in common (same text in both classes). *)

Record Engine : Type := mkEngine {
  algorithm_name : string;
  initial_capital : Q;
  portfolio : Portfolio;
  trades : list Trade;
  peak_value : Q;
  max_drawdown : Q
}.

Definition new_engine (name : string) (capital : Q) : Engine :=
  mkEngine name capital (new_portfolio capital) [] capital 0.

Definition set_portfolio (p : Portfolio) (e : Engine) : Engine :=
  mkEngine (algorithm_name e) (initial_capital e) p (trades e) (peak_value e) (max_drawdown e).
Definition set_trades (l : list Trade) (e : Engine) : Engine :=
  mkEngine (algorithm_name e) (initial_capital e) (portfolio e) l (peak_value e) (max_drawdown e).
Definition set_peak_value (v : Q) (e : Engine) : Engine :=
  mkEngine (algorithm_name e) (initial_capital e) (portfolio e) (trades e) v (max_drawdown e).
Definition set_max_drawdown (v : Q) (e : Engine) : Engine :=
  mkEngine (algorithm_name e) (initial_capital e) (portfolio e) (trades e) (peak_value e) v.

(** The loop of [_update_portfolio_value]: cash plus the priced positions. *)
Definition mark_to_market (current_prices : gmap string Q) (p : Portfolio) : Q :=
  map_fold (fun symbol quantity total_value =>
              match current_prices !! symbol with
              | Some price => total_value + quantity * price
              | None => total_value
              end) (cash p) (positions p).

Definition _update_portfolio_value (current_prices : gmap string Q) : M Engine unit :=
  p ← gets portfolio;
  let total_value := mark_to_market current_prices p in
  modify (set_portfolio (set_total_value total_value p)) ;;
  peak ← gets peak_value;
  (if Qltb peak total_value then modify (set_peak_value total_value) else mret tt) ;;
  peak ← gets peak_value;
  current_drawdown ← py_div (peak - total_value) peak;
  worst ← gets max_drawdown;
  if Qltb worst current_drawdown then modify (set_max_drawdown current_drawdown) else mret tt.

Definition _execute_trade (symbol : string) (signal : Signal) (price : Q) (timestamp : Z)
  : M Engine unit :=
  if String.eqb (action signal) "buy" && Qltb 0 (quantity signal) then
    p ← gets portfolio;
    let available_cash := cash p in
    max_quantity ← py_div available_cash price;
    let quantity := Qmin (quantity signal) max_quantity in
    let cost := quantity * price in
    if Qle_bool cost available_cash then
      let positions1 :=
        match positions p !! symbol with
        | None => <[symbol := 0]> (positions p)
        | Some _ => positions p
        end in
      let positions2 :=
        <[symbol := default 0 (positions1 !! symbol) + quantity]> positions1 in
      modify (set_portfolio
                (set_positions positions2 (set_cash (available_cash - cost) p))) ;;
      name ← gets algorithm_name;
      let trade := mkTrade timestamp symbol "buy" quantity price cost name in
      l ← gets trades;
      modify (set_trades (l ++ [trade]))
    else mret tt
  else if String.eqb (action signal) "sell" && Qltb 0 (quantity signal) then
    p ← gets portfolio;
    let available_quantity := default 0 (positions p !! symbol) in
    let quantity := Qmin (quantity signal) available_quantity in
    if Qltb 0 quantity then
      let proceeds := quantity * price in
      match positions p !! symbol with
      | None => modify (set_portfolio (set_cash (cash p + proceeds) p)) ;;
                raise (KeyError symbol)
      | Some q =>
          modify (set_portfolio
                    (set_positions (<[symbol := q - quantity]> (positions p))
                       (set_cash (cash p + proceeds) p))) ;;
          name ← gets algorithm_name;
          let trade := mkTrade timestamp symbol "sell" quantity price proceeds name in
          l ← gets trades;
          modify (set_trades (l ++ [trade]))
      end
    else mret tt
  else mret tt.

(** Signals executed in order, each at its own fill price and timestamp. *)
Record Order : Type := mkOrder {
  order_symbol : string;
  order_signal : Signal;
  order_price : Q;
  order_timestamp : Z
}.

Definition execute (o : Order) : M Engine unit :=
  _execute_trade (order_symbol o) (order_signal o) (order_price o) (order_timestamp o).

Definition execute_all (orders : list Order) : M Engine unit :=
  for_each orders execute.

(** ** Price data *)

(** A frame of hourly bars: rows (timestamp, close) in row order, with
    distinct timestamps.  The indicator columns added by
    [calculate_technical_indicators] are read by strategies only. *)
Definition DataFrame : Type := list (Z * Q).

Definition df_empty (df : DataFrame) : bool :=
  match df with [] => true | _ => false end.

(** [t in df.index] *)
Definition in_index (t : Z) (df : DataFrame) : bool :=
  existsb (fun row => Z.eqb (fst row) t) df.

(** [df.loc[t, 'close']]; [None] stands for the [KeyError] of a timestamp
    that is not in the index. *)
Definition loc_close (t : Z) (df : DataFrame) : option Q :=
  snd <$> find (fun row => Z.eqb (fst row) t) df.

(** [df.index.min()] and [df.index.max()] of a frame with a first row. *)
Definition index_min (t0 : Z) (rest : DataFrame) : Z :=
  foldr (fun row m => Z.min (fst row) m) t0 rest.
Definition index_max (t0 : Z) (rest : DataFrame) : Z :=
  foldr (fun row m => Z.max (fst row) m) t0 rest.

Definition HistoricalData : Type := gmap string DataFrame.

(** A strategy: [generate_signals(timestamp, data, portfolio)], returning the
    signals in the iteration order of the dictionary, or raising. *)
Definition Strategy : Type :=
  Z -> HistoricalData -> Portfolio -> exn + list (string * Signal).

Definition generate_signals {S} (algorithm : Strategy) (timestamp : Z)
    (data : HistoricalData) (p : Portfolio) : M S (list (string * Signal)) :=
  match algorithm timestamp data p with
  | inl e => raise e
  | inr signals => mret signals
  end.

(** An entry of [portfolio_history]; the live driver stores no benchmark. *)
Record Snapshot : Type := mkSnapshot {
  snap_timestamp : Z;
  snap_total_value : Q;
  snap_cash : Q;
  snap_positions : gmap string Q;
  snap_unrealized_pnl : Q;
  snap_realized_pnl : Q;
  snap_benchmark_value : option Q
}.

Definition hour : Z := 3600%Z.

(** ** The scheduled-replay driver: [simulators/historical.py] *)

Record HistoricalSimulator : Type := mkHistorical {
  h_engine : Engine;
  h_symbols : list string;
  h_portfolio_history : list Snapshot;
  benchmark_values : list Q;
  last_benchmark_date : option Z
}.

Definition new_historical (name : string) (capital : Q) (symbols : list string)
  : HistoricalSimulator :=
  mkHistorical (new_engine name capital) symbols [] [] None.

Definition set_h_engine (e : Engine) (h : HistoricalSimulator) : HistoricalSimulator :=
  mkHistorical e (h_symbols h) (h_portfolio_history h) (benchmark_values h)
    (last_benchmark_date h).
Definition set_h_portfolio_history (l : list Snapshot) (h : HistoricalSimulator)
  : HistoricalSimulator :=
  mkHistorical (h_engine h) (h_symbols h) l (benchmark_values h) (last_benchmark_date h).
Definition set_benchmark_values (l : list Q) (h : HistoricalSimulator)
  : HistoricalSimulator :=
  mkHistorical (h_engine h) (h_symbols h) (h_portfolio_history h) l (last_benchmark_date h).
Definition set_last_benchmark_date (d : option Z) (h : HistoricalSimulator)
  : HistoricalSimulator :=
  mkHistorical (h_engine h) (h_symbols h) (h_portfolio_history h) (benchmark_values h) d.

Definition h_zoom {A} (m : M Engine A) : M HistoricalSimulator A :=
  zoom h_engine set_h_engine m.

(** [reset_simulation] (with [reset_benchmark]). *)
Definition reset_simulation : M HistoricalSimulator unit :=
  modify (fun h =>
    let e := h_engine h in
    mkHistorical (new_engine (algorithm_name e) (initial_capital e)) (h_symbols h) [] [] None).

(** One round of the loop over [self.symbols] in [_calculate_benchmark_value]:
    the accumulators are [(total_return, valid_symbols)]. *)
Definition benchmark_symbol (historical_data : HistoricalData) (current_date : Z)
    (last_date : option Z) (acc : Q * Z) (symbol : string) : Q * Z :=
  let '(total_return, valid_symbols) := acc in
  match historical_data !! symbol with
  | Some df =>
      if in_index current_date df then
        match loc_close current_date df with
        | Some current_price =>
            match last_date with
            | Some prev_date =>
                if in_index prev_date df then
                  match loc_close prev_date df with
                  | Some prev_price =>
                      if Qltb 0 prev_price then
                        let symbol_return := (current_price - prev_price) / prev_price in
                        (total_return + symbol_return, (valid_symbols + 1)%Z)
                      else acc
                  | None => acc
                  end
                else acc
            | None => acc
            end
        | None => acc
        end
      else acc
  | None => acc
  end.

Definition _calculate_benchmark_value (current_date : Z) (historical_data : HistoricalData)
  : M HistoricalSimulator Q :=
  values ← gets benchmark_values;
  match last values with
  | None =>
      modify (set_last_benchmark_date (Some current_date)) ;;
      h_zoom (gets initial_capital)
  | Some prev_benchmark =>
      symbols ← gets h_symbols;
      last_date ← gets last_benchmark_date;
      let '(total_return, valid_symbols) :=
        foldl (benchmark_symbol historical_data current_date last_date) (0, 0%Z) symbols in
      modify (set_last_benchmark_date (Some current_date)) ;;
      if (0 <? valid_symbols)%Z then
        let avg_return := total_return / inject_Z valid_symbols in
        mret (prev_benchmark * (1 + avg_return))
      else mret prev_benchmark
  end.

(** The prices of the tick: [current_prices] of [_process_day]. *)
Definition prices_at (current_date : Z) (historical_data : HistoricalData) : gmap string Q :=
  omap (fun df => if in_index current_date df then loc_close current_date df else None)
       historical_data.

Definition _process_day (algorithm : Strategy) (current_date : Z)
    (historical_data : HistoricalData) : M HistoricalSimulator unit :=
  let current_prices := prices_at current_date historical_data in
  h_zoom (_update_portfolio_value current_prices) ;;
  p ← h_zoom (gets portfolio);
  signals ← generate_signals algorithm current_date historical_data p;
  for_each signals (fun '(symbol, signal) =>
    match current_prices !! symbol with
    | Some price => h_zoom (_execute_trade symbol signal price current_date)
    | None => mret tt
    end).

(** The benchmark lines of the loop of [run]: value the benchmark at
    [current_date] and append the value to [benchmark_values]. *)
Definition track_benchmark (current_date : Z) (historical_data : HistoricalData)
  : M HistoricalSimulator Q :=
  benchmark_value ← _calculate_benchmark_value current_date historical_data;
  values ← gets benchmark_values;
  modify (set_benchmark_values (values ++ [benchmark_value])) ;;
  mret benchmark_value.

(** The [while current_date <= max_date] loop of [run]; [budget] bounds the
    number of rounds. *)
Fixpoint run_loop (algorithm : Strategy) (historical_data : HistoricalData)
    (max_date : Z) (budget : nat) (current_date : Z) : M HistoricalSimulator unit :=
  if (current_date <=? max_date)%Z then
    match budget with
    | O => raise LoopBudget
    | S budget' =>
        _process_day algorithm current_date historical_data ;;
        let current_date := (current_date + hour)%Z in
        benchmark_value ← track_benchmark current_date historical_data;
        p ← h_zoom (gets portfolio);
        history ← gets h_portfolio_history;
        modify (set_h_portfolio_history
                  (history ++ [mkSnapshot current_date (total_value p) (cash p)
                                 (positions p) (unrealized_pnl p) (realized_pnl p)
                                 (Some benchmark_value)])) ;;
        run_loop algorithm historical_data max_date budget' current_date
    end
  else mret tt.

(** The frames kept by [run]: the last non-empty frame fetched for a symbol. *)
Definition fetch_all (provider : string -> DataFrame) (symbols : list string)
  : HistoricalData :=
  foldl (fun historical_data symbol =>
           let data := provider symbol in
           if df_empty data then historical_data
           else <[symbol := data]> historical_data) ∅ symbols.

Definition frame_min (df : DataFrame) : option Z :=
  match df with [] => None | row :: rest => Some (index_min (fst row) rest) end.
Definition frame_max (df : DataFrame) : option Z :=
  match df with [] => None | row :: rest => Some (index_max (fst row) rest) end.

(** [max(df.index.min() for df in historical_data.values())] and
    [min(df.index.max() for ...)]; [None] when there is no frame. *)
Definition common_start (historical_data : HistoricalData) : option Z :=
  map_fold (fun _ df acc =>
              match frame_min df, acc with
              | Some m, Some a => Some (Z.max m a)
              | Some m, None => Some m
              | None, _ => acc
              end) None historical_data.
Definition common_end (historical_data : HistoricalData) : option Z :=
  map_fold (fun _ df acc =>
              match frame_max df, acc with
              | Some m, Some a => Some (Z.min m a)
              | Some m, None => Some m
              | None, _ => acc
              end) None historical_data.

Definition no_data_message : string := "No historical data available for any symbol".

Definition run (provider : string -> DataFrame) (algorithm : Strategy)
  : M HistoricalSimulator unit :=
  reset_simulation ;;
  try_except
    (symbols ← gets h_symbols;
     let historical_data := fetch_all provider symbols in
     if bool_decide (historical_data = ∅) then raise (ValueError no_data_message)
     else
       match common_start historical_data, common_end historical_data with
       | Some min_date, Some max_date =>
           run_loop algorithm historical_data max_date
             (S (Z.to_nat (max_date - min_date))) min_date
       | _, _ => raise (ValueError "max() arg is an empty sequence")
       end)
    (fun e => raise e).

(** ** The live driver: [simulators/realtime.py] *)

Record RealtimeSimulator : Type := mkRealtime {
  r_engine : Engine;
  r_symbols : list string;
  r_portfolio_history : list Snapshot;
  price_history : gmap string (list (Z * Q));
  is_running : bool;
  current_prices : gmap string Q;
  historical_data_cache : HistoricalData
}.

Definition new_realtime (name : string) (capital : Q) (symbols : list string)
  : RealtimeSimulator :=
  mkRealtime (new_engine name capital) symbols []
    (list_to_map ((fun symbol => (symbol, [])) <$> symbols)) false ∅ ∅.

Definition set_r_engine (e : Engine) (r : RealtimeSimulator) : RealtimeSimulator :=
  mkRealtime e (r_symbols r) (r_portfolio_history r) (price_history r) (is_running r)
    (current_prices r) (historical_data_cache r).
Definition set_r_portfolio_history (l : list Snapshot) (r : RealtimeSimulator)
  : RealtimeSimulator :=
  mkRealtime (r_engine r) (r_symbols r) l (price_history r) (is_running r)
    (current_prices r) (historical_data_cache r).
Definition set_price_history (m : gmap string (list (Z * Q))) (r : RealtimeSimulator)
  : RealtimeSimulator :=
  mkRealtime (r_engine r) (r_symbols r) (r_portfolio_history r) m (is_running r)
    (current_prices r) (historical_data_cache r).
Definition set_is_running (b : bool) (r : RealtimeSimulator) : RealtimeSimulator :=
  mkRealtime (r_engine r) (r_symbols r) (r_portfolio_history r) (price_history r) b
    (current_prices r) (historical_data_cache r).
Definition set_current_prices (m : gmap string Q) (r : RealtimeSimulator)
  : RealtimeSimulator :=
  mkRealtime (r_engine r) (r_symbols r) (r_portfolio_history r) (price_history r)
    (is_running r) m (historical_data_cache r).
Definition set_historical_data_cache (m : HistoricalData) (r : RealtimeSimulator)
  : RealtimeSimulator :=
  mkRealtime (r_engine r) (r_symbols r) (r_portfolio_history r) (price_history r)
    (is_running r) (current_prices r) m.

Definition r_zoom {A} (m : M Engine A) : M RealtimeSimulator A :=
  zoom r_engine set_r_engine m.

(** A row appended to every tracked series that has a price, keeping the
    last 1000 rows. *)
Definition append_prices (timestamp : Z) (prices : gmap string Q)
    (series : gmap string (list (Z * Q))) : gmap string (list (Z * Q)) :=
  map_imap (fun symbol rows =>
              Some (match prices !! symbol with
                    | Some price => last_n 1000 (rows ++ [(timestamp, price)])
                    | None => rows
                    end)) series.

Definition _update_historical_cache (timestamp : Z) (prices : gmap string Q)
  : M RealtimeSimulator unit :=
  cache ← gets historical_data_cache;
  modify (set_historical_data_cache (append_prices timestamp prices cache)).

Definition _generate_signals (algorithm : Strategy) (timestamp : Z)
  : M RealtimeSimulator (list (string * Signal)) :=
  try_except
    (cache ← gets historical_data_cache;
     p ← r_zoom (gets portfolio);
     generate_signals algorithm timestamp cache p)
    (fun _ => mret []).

Definition _process_realtime_update (algorithm : Strategy) (current_time : Z)
    (prices : gmap string Q) : M RealtimeSimulator unit :=
  running ← gets is_running;
  if negb running then mret tt
  else
    modify (set_current_prices prices) ;;
    series ← gets price_history;
    modify (set_price_history (append_prices current_time prices series)) ;;
    r_zoom (_update_portfolio_value prices) ;;
    _update_historical_cache current_time prices ;;
    signals ← _generate_signals algorithm current_time;
    for_each signals (fun '(symbol, signal) =>
      match prices !! symbol with
      | Some price => r_zoom (_execute_trade symbol signal price current_time)
      | None => mret tt
      end) ;;
    p ← r_zoom (gets portfolio);
    history ← gets r_portfolio_history;
    modify (set_r_portfolio_history
              (last_n 1000
                 (history ++ [mkSnapshot current_time (total_value p) (cash p)
                                (positions p) (unrealized_pnl p) (realized_pnl p) None]))).

(** The feed of the live run: one callback per price update, in order. *)
Definition feed (algorithm : Strategy) (updates : list (Z * gmap string Q))
  : M RealtimeSimulator unit :=
  for_each updates (fun '(current_time, prices) =>
    _process_realtime_update algorithm current_time prices).

(** [run] of the live driver, for a finite prefix of the feed. *)
Definition realtime_run (algorithm : Strategy) (updates : list (Z * gmap string Q))
  : M RealtimeSimulator unit :=
  modify (set_is_running true) ;;
  feed algorithm updates.

(** ** The performance report, over binary64

    [get_performance_metrics] of both drivers and [_calculate_alpha_metrics],
    as functions of the histories.  [np.mean], [np.std], [np.var] and
    [np.cov] are numpy's formulas with the sum taken from left to right; a
    NaN or an infinity among the terms makes the sum non-finite in any
    order.  A quotient of numpy values follows IEEE-754; a quotient of Python
    floats raises on a zero divisor. *)
Module Report.

Local Open Scope float_scope.

Definition of_nat (n : nat) : float := PrimFloat.of_uint63 (Uint63.of_Z (Z.of_nat n)).

Definition np_sum (l : list float) : float := foldl PrimFloat.add 0 l.
Definition np_mean (l : list float) : float := np_sum l / of_nat (length l).
Definition np_var (l : list float) : float :=
  let m := np_mean l in
  np_mean ((fun x => (x - m) * (x - m)) <$> l).
Definition np_std (l : list float) : float := PrimFloat.sqrt (np_var l).
(** [np.cov(x, y)[0, 1]] *)
Definition np_cov (x y : list float) : float :=
  let mx := np_mean x in
  let my := np_mean y in
  np_sum (zip_with (fun a b => (a - mx) * (b - my)) x y) / of_nat (length x - 1).
(** [np.diff(l) / l[:-1]] *)
Definition np_returns (l : list float) : list float :=
  zip_with (fun prev cur => (cur - prev) / prev) l (tail l).

Definition py_fdiv (a b : float) : exn + float :=
  if b =? 0 then inl ZeroDivisionError else inr (a / b).

Definition safe_float (value : float) : float :=
  if is_nan value || is_infinity value then 0 else value.

(** The six metrics that both drivers report. *)
Record Metrics : Type := mkMetrics {
  total_return : float;
  daily_return : float;
  sharpe_ratio : float;
  max_drawdown : float;
  win_rate : float;
  volatility : float;
  total_trades : nat
}.

Record AlphaMetrics : Type := mkAlpha {
  benchmark_return : float;
  alpha : float;
  beta : float;
  excess_return : float;
  information_ratio : float;
  tracking_error : float
}.

Definition _is_winning_trade (side : string) : bool := String.eqb side "sell".

Definition win_rate_of (sides : list string) : float :=
  match sides with
  | [] => 0
  | _ => of_nat (length (filter (fun t => _is_winning_trade t = true) sides))
         / of_nat (length sides)
  end.

(** [get_performance_metrics] of [RealtimeSimulator]; [None] is the empty
    dictionary returned while there is no history. *)
Definition realtime_metrics (initial_capital final_value : float)
    (portfolio_values : list float) (sides : list string) (max_dd : float)
  : exn + option Metrics :=
  match portfolio_values with
  | [] => inr None
  | _ =>
      match py_fdiv (final_value - initial_capital) initial_capital with
      | inl e => inl e
      | inr total_return =>
          let '(avg_daily_return, volatility, sharpe_ratio) :=
            if (1 <? length portfolio_values)%nat then
              let daily_returns := np_returns portfolio_values in
              let avg := np_mean daily_returns in
              let vol := np_std daily_returns in
              (avg, vol, if 0 <? vol then avg / vol else 0)
            else (0, 0, 0) in
          inr (Some (mkMetrics total_return avg_daily_return sharpe_ratio max_dd
                       (win_rate_of sides) volatility (length sides)))
      end
  end.

(** The filtered per-tick returns of the historical report. *)
Fixpoint filtered_returns (portfolio_values : list float) : list float :=
  match portfolio_values with
  | prev :: ((cur :: _) as rest) =>
      if negb (prev =? 0) then
        let daily_return := (cur - prev) / prev in
        if negb (is_nan daily_return) && negb (is_infinity daily_return)
        then daily_return :: filtered_returns rest
        else filtered_returns rest
      else filtered_returns rest
  | _ => []
  end.

(** The paired returns of [_calculate_alpha_metrics]; [None] is the
    [IndexError] of a benchmark history shorter than the portfolio history. *)
Fixpoint paired_returns (portfolio_values benchmark_values : list float)
  : option (list (float * float)) :=
  match portfolio_values with
  | p0 :: ((p1 :: _) as rest) =>
      if negb (p0 =? 0) then
        match benchmark_values with
        | [] => None
        | b0 :: brest =>
            if negb (b0 =? 0) then
              match brest with
              | [] => None
              | b1 :: _ =>
                  let port_return := (p1 - p0) / p0 in
                  let bench_return := (b1 - b0) / b0 in
                  more ← paired_returns rest brest;
                  Some (if negb (is_nan port_return) && negb (is_nan bench_return)
                        then (port_return, bench_return) :: more else more)
              end
            else paired_returns rest brest
        end
      else paired_returns rest (tail benchmark_values)
  | _ => Some []
  end.

Definition zero_alpha : AlphaMetrics := mkAlpha 0 0 0 0 0 0.

Definition _calculate_alpha_metrics (portfolio_values benchmark_values : list float)
  : AlphaMetrics :=
  if (length portfolio_values <? 2)%nat || (length benchmark_values <? 2)%nat
  then zero_alpha
  else
    match paired_returns portfolio_values benchmark_values with
    | None => zero_alpha
    | Some pairs =>
        if (length pairs <? 2)%nat then zero_alpha
        else
          let portfolio_returns := fst <$> pairs in
          let benchmark_returns := snd <$> pairs in
          match head portfolio_values, last portfolio_values,
                head benchmark_values, last benchmark_values with
          | Some pfirst, Some plast, Some bfirst, Some blast =>
              match py_fdiv (plast - pfirst) pfirst, py_fdiv (blast - bfirst) bfirst with
              | inr total_portfolio_return, inr total_benchmark_return =>
                  let covariance := np_cov portfolio_returns benchmark_returns in
                  let benchmark_variance := np_var benchmark_returns in
                  let beta := if 0 <? benchmark_variance
                              then covariance / benchmark_variance else 0 in
                  let alpha := np_mean portfolio_returns - beta * np_mean benchmark_returns in
                  let excess_return := total_portfolio_return - total_benchmark_return in
                  let excess_returns :=
                    zip_with PrimFloat.sub portfolio_returns benchmark_returns in
                  let tracking_error := np_std excess_returns in
                  let information_ratio :=
                    if 0 <? tracking_error
                    then np_mean excess_returns / tracking_error else 0 in
                  mkAlpha total_benchmark_return alpha beta excess_return
                    information_ratio tracking_error
              | _, _ => zero_alpha
              end
          | _, _, _, _ => zero_alpha
          end
    end.

(** [get_performance_metrics] of [HistoricalSimulator]. *)
Definition historical_metrics (initial_capital final_value : float)
    (portfolio_values benchmark_values : list float) (sides : list string)
    (max_dd : float) : exn + option (Metrics * AlphaMetrics) :=
  match portfolio_values with
  | [] => inr None
  | _ =>
      match py_fdiv (final_value - initial_capital) initial_capital with
      | inl e => inl e
      | inr total_return =>
          let '(avg_daily_return, volatility, sharpe_ratio) :=
            if (1 <? length portfolio_values)%nat then
              match filtered_returns portfolio_values with
              | [] => (0, 0, 0)
              | daily_returns =>
                  let avg := np_mean daily_returns in
                  let vol := np_std daily_returns in
                  (avg, vol, if 0 <? vol then avg / vol else 0)
              end
            else (0, 0, 0) in
          let alpha_metrics := _calculate_alpha_metrics portfolio_values benchmark_values in
          inr (Some (mkMetrics (safe_float total_return) (safe_float avg_daily_return)
                       (safe_float sharpe_ratio) (safe_float max_dd)
                       (safe_float (win_rate_of sides)) (safe_float volatility)
                       (length sides),
                     alpha_metrics))
      end
  end.

End Report.

(** ** The properties, in the words of the specification *)

Definition Qsum (l : list Q) : Q := foldr Qplus 0 l.

(** The engine between two calls of its methods. *)
Definition cash_nonneg (e : Engine) : Prop := 0 <= cash (portfolio e).
Definition positions_nonneg (e : Engine) : Prop :=
  forall symbol q, positions (portfolio e) !! symbol = Some q -> 0 <= q.
Definition held (e : Engine) (symbol : string) : Q :=
  default 0 (positions (portfolio e) !! symbol).

(** Valuation: quantity times current price of every held position whose
    symbol has a current price. *)
Definition priced_contributions (current_prices : gmap string Q) (p : Portfolio) : list Q :=
  omap (fun '(symbol, quantity) =>
          (fun price => quantity * price) <$> current_prices !! symbol)
       (map_to_list (positions p)).

(** Valuation with carry-forward: a position without a current price is
    valued at the price it had at the previous valuation. *)
Definition carry_forward_contributions (previous_prices current_prices : gmap string Q)
    (p : Portfolio) : list Q :=
  omap (fun '(symbol, quantity) =>
          (fun price => quantity * price)
            <$> (match current_prices !! symbol with
                 | Some price => Some price
                 | None => previous_prices !! symbol
                 end))
       (map_to_list (positions p)).

(** Drawdown: the running peak is the largest of the initial capital and the
    values marked so far; [d] is the maximum drawdown of [values] when it is
    the drawdown of one tick and no tick has a larger one. *)
Definition peak_so_far (capital : Q) (values : list Q) : Q := foldl Qmax capital values.

Definition drawdown_at (capital : Q) (values : list Q) (k : nat) : Q :=
  let peak := peak_so_far capital (take (S k) values) in
  (peak - default 0 (values !! k)) / peak.

Definition is_max_drawdown (capital : Q) (values : list Q) (d : Q) : Prop :=
  (exists k, (k < length values)%nat /\ d == drawdown_at capital values k) /\
  (forall k, (k < length values)%nat -> drawdown_at capital values k <= d).

(** The runs of the engine from a fresh state, with the values marked so far:
    valuations and executions in any order. *)
Inductive reaches (name : string) (capital : Q) : list Q -> Engine -> Prop :=
  | reaches_new : reaches name capital [] (new_engine name capital)
  | reaches_mark values e current_prices e' :
      reaches name capital values e ->
      _update_portfolio_value current_prices e = (e', inr tt) ->
      reaches name capital (values ++ [total_value (portfolio e')]) e'
  | reaches_execute values e o :
      reaches name capital values e ->
      reaches name capital values (fst (execute o e)).

(** Benchmark: the simple return of a symbol between the reference timestamp
    and the current tick, for a symbol with a price at both and a positive
    earlier price; the returns of the symbols with valid data; their
    arithmetic mean; and the advance of the benchmark value. *)
Definition symbol_return (historical_data : HistoricalData) (prev_date current_date : Z)
    (symbol : string) : option Q :=
  df ← historical_data !! symbol;
  p_now ← (if in_index current_date df then loc_close current_date df else None);
  p_prev ← (if in_index prev_date df then loc_close prev_date df else None);
  if Qltb 0 p_prev then Some ((p_now - p_prev) / p_prev) else None.

Definition valid_returns (historical_data : HistoricalData) (prev_date current_date : Z)
    (symbols : list string) : list Q :=
  omap (symbol_return historical_data prev_date current_date) symbols.

Definition mean (l : list Q) : Q := Qsum l / inject_Z (Z.of_nat (length l)).

Definition advance_benchmark (prev_benchmark : Q) (returns : list Q) : Q :=
  match returns with
  | [] => prev_benchmark
  | _ => prev_benchmark * (1 + mean returns)
  end.

(** Every symbol has one price, the same at all its timestamps. *)
Definition constant_prices (historical_data : HistoricalData) : Prop :=
  forall symbol df t1 t2 p1 p2,
    historical_data !! symbol = Some df ->
    loc_close t1 df = Some p1 -> loc_close t2 df = Some p2 -> p1 == p2.

(** The benchmark tracker on its own, fed the ticks [dates]. *)
Definition benchmark_ticks (dates : list Z) (historical_data : HistoricalData)
  : M HistoricalSimulator unit :=
  for_each dates (fun current_date =>
    track_benchmark current_date historical_data ;; mret tt).

(** Data availability: [t] lies in the range of a frame; the frames of the
    requested symbols overlap when some timestamp lies in the range of each. *)
Definition in_range (df : DataFrame) (t : Z) : Prop :=
  exists lo hi, frame_min df = Some lo /\ frame_max df = Some hi /\ (lo <= t <= hi)%Z.

Definition overlapping (provider : string -> DataFrame) (symbols : list string) : Prop :=
  exists t, forall symbol, symbol ∈ symbols -> in_range (provider symbol) t.

(** ** Further methods of the drivers and of the data provider *)

(** [l[start:]] of Python, for any integer [start]. *)
Definition py_slice_from {A} (start : Z) (l : list A) : list A :=
  let n := Z.of_nat (length l) in
  let first := if (start <? 0)%Z then Z.max (start + n) 0 else Z.min start n in
  drop (Z.to_nat first) l.

(** [get_recent_trades(limit)]: [self.trades[-limit:] if self.trades else []],
    each trade as the record of its fields. *)
Definition get_recent_trades (limit : Z) (e : Engine) : list Trade :=
  match trades e with
  | [] => []
  | ledger => py_slice_from (- limit) ledger
  end.

(** [stop] of the live driver. *)
Definition stop : M RealtimeSimulator unit := modify (set_is_running false).

(** [get_current_price] of the data provider: the last price of the ticker,
    and 0.0 when the fetch raises ([ticker symbol = None]). *)
Definition get_current_price (ticker : string -> option Q) (symbol : string) : Q :=
  match ticker symbol with
  | Some last_price => last_price
  | None => 0
  end.

(** [get_multiple_prices] *)
Definition get_multiple_prices (ticker : string -> option Q) (symbols : list string)
  : gmap string Q :=
  foldl (fun prices symbol => <[symbol := get_current_price ticker symbol]> prices)
        ∅ symbols.

(** [stream_realtime_data], for the rounds of the [while True] loop that
    are played: each round reads the tickers of its moment and awaits the
    callback; an exception of the callback ends the loop and is swallowed. *)
Definition stream_realtime_data {S} (rounds : list (Z * (string -> option Q)))
    (symbols : list string) (callback : Z -> gmap string Q -> M S unit) : M S unit :=
  try_except
    (for_each rounds (fun '(now, ticker) =>
       callback now (get_multiple_prices ticker symbols)))
    (fun _ => mret tt).

(** [_initialize_historical_data]: the non-empty frames of the last 30 days. *)
Definition _initialize_historical_data (provider : string -> DataFrame)
  : M RealtimeSimulator unit :=
  symbols ← gets r_symbols;
  cache ← gets historical_data_cache;
  modify (set_historical_data_cache
            (foldl (fun cache symbol =>
                      let data := provider symbol in
                      if df_empty data then cache else <[symbol := data]> cache)
                   cache symbols)).

(** [run] of the live driver. *)
Definition live_run (provider : string -> DataFrame) (algorithm : Strategy)
    (rounds : list (Z * (string -> option Q))) : M RealtimeSimulator unit :=
  modify (set_is_running true) ;;
  try_except
    (_initialize_historical_data provider ;;
     symbols ← gets r_symbols;
     stream_realtime_data rounds symbols (_process_realtime_update algorithm))
    (fun e => modify (set_is_running false) ;; raise e).

(** ** Further properties, in words *)

(** A ledger entry is consistent when its value is its quantity times its
    price and its side is one of the two sides. *)
Definition trade_consistent (t : Trade) : Prop :=
  trade_value t = trade_quantity t * trade_price t /\
  (trade_side t = "buy" \/ trade_side t = "sell").

Definition positive_prices (prices : gmap string Q) : Prop :=
  forall symbol price, prices !! symbol = Some price -> 0 < price.

(** A snapshot is consistent with the prices of its tick when its total
    value is its cash plus its priced positions. *)
Definition snapshot_consistent (prices : gmap string Q) (s : Snapshot) : Prop :=
  snap_total_value s ==
  snap_cash s +
  Qsum (priced_contributions prices
          (mkPortfolio (snap_total_value s) (snap_cash s) (snap_positions s)
             (snap_unrealized_pnl s) (snap_realized_pnl s))).

(** A live simulator in the middle of a run started with [capital]: it is
    running, its cash is not negative and its engine is on a run. *)
Definition live_ready (name : string) (capital : Q) (r : RealtimeSimulator) : Prop :=
  is_running r = true /\ cash_nonneg (r_engine r) /\
  exists values, reaches name capital values (r_engine r).

(** The replay, in words: a trade is filled at the close when its price is
    the close of its symbol at its own timestamp; the closes are positive;
    the timestamps of [n] entries of a replay that starts at [first], one
    per hour, each stamped after the hour has been added; the number of ticks
    of the loop between two timestamps; a strategy that never raises; an
    engine on a run with cash that is not negative. *)
Definition filled_at_close (historical_data : HistoricalData) (t : Trade) : Prop :=
  prices_at (trade_timestamp t) historical_data !! trade_symbol t = Some (trade_price t).

Definition positive_closes (historical_data : HistoricalData) : Prop :=
  forall symbol df t p,
    historical_data !! symbol = Some df -> loc_close t df = Some p -> 0 < p.

Definition tick_times (first : Z) (n : nat) : list Z :=
  (fun k => (first + (Z.of_nat k + 1) * hour)%Z) <$> seq 0 n.

Definition ticks_between (min_date max_date : Z) : nat :=
  Z.to_nat ((max_date - min_date) / hour + 1).

Definition never_raises (algorithm : Strategy) : Prop :=
  forall timestamp data p, exists signals, algorithm timestamp data p = inr signals.

Definition on_a_run (name : string) (capital : Q) (e : Engine) : Prop :=
  cash_nonneg e /\ exists values, reaches name capital values e.

(** Two portfolios report the same profit and loss. *)
Definition same_pnl (p p' : Portfolio) : Prop :=
  unrealized_pnl p' = unrealized_pnl p /\ realized_pnl p' = realized_pnl p.

(** What a replay adds between two of its states: the entries [new] of the
    portfolio history, with their benchmark values appended to
    [benchmark_values] in the same order, stamped hour by hour from [first]
    and consistent with the prices of the hour before their timestamp; the
    configuration is kept; the ledger grows by fills at the close; the
    benchmark values stay positive when the closes are; and the profit and
    loss reported by the portfolio and by the entries is the one of the
    first state. *)
Definition replay_entries (historical_data : HistoricalData) (first : Z)
    (h h' : HistoricalSimulator) (new : list Snapshot) : Prop :=
  h_portfolio_history h' = h_portfolio_history h ++ new /\
  benchmark_values h' = benchmark_values h ++ omap snap_benchmark_value new /\
  snap_benchmark_value <$> new = Some <$> omap snap_benchmark_value new /\
  snap_timestamp <$> new = tick_times first (length new) /\
  Forall (fun s => snapshot_consistent
                     (prices_at (snap_timestamp s - hour) historical_data) s) new /\
  h_symbols h' = h_symbols h /\
  algorithm_name (h_engine h') = algorithm_name (h_engine h) /\
  initial_capital (h_engine h') = initial_capital (h_engine h) /\
  (exists fills,
     trades (h_engine h') = trades (h_engine h) ++ fills /\
     Forall (filled_at_close historical_data) fills) /\
  (positive_closes historical_data -> 0 < initial_capital (h_engine h) ->
   Forall (fun v => 0 < v) (benchmark_values h) ->
   Forall (fun v => 0 < v) (benchmark_values h')) /\
  same_pnl (portfolio (h_engine h)) (portfolio (h_engine h')) /\
  Forall (fun s => snap_unrealized_pnl s = unrealized_pnl (portfolio (h_engine h)) /\
                   snap_realized_pnl s = realized_pnl (portfolio (h_engine h))) new.

(** The ledger as an account of the portfolio: the cash that a record moves
    (a sell brings its value, a buy costs it), the quantity of [symbol] that
    it moves, and an engine [e'] whose ledger, cash and positions are those
    of [e] with the records [new] applied. *)
Definition signed_value (t : Trade) : Q :=
  if String.eqb (trade_side t) "sell" then trade_value t else - trade_value t.

Definition signed_quantity (symbol : string) (t : Trade) : Q :=
  if String.eqb (trade_symbol t) symbol then
    if String.eqb (trade_side t) "sell" then - trade_quantity t else trade_quantity t
  else 0.

Definition accounted_by (new : list Trade) (e e' : Engine) : Prop :=
  trades e' = trades e ++ new /\
  cash (portfolio e') == cash (portfolio e) + Qsum (signed_value <$> new) /\
  forall symbol, held e' symbol == held e symbol + Qsum (signed_quantity symbol <$> new).

(** ** Sample runs *)

Definition strategy_name : string := "SimpleMomentumStrategy".

(** A fresh engine with capital 100 that spends all of it on 10 BTC at 10. *)
Definition all_in : list Order :=
  [mkOrder "BTC" (mkSignal "buy" 10) 10 0].
Definition spent_engine : Engine :=
  fst (execute_all all_in (new_engine strategy_name 100)).

(** A fresh engine with capital 150 that buys 1 BTC at 100. *)
Definition invested_engine : Engine :=
  fst (execute_all [mkOrder "BTC" (mkSignal "buy" 1) 100 0] (new_engine strategy_name 150)).

Definition btc_at (price : Q) : gmap string Q := {[ "BTC" := price ]}.

(** Three hourly bars of BTC: 100, 110, 99. *)
Definition btc_bars (symbol : string) : DataFrame :=
  if String.eqb symbol "BTC" then [(0%Z, 100); (3600%Z, 110); (7200%Z, 99)] else [].

(** BTC has bars at hours 0 and 1, ETH at hours 2 and 3. *)
Definition disjoint_bars (symbol : string) : DataFrame :=
  if String.eqb symbol "BTC" then [(0%Z, 100); (3600%Z, 110)]
  else if String.eqb symbol "ETH" then [(7200%Z, 50); (10800%Z, 55)]
  else [].

(** Buys 10 BTC at the first tick and holds afterwards. *)
Definition buy_once : Strategy := fun timestamp _ _ =>
  inr (if (timestamp =? 0)%Z then [("BTC", mkSignal "buy" 10)] else []).

Definition raising_strategy : Strategy := fun _ _ _ => inl (StrategyError "no signal").

Definition btc_replay : HistoricalSimulator := new_historical strategy_name 1000 ["BTC"].
Definition two_symbol_replay : HistoricalSimulator :=
  new_historical strategy_name 1000 ["BTC"; "ETH"].
Definition btc_live : RealtimeSimulator := new_realtime strategy_name 1000 ["BTC"].

(** The live feed of BTC at 10, followed by two updates in which the price
    is reported as 0. *)
Definition outage_feed : list (Z * gmap string Q) :=
  [(0%Z, btc_at 10); (1%Z, btc_at 0); (2%Z, btc_at 0)].
Definition small_live : RealtimeSimulator := new_realtime strategy_name 100 ["BTC"].

(** Four signals on a fresh engine: a buy, a partial sell, a buy of a second
    symbol and a hold. *)
Definition sample_orders : list Order :=
  [mkOrder "BTC" (mkSignal "buy" 10) 10 0;
   mkOrder "BTC" (mkSignal "sell" 4) 12 3600;
   mkOrder "ETH" (mkSignal "buy" 1) 10 7200;
   mkOrder "ETH" (mkSignal "hold" 0) 11 10800].

(** The scenario of the specification: capital 10000, one symbol priced 100,
    100, 110, 90, 90 at five ticks, and a buy of 50 at the first tick only. *)
Definition scenario_feed : list (Z * gmap string Q) :=
  [(1%Z, btc_at 100); (2%Z, btc_at 100); (3%Z, btc_at 110); (4%Z, btc_at 90);
   (5%Z, btc_at 90)].
Definition scenario_strategy : Strategy := fun timestamp _ _ =>
  inr (if (timestamp =? 1)%Z then [("BTC", mkSignal "buy" 50)] else []).
Definition scenario_live : RealtimeSimulator := new_realtime strategy_name 10000 ["BTC"].

(** Two symbols, one gaining and one losing 10% between hours 0 and 1. *)
Definition opposite_bars : HistoricalData :=
  {[ "BTC" := [(0%Z, 100); (3600%Z, 110)]; "ETH" := [(0%Z, 50); (3600%Z, 45)] ]}.

(** * Part II: properties *)

(** ** Numbers and methods *)

Lemma Qltb_lt (x y : Q) : Qltb x y = true <-> x < y.
Proof.
  unfold Qltb. rewrite negb_true_iff. split.
  - intros H. apply Qnot_le_lt. intros Hle. apply Qle_bool_iff in Hle. congruence.
  - intros H. destruct (Qle_bool y x) eqn:E; [|reflexivity].
    apply Qle_bool_iff in E. exfalso. apply (Qlt_not_le _ _ H E).
Qed.

Lemma Qltb_ge (x y : Q) : Qltb x y = false <-> y <= x.
Proof.
  unfold Qltb. rewrite negb_false_iff. apply Qle_bool_iff.
Qed.

Lemma py_div_pos {S} (a b : Q) (s : S) : ~ b == 0 -> py_div a b s = (s, inr (a / b)).
Proof.
  intros Hb. unfold py_div. destruct (Qeq_bool b 0) eqn:E; [|reflexivity].
  apply Qeq_bool_iff in E. contradiction.
Qed.

Ltac run_method :=
  cbv beta iota delta [mbind M_bind mret M_ret gets modify raise zoom try_except
                         h_zoom r_zoom].

(** ** The execution unit, one signal at a time *)

(** A signal that is neither a buy nor a sell of a positive quantity does
    nothing. *)
Lemma execute_trade_ignored symbol signal price timestamp (e : Engine) :
  (action signal <> "buy" /\ action signal <> "sell") \/ quantity signal <= 0 ->
  _execute_trade symbol signal price timestamp e = (e, inr tt).
Proof.
  intros H. unfold _execute_trade.
  destruct H as [[Hb Hs] | Hq].
  - apply String.eqb_neq in Hb, Hs. rewrite Hb, Hs. reflexivity.
  - apply Qltb_ge in Hq. rewrite Hq, !andb_false_r. reflexivity.
Qed.

(** What a buy does: the quantity is [min(requested, cash / price)], the
    cash is debited by its cost, the position grows by it and one trade is
    appended. *)
Lemma execute_trade_buy symbol signal price timestamp (e : Engine) :
  action signal = "buy" -> 0 < quantity signal -> 0 < price ->
  let q := Qmin (quantity signal) (cash (portfolio e) / price) in
  exists e',
    _execute_trade symbol signal price timestamp e = (e', inr tt) /\
    cash (portfolio e') = cash (portfolio e) - q * price /\
    positions (portfolio e') !! symbol = Some (held e symbol + q) /\
    (forall other, other <> symbol ->
       positions (portfolio e') !! other = positions (portfolio e) !! other) /\
    trades e' = trades e ++ [mkTrade timestamp symbol "buy" q price (q * price)
                               (algorithm_name e)] /\
    total_value (portfolio e') = total_value (portfolio e) /\
    peak_value e' = peak_value e /\ max_drawdown e' = max_drawdown e.
Proof.
  intros Ha Hq Hp q. unfold _execute_trade.
  rewrite Ha, String.eqb_refl. apply Qltb_lt in Hq. rewrite Hq. cbn [andb].
  run_method. rewrite py_div_pos by lra. fold q.
  assert (Hcost : Qle_bool (q * price) (cash (portfolio e)) = true).
  { apply Qle_bool_iff. unfold q.
    assert (Hc : cash (portfolio e) / price * price == cash (portfolio e))
      by (field; lra).
    rewrite <- Hc at 2. apply Qmult_le_compat_r; [apply Q.le_min_r | lra]. }
  rewrite Hcost. eexists. split; [reflexivity|].
  cbn [portfolio set_portfolio set_trades set_positions set_cash cash positions trades
         total_value peak_value max_drawdown algorithm_name].
  repeat split.
  - unfold held. destruct (positions (portfolio e) !! symbol) as [q0|] eqn:E.
    + rewrite lookup_insert_eq, E. reflexivity.
    + rewrite !lookup_insert_eq. reflexivity.
  - intros other Hne. destruct (positions (portfolio e) !! symbol) eqn:E;
      rewrite ?lookup_insert_ne by congruence; reflexivity.
Qed.

(** What a sell does: the quantity is [min(requested, held)]; when it is
    positive the proceeds are credited, the position shrinks by it and one
    trade is appended, and otherwise nothing happens. *)
Lemma execute_trade_sell symbol signal price timestamp (e : Engine) :
  action signal = "sell" -> 0 < quantity signal ->
  let q := Qmin (quantity signal) (held e symbol) in
  0 < q ->
  exists e',
    _execute_trade symbol signal price timestamp e = (e', inr tt) /\
    cash (portfolio e') = cash (portfolio e) + q * price /\
    positions (portfolio e') !! symbol = Some (held e symbol - q) /\
    (forall other, other <> symbol ->
       positions (portfolio e') !! other = positions (portfolio e) !! other) /\
    trades e' = trades e ++ [mkTrade timestamp symbol "sell" q price (q * price)
                               (algorithm_name e)] /\
    total_value (portfolio e') = total_value (portfolio e) /\
    peak_value e' = peak_value e /\ max_drawdown e' = max_drawdown e.
Proof.
  intros Ha Hq q Hpos. unfold _execute_trade.
  rewrite Ha. replace (String.eqb "sell" "buy") with false by reflexivity.
  rewrite String.eqb_refl. apply Qltb_lt in Hq. rewrite Hq. cbn [andb].
  run_method. unfold held in q. fold q.
  assert (Hq' := proj2 (Qltb_lt 0 q) Hpos). rewrite Hq'.
  destruct (positions (portfolio e) !! symbol) as [h|] eqn:E.
  - eexists. split; [reflexivity|].
    cbn [portfolio set_portfolio set_trades set_positions set_cash cash positions trades
           total_value peak_value max_drawdown algorithm_name].
    unfold held. rewrite E. cbn [default]. repeat split.
    + apply lookup_insert_eq.
    + intros other Hne. rewrite lookup_insert_ne by congruence. reflexivity.
  - exfalso. cbn [default] in q. pose proof (Q.le_min_r (quantity signal) 0) as Hle.
    fold q in Hle. lra.
Qed.

Lemma execute_trade_sell_nothing symbol signal price timestamp (e : Engine) :
  action signal = "sell" ->
  Qmin (quantity signal) (held e symbol) <= 0 ->
  _execute_trade symbol signal price timestamp e = (e, inr tt).
Proof.
  intros Ha Hle. unfold _execute_trade.
  rewrite Ha. replace (String.eqb "sell" "buy") with false by reflexivity.
  rewrite String.eqb_refl. cbn [andb].
  destruct (Qltb 0 (quantity signal)); [|reflexivity].
  run_method. apply Qltb_ge in Hle. unfold held in Hle. rewrite Hle. reflexivity.
Qed.

(** Every signal falls in one of the three cases above. *)
Lemma signal_cases (signal : Signal) :
  (action signal = "buy" /\ 0 < quantity signal) \/
  (action signal = "sell" /\ 0 < quantity signal) \/
  ((action signal <> "buy" /\ action signal <> "sell") \/ quantity signal <= 0).
Proof.
  destruct (Qlt_le_dec 0 (quantity signal)) as [Hq|Hq]; [|right; right; right; exact Hq].
  destruct (String.eqb_spec (action signal) "buy") as [Hb|Hb]; [left; split; assumption|].
  destruct (String.eqb_spec (action signal) "sell") as [Hs|Hs].
  - right; left; split; assumption.
  - right; right; left; split; assumption.
Qed.

Lemma execute_trade_cash symbol signal price timestamp (e : Engine) :
  0 < price -> cash_nonneg e ->
  exists e', _execute_trade symbol signal price timestamp e = (e', inr tt) /\
             cash_nonneg e'.
Proof.
  intros Hp Hc. unfold cash_nonneg in *.
  destruct (signal_cases signal) as [[Ha Hq] | [[Ha Hq] | Hno]].
  - destruct (execute_trade_buy symbol signal price timestamp e Ha Hq Hp)
      as (e' & He & Hcash & _).
    exists e'. split; [exact He|]. rewrite Hcash.
    assert (Qmin (quantity signal) (cash (portfolio e) / price) * price
            <= cash (portfolio e) / price * price)
      by (apply Qmult_le_compat_r; [apply Q.le_min_r | lra]).
    assert (cash (portfolio e) / price * price == cash (portfolio e)) by (field; lra).
    lra.
  - destruct (Qlt_le_dec 0 (Qmin (quantity signal) (held e symbol))) as [Hpos|Hle].
    + destruct (execute_trade_sell symbol signal price timestamp e Ha Hq Hpos)
        as (e' & He & Hcash & _).
      exists e'. split; [exact He|]. rewrite Hcash.
      assert (0 <= Qmin (quantity signal) (held e symbol) * price)
        by (apply Qmult_le_0_compat; lra).
      lra.
    + exists e. split; [|exact Hc]. apply execute_trade_sell_nothing; assumption.
  - exists e. split; [|exact Hc]. apply execute_trade_ignored; assumption.
Qed.

Lemma execute_trade_positions symbol signal price timestamp (e : Engine) :
  0 < price -> cash_nonneg e -> positions_nonneg e ->
  exists e', _execute_trade symbol signal price timestamp e = (e', inr tt) /\
             positions_nonneg e'.
Proof.
  intros Hp Hc Hpos. unfold cash_nonneg, positions_nonneg in *.
  assert (Hheld : 0 <= held e symbol).
  { unfold held. destruct (positions (portfolio e) !! symbol) eqn:E; cbn [default].
    - eapply Hpos; eassumption.
    - lra. }
  destruct (signal_cases signal) as [[Ha Hq] | [[Ha Hq] | Hno]].
  - destruct (execute_trade_buy symbol signal price timestamp e Ha Hq Hp)
      as (e' & He & _ & Hsym & Hother & _).
    exists e'. split; [exact He|]. intros s q Hs.
    destruct (decide (s = symbol)) as [->|Hne].
    + rewrite Hsym in Hs. injection Hs as <-.
      assert (0 <= Qmin (quantity signal) (cash (portfolio e) / price)).
      { apply Q.min_glb; [lra|]. apply Qle_shift_div_l; lra. }
      lra.
    + rewrite Hother in Hs by exact Hne. eapply Hpos; eassumption.
  - destruct (Qlt_le_dec 0 (Qmin (quantity signal) (held e symbol))) as [Hgt|Hle].
    + destruct (execute_trade_sell symbol signal price timestamp e Ha Hq Hgt)
        as (e' & He & _ & Hsym & Hother & _).
      exists e'. split; [exact He|]. intros s q Hs.
      destruct (decide (s = symbol)) as [->|Hne].
      * rewrite Hsym in Hs. injection Hs as <-.
        pose proof (Q.le_min_r (quantity signal) (held e symbol)). lra.
      * rewrite Hother in Hs by exact Hne. eapply Hpos; eassumption.
    + exists e. split; [|exact Hpos]. apply execute_trade_sell_nothing; assumption.
  - exists e. split; [|exact Hpos]. apply execute_trade_ignored; assumption.
Qed.

(** ** Sequences of signals *)

Lemma execute_all_cons o orders (e : Engine) :
  execute_all (o :: orders) e =
  match execute o e with
  | (e', inl x) => (e', inl x)
  | (e', inr _) => execute_all orders e'
  end.
Proof. reflexivity. Qed.

Section Preservation.

Variable I : Engine -> Prop.
Hypothesis step_preserves :
  forall o e, 0 < order_price o -> I e ->
    exists e', execute o e = (e', inr tt) /\ I e'.

Lemma execute_all_preserves orders :
  forall e, Forall (fun o => 0 < order_price o) orders -> I e ->
    exists e', execute_all orders e = (e', inr tt) /\ I e'.
Proof.
  induction orders as [|o orders IH]; intros e Hall He.
  - exists e. split; [reflexivity | exact He].
  - inversion Hall as [|? ? Ho Hrest]; subst.
    destruct (step_preserves o e Ho He) as (e1 & Hstep & He1).
    destruct (IH e1 Hrest He1) as (e2 & Hrun & He2).
    exists e2. split; [|exact He2].
    rewrite execute_all_cons, Hstep. exact Hrun.
Qed.

End Preservation.


(** C2. For every sequence of signals filled at positive prices, no held
    quantity is negative after any execution, starting from non-negative
    cash and positions; a sell of a positive quantity executes
    [min(requested, held)], and a sell of a symbol that is not held changes
    nothing and appends no trade. *)
Theorem positions_never_negative :
  (forall orders (e : Engine) (n : nat),
      cash_nonneg e -> positions_nonneg e ->
      Forall (fun o => 0 < order_price o) orders ->
      exists e', execute_all (take n orders) e = (e', inr tt) /\ positions_nonneg e') /\
  (forall symbol signal price timestamp (e : Engine),
      action signal = "sell" -> 0 < quantity signal ->
      let q := Qmin (quantity signal) (held e symbol) in
      0 < q ->
      exists e', _execute_trade symbol signal price timestamp e = (e', inr tt) /\
        held e' symbol = held e symbol - q /\
        trades e' = trades e ++ [mkTrade timestamp symbol "sell" q price (q * price)
                                   (algorithm_name e)]) /\
  (forall symbol signal price timestamp (e : Engine),
      action signal = "sell" -> held e symbol == 0 ->
      _execute_trade symbol signal price timestamp e = (e, inr tt)).
Proof.
  split; [|split].
  - intros orders e n Hc Hp Hall.
    destruct (execute_all_preserves (fun e => cash_nonneg e /\ positions_nonneg e))
      with (orders := take n orders) (e := e) as (e' & Hrun & _ & Hpos').
    + intros o e0 Ho [Hc0 Hp0].
      destruct (execute_trade_cash (order_symbol o) (order_signal o) (order_price o)
                  (order_timestamp o) e0 Ho Hc0) as (e1 & H1 & Hc1).
      destruct (execute_trade_positions (order_symbol o) (order_signal o) (order_price o)
                  (order_timestamp o) e0 Ho Hc0 Hp0) as (e2 & H2 & Hp2).
      rewrite H1 in H2. injection H2 as <-.
      exists e1. split; [exact H1 | split; assumption].
    + apply Forall_take. exact Hall.
    + split; assumption.
    + exists e'. split; assumption.
  - intros symbol signal price timestamp e Ha Hq q Hpos.
    destruct (execute_trade_sell symbol signal price timestamp e Ha Hq Hpos)
      as (e' & He & _ & Hsym & _ & Htr & _).
    exists e'. split; [exact He|]. split; [|exact Htr].
    unfold held at 1. rewrite Hsym. reflexivity.
  - intros symbol signal price timestamp e Ha Hheld.
    apply execute_trade_sell_nothing; [exact Ha|].
    pose proof (Q.le_min_r (quantity signal) (held e symbol)). lra.
Qed.

(** C10. A buy whose executable quantity is zero is executed all the same:
    after capital 100 has been spent on BTC, a buy of 1 ETH at 10 has
    executable quantity [min(1, 0 / 10) = 0], appends a trade of quantity 0
    and creates the position ETH with quantity 0. *)
Theorem zero_quantity_buy_is_recorded :
  cash (portfolio spent_engine) == 0 /\
  Qmin 1 (cash (portfolio spent_engine) / 10) == 0 /\
  positions (portfolio spent_engine) !! "ETH" = None /\
  exists e' t q,
    _execute_trade "ETH" (mkSignal "buy" 1) 10 3600 spent_engine = (e', inr tt) /\
    trades e' = trades spent_engine ++ [t] /\
    trade_side t = "buy" /\ trade_symbol t = "ETH" /\ trade_quantity t == 0 /\
    positions (portfolio e') !! "ETH" = Some q /\ q == 0.
Proof.
  split; [reflexivity|]. split; [reflexivity|]. split; [reflexivity|].
  eexists. eexists. eexists.
  split; [vm_compute; reflexivity|].
  split; [reflexivity|]. split; [reflexivity|]. split; [reflexivity|].
  split; [reflexivity|]. split; reflexivity.
Qed.

(** The other cases of C10 hold: a hold, any other action, and a request of a
    non-positive quantity leave the engine as it is. *)
Lemma hold_or_nonpositive_has_no_effect symbol signal price timestamp (e : Engine) :
  action signal = "hold" \/ quantity signal <= 0 ->
  _execute_trade symbol signal price timestamp e = (e, inr tt).
Proof.
  intros [Ha|Hq]; apply execute_trade_ignored; [left|right; exact Hq].
  rewrite Ha. split; discriminate.
Qed.

(** In general: with no cash left, every buy of a positive quantity at a
    positive price appends a trade whose quantity is zero. *)
Lemma buy_without_cash_is_recorded symbol signal price timestamp (e : Engine) :
  action signal = "buy" -> 0 < quantity signal -> 0 < price ->
  cash (portfolio e) == 0 ->
  exists e' t,
    _execute_trade symbol signal price timestamp e = (e', inr tt) /\
    trades e' = trades e ++ [t] /\ trade_quantity t == 0.
Proof.
  intros Ha Hq Hp Hcash.
  destruct (execute_trade_buy symbol signal price timestamp e Ha Hq Hp)
    as (e' & He & _ & _ & _ & Htrades & _).
  exists e'. eexists. split; [exact He|]. split; [exact Htrades|].
  cbn [trade_quantity]. rewrite Hcash.
  assert (Hz : 0 / price == 0) by (field; lra).
  rewrite Hz. apply Q.min_r. lra.
Qed.

(** ** Valuation *)

Lemma Qsum_Permutation (l l' : list Q) : l ≡ₚ l' -> Qsum l == Qsum l'.
Proof.
  induction 1 as [|x l l' _ IH|x y l|l l' l'' _ IH1 _ IH2]; cbn [Qsum foldr] in *.
  - reflexivity.
  - fold (Qsum l) (Qsum l') in *. rewrite IH. reflexivity.
  - fold (Qsum l). ring.
  - etransitivity; eassumption.
Qed.

(** The loop computes cash plus the sum of the priced contributions. *)
Lemma mark_to_market_sum (current_prices : gmap string Q) (p : Portfolio) :
  mark_to_market current_prices p == cash p + Qsum (priced_contributions current_prices p).
Proof.
  unfold mark_to_market, priced_contributions. rewrite map_fold_foldr.
  induction (map_to_list (positions p)) as [|[symbol q] l IH]; cbn [foldr omap list_omap Qsum].
  - ring.
  - cbn [uncurry]. unfold uncurry in IH. cbn [fst snd] in *.
    destruct (current_prices !! symbol) as [price|]; cbn [fmap option_fmap option_map].
    + cbn [foldr]. fold (Qsum (omap (fun '(symbol, quantity) =>
          (fun price => quantity * price) <$> current_prices !! symbol) l)).
      rewrite IH. ring.
    + exact IH.
Qed.

(** The valuation step stores the marked value, whether or not the drawdown
    can be computed afterwards, and leaves cash and positions alone. *)
Lemma update_portfolio_value_total current_prices (e : Engine) :
  let e' := fst (_update_portfolio_value current_prices e) in
  total_value (portfolio e') = mark_to_market current_prices (portfolio e) /\
  cash (portfolio e') = cash (portfolio e) /\
  positions (portfolio e') = positions (portfolio e) /\
  trades e' = trades e.
Proof.
  unfold _update_portfolio_value. run_method. unfold py_div. run_method.
  cbn [portfolio set_portfolio peak_value max_drawdown].
  destruct (Qltb (peak_value e) _); cbn [peak_value set_peak_value portfolio max_drawdown];
    destruct (Qeq_bool _ 0); cbn [fst];
    try destruct (Qltb _ _); cbn [fst portfolio set_max_drawdown set_peak_value set_portfolio
                                    set_total_value total_value cash positions trades];
    repeat split.
Qed.

(** A held symbol without a current price adds nothing to the sum: the sum
    is the same with the position removed. *)
Lemma priced_contributions_delete (current_prices : gmap string Q) (p : Portfolio) symbol :
  current_prices !! symbol = None ->
  Qsum (priced_contributions current_prices p) ==
  Qsum (priced_contributions current_prices
          (set_positions (delete symbol (positions p)) p)).
Proof.
  intros Hnone. unfold priced_contributions. cbn [positions set_positions].
  destruct (positions p !! symbol) as [q|] eqn:E.
  - apply Qsum_Permutation.
    rewrite <- (map_to_list_delete (positions p) symbol q E).
    cbn [omap list_omap]. rewrite Hnone. reflexivity.
  - rewrite delete_id by exact E. reflexivity.
Qed.

(** C3, as the code has it. The valuation step sets [total_value] to cash
    plus the sum, over the held positions whose symbol has a current price,
    of quantity times current price; a position without a current price
    contributes nothing (the value is the one of the portfolio without that
    position), whatever it contributed at an earlier valuation. *)
Theorem valuation_counts_priced_positions_only current_prices (e : Engine) :
  let e' := fst (_update_portfolio_value current_prices e) in
  total_value (portfolio e') ==
    cash (portfolio e) + Qsum (priced_contributions current_prices (portfolio e)) /\
  (forall symbol, current_prices !! symbol = None ->
     total_value (portfolio e') ==
       cash (portfolio e) +
       Qsum (priced_contributions current_prices
               (set_positions (delete symbol (positions (portfolio e))) (portfolio e)))).
Proof.
  intros e'.
  destruct (update_portfolio_value_total current_prices e) as (Htotal & _).
  fold e' in Htotal. rewrite Htotal. split.
  - apply mark_to_market_sum.
  - intros symbol Hnone. rewrite mark_to_market_sum.
    rewrite (priced_contributions_delete _ _ symbol Hnone). reflexivity.
Qed.

(** C3, as stated, fails: 1 BTC valued at 100 and then marked without a
    price for BTC is valued at the cash alone, 50, and not at the 150 of the
    carried-forward price. *)
Lemma valuation_does_not_carry_forward :
  ~ (forall previous_prices current_prices (e e1 e2 : Engine),
       _update_portfolio_value previous_prices e = (e1, inr tt) ->
       _update_portfolio_value current_prices e1 = (e2, inr tt) ->
       total_value (portfolio e2) ==
         cash (portfolio e1) +
         Qsum (carry_forward_contributions previous_prices current_prices (portfolio e1))).
Proof.
  intros H.
  specialize (H (btc_at 100) ∅ invested_engine
                (fst (_update_portfolio_value (btc_at 100) invested_engine))
                (fst (_update_portfolio_value ∅
                        (fst (_update_portfolio_value (btc_at 100) invested_engine))))).
  assert (Hfalse : ~ (50 == 150)) by (intros Heq; vm_compute in Heq; discriminate).
  apply Hfalse. 
  assert (H1 : total_value (portfolio (fst (_update_portfolio_value ∅
            (fst (_update_portfolio_value (btc_at 100) invested_engine))))) == 50)
    by (vm_compute; reflexivity).
  rewrite <- H1. rewrite H; [vm_compute; reflexivity | vm_compute; reflexivity
                            | vm_compute; reflexivity].
Qed.

(** ** Peak and drawdown *)

Lemma if_Qltb_max (a b : Q) : (if Qltb a b then b else a) = Qmax a b.
Proof.
  unfold Qmax, GenericMinMax.gmax. destruct (Qltb a b) eqn:E.
  - apply Qltb_lt in E. assert (C : (a ?= b) = Lt) by (apply Qlt_alt; exact E).
    rewrite C. reflexivity.
  - apply Qltb_ge in E. destruct (a ?= b) eqn:C; try reflexivity.
    apply (proj2 (Qlt_alt a b)) in C. exfalso. apply (Qlt_not_le _ _ C E).
Qed.

(** [_execute_trade] touches the portfolio and the ledger only. *)
Lemma execute_trade_frame symbol signal price timestamp (e : Engine) :
  let e' := fst (_execute_trade symbol signal price timestamp e) in
  peak_value e' = peak_value e /\ max_drawdown e' = max_drawdown e /\
  total_value (portfolio e') = total_value (portfolio e) /\
  initial_capital e' = initial_capital e /\ algorithm_name e' = algorithm_name e.
Proof.
  unfold _execute_trade.
  destruct (String.eqb (action signal) "buy" && Qltb 0 (quantity signal)).
  - run_method. unfold py_div. destruct (Qeq_bool price 0); run_method.
    + cbn [fst]. repeat split.
    + destruct (Qle_bool _ _); cbn [fst]; repeat split.
  - destruct (String.eqb (action signal) "sell" && Qltb 0 (quantity signal));
      [|cbn [fst]; repeat split].
    run_method. destruct (Qltb 0 _); [|cbn [fst]; repeat split].
    destruct (positions (portfolio e) !! symbol); run_method; cbn [fst]; repeat split.
Qed.

(** The valuation step, when the peak is not zero: the peak and the worst
    drawdown are running maxima. *)
Lemma update_portfolio_value_tracking current_prices (e : Engine) :
  let value := mark_to_market current_prices (portfolio e) in
  let peak := Qmax (peak_value e) value in
  ~ peak == 0 ->
  exists e',
    _update_portfolio_value current_prices e = (e', inr tt) /\
    total_value (portfolio e') = value /\
    peak_value e' = peak /\
    max_drawdown e' = Qmax (max_drawdown e) ((peak - value) / peak) /\
    initial_capital e' = initial_capital e /\ algorithm_name e' = algorithm_name e.
Proof.
  intros value peak Hpeak. unfold _update_portfolio_value. run_method.
  fold value. cbn [peak_value set_portfolio].
  assert (Hp : (if Qltb (peak_value e) value then value else peak_value e) = peak)
    by apply if_Qltb_max.
  destruct (Qltb (peak_value e) value) eqn:E;
    cbn [peak_value set_peak_value set_portfolio];
    rewrite <- Hp in Hpeak |- *;
    rewrite py_div_pos by exact Hpeak;
    cbn [max_drawdown set_peak_value set_portfolio];
    rewrite <- (if_Qltb_max (max_drawdown e));
    match goal with
    | |- context [Qltb ?a ?b] => destruct (Qltb a b)
    end; eexists; (split; [reflexivity|]);
    cbn [portfolio set_max_drawdown set_peak_value set_portfolio set_total_value total_value
           peak_value max_drawdown initial_capital algorithm_name];
    repeat split.
Qed.

(** The worst drawdown never decreases at a valuation, even a failing one. *)
Lemma update_portfolio_value_monotone current_prices (e : Engine) :
  max_drawdown e <= max_drawdown (fst (_update_portfolio_value current_prices e)).
Proof.
  unfold _update_portfolio_value. run_method. unfold py_div. run_method.
  cbn [peak_value set_portfolio].
  destruct (Qltb (peak_value e) _); cbn [peak_value set_peak_value set_portfolio max_drawdown];
    destruct (Qeq_bool _ 0); cbn [fst max_drawdown set_peak_value set_portfolio];
    try apply Qle_refl;
    match goal with
    | |- context [Qltb ?a ?b] => destruct (Qltb a b) eqn:E
    end; cbn [fst max_drawdown set_max_drawdown set_peak_value set_portfolio];
    try apply Qle_refl; apply Qltb_lt in E; apply Qlt_le_weak; exact E.
Qed.

Lemma peak_so_far_snoc capital values v :
  peak_so_far capital (values ++ [v]) = Qmax (peak_so_far capital values) v.
Proof. unfold peak_so_far. apply foldl_snoc. Qed.

Lemma peak_so_far_ge_capital capital values : capital <= peak_so_far capital values.
Proof.
  induction values as [|v values IH] using rev_ind.
  - apply Qle_refl.
  - rewrite peak_so_far_snoc. eapply Qle_trans; [exact IH | apply Q.le_max_l].
Qed.

Lemma peak_so_far_ge_last capital values v : v <= peak_so_far capital (values ++ [v]).
Proof. rewrite peak_so_far_snoc. apply Q.le_max_r. Qed.

Lemma drawdown_at_old capital values v k :
  (k < length values)%nat ->
  drawdown_at capital (values ++ [v]) k = drawdown_at capital values k.
Proof.
  intros Hk. unfold drawdown_at.
  rewrite take_app_le by lia. rewrite lookup_app_l by exact Hk. reflexivity.
Qed.

Lemma drawdown_at_new capital values v :
  drawdown_at capital (values ++ [v]) (length values) =
  (peak_so_far capital (values ++ [v]) - v) / peak_so_far capital (values ++ [v]).
Proof.
  unfold drawdown_at.
  rewrite take_ge by (rewrite length_app; cbn; lia).
  rewrite list_lookup_middle by reflexivity. reflexivity.
Qed.

Lemma drawdown_at_nonneg capital values k :
  0 < capital -> (k < length values)%nat -> 0 <= drawdown_at capital values k.
Proof.
  intros Hc Hk. unfold drawdown_at.
  destruct (lookup_lt_is_Some_2 values k Hk) as [v Hv]. rewrite Hv. cbn [default].
  rewrite (take_S_r _ _ _ Hv).
  pose proof (peak_so_far_ge_last capital (take k values) v).
  pose proof (peak_so_far_ge_capital capital (take k values ++ [v])).
  apply Qle_shift_div_l; unfold id; lra.
Qed.

Lemma reaches_invariant name capital values (e : Engine) :
  0 < capital -> reaches name capital values e ->
  peak_value e = peak_so_far capital values /\
  0 <= max_drawdown e /\
  (forall k, (k < length values)%nat -> drawdown_at capital values k <= max_drawdown e) /\
  ((values = [] /\ max_drawdown e = 0) \/
   (exists k, (k < length values)%nat /\ max_drawdown e == drawdown_at capital values k)).
Proof.
  intros Hc Hrun.
  induction Hrun as [|values e current_prices e' Hrun IH Hmark|values e o Hrun IH].
  - cbn. repeat split; [apply Qle_refl | intros k Hk; inversion Hk | left; split; reflexivity].
  - destruct IH as (Hpeak & Hnonneg & Hall & Hsome).
    pose proof (peak_so_far_ge_capital capital values) as Hge.
    destruct (update_portfolio_value_tracking current_prices e)
      as (e'' & Hrun' & Hvalue & Hpeak' & Hworst & _).
    { pose proof (Q.le_max_l (peak_value e) (mark_to_market current_prices (portfolio e))).
      rewrite Hpeak in *. lra. }
    rewrite Hmark in Hrun'. injection Hrun' as <-.
    rewrite Hvalue. set (value := mark_to_market current_prices (portfolio e)) in *.
    rewrite Hpeak, <- peak_so_far_snoc in Hpeak'.
    rewrite Hpeak, <- peak_so_far_snoc, <- drawdown_at_new in Hworst.
    assert (Hnew : (length values < length (values ++ [value]))%nat)
      by (rewrite length_app; cbn; lia).
    pose proof (drawdown_at_nonneg capital (values ++ [value]) (length values) Hc Hnew) as Hdd.
    pose proof (Q.le_max_l (max_drawdown e)
                  (drawdown_at capital (values ++ [value]) (length values))) as Hl.
    pose proof (Q.le_max_r (max_drawdown e)
                  (drawdown_at capital (values ++ [value]) (length values))) as Hr.
    rewrite <- Hworst in Hl, Hr.
    split; [exact Hpeak'|]. split; [lra|]. split.
    + intros k Hk. rewrite length_app in Hk. cbn in Hk.
      destruct (decide (k = length values)) as [->|Hne].
      * exact Hr.
      * rewrite drawdown_at_old by lia. eapply Qle_trans; [apply Hall; lia | exact Hl].
    + right.
      destruct (Q.max_spec (max_drawdown e)
                  (drawdown_at capital (values ++ [value]) (length values)))
        as [[_ Hmax]|[Hle Hmax]]; rewrite <- Hworst in Hmax.
      * exists (length values). split; [exact Hnew | exact Hmax].
      * destruct Hsome as [[-> Hzero]|(k & Hk & Hd)].
        -- exists 0%nat. split; [cbn; lia|]. cbn [length] in *. rewrite Hzero in *. lra.
        -- exists k. split; [rewrite length_app; cbn; lia|].
           rewrite drawdown_at_old by exact Hk. rewrite Hmax. exact Hd.
  - destruct (execute_trade_frame (order_symbol o) (order_signal o) (order_price o)
                (order_timestamp o) e) as (Hp & Hw & _).
    unfold execute. rewrite Hp, Hw. exact IH.
Qed.

(** On a run from capital [> 0] the peak is positive, so that the valuation
    step never fails at the division. *)
Lemma reaches_update_returns name capital values (e : Engine) current_prices :
  0 < capital -> reaches name capital values e ->
  exists e', _update_portfolio_value current_prices e = (e', inr tt).
Proof.
  intros Hc Hrun.
  destruct (reaches_invariant name capital values e Hc Hrun) as (Hpeak & _).
  destruct (update_portfolio_value_tracking current_prices e) as (e' & He' & _).
  - pose proof (Q.le_max_l (peak_value e) (mark_to_market current_prices (portfolio e))).
    pose proof (peak_so_far_ge_capital capital values).
    rewrite Hpeak in *. lra.
  - exists e'. exact He'.
Qed.

(** C5. On every run of the engine from capital [> 0]: after at least one
    valuation the worst drawdown is the maximum, over the ticks so far, of
    [(peak - value) / peak], where the peak of a tick is the largest of the
    capital and the values marked up to that tick; the stored peak is that
    largest value; the next valuation returns and does not lower the worst
    drawdown, and an execution leaves it as it is. *)
Theorem max_drawdown_is_running_maximum name capital values (e : Engine) :
  0 < capital -> reaches name capital values e ->
  (values <> [] -> is_max_drawdown capital values (max_drawdown e)) /\
  peak_value e = peak_so_far capital values /\
  (forall current_prices,
     exists e', _update_portfolio_value current_prices e = (e', inr tt) /\
                max_drawdown e <= max_drawdown e') /\
  (forall o, max_drawdown (fst (execute o e)) = max_drawdown e).
Proof.
  intros Hc Hrun.
  destruct (reaches_invariant name capital values e Hc Hrun) as (Hpeak & _ & Hall & Hsome).
  split; [|split; [exact Hpeak|split]].
  - intros Hne. split; [|exact Hall].
    destruct Hsome as [[Hnil _]|Hex]; [contradiction | exact Hex].
  - intros current_prices.
    destruct (reaches_update_returns name capital values e current_prices Hc Hrun)
      as (e' & He').
    exists e'. split; [exact He'|].
    pose proof (update_portfolio_value_monotone current_prices e) as Hmono.
    rewrite He' in Hmono. exact Hmono.
  - intros o. apply execute_trade_frame.
Qed.

(** ** The benchmark *)

(** One round of the loop adds the return of a valid symbol and counts it. *)
Lemma benchmark_symbol_return historical_data current_date prev_date acc symbol :
  benchmark_symbol historical_data current_date (Some prev_date) acc symbol =
  match symbol_return historical_data prev_date current_date symbol with
  | Some r => (fst acc + r, (snd acc + 1)%Z)
  | None => acc
  end.
Proof.
  destruct acc as [total_return valid_symbols].
  unfold benchmark_symbol, symbol_return.
  destruct (historical_data !! symbol) as [df|]; cbn [mbind option_bind]; [|reflexivity].
  destruct (in_index current_date df); cbn [mbind option_bind]; [|reflexivity].
  destruct (loc_close current_date df) as [p_now|]; cbn [mbind option_bind]; [|reflexivity].
  destruct (in_index prev_date df); cbn [mbind option_bind]; [|reflexivity].
  destruct (loc_close prev_date df) as [p_prev|]; cbn [mbind option_bind]; [|reflexivity].
  destruct (Qltb 0 p_prev); reflexivity.
Qed.

Lemma benchmark_symbol_no_reference historical_data current_date acc symbol :
  benchmark_symbol historical_data current_date None acc symbol = acc.
Proof.
  destruct acc as [total_return valid_symbols]. unfold benchmark_symbol.
  destruct (historical_data !! symbol) as [df|]; [|reflexivity].
  destruct (in_index current_date df); [|reflexivity].
  destruct (loc_close current_date df); reflexivity.
Qed.

(** The loop over the symbols: the sum and the number of the valid returns. *)
Lemma benchmark_loop historical_data current_date prev_date symbols :
  forall acc,
    let result := foldl (benchmark_symbol historical_data current_date (Some prev_date))
                        acc symbols in
    let returns := valid_returns historical_data prev_date current_date symbols in
    fst result == fst acc + Qsum returns /\
    snd result = (snd acc + Z.of_nat (length returns))%Z.
Proof.
  induction symbols as [|symbol symbols IH]; intros acc.
  - cbn. split; [ring | lia].
  - cbn [foldl]. cbv zeta in *.
    destruct (IH (benchmark_symbol historical_data current_date (Some prev_date) acc symbol))
      as [Hsum Hcount].
    rewrite Hsum, Hcount, benchmark_symbol_return.
    unfold valid_returns. cbn [omap list_omap].
    destruct (symbol_return historical_data prev_date current_date symbol) as [r|].
    + cbn [fst snd length Qsum foldr].
      fold (Qsum (omap (symbol_return historical_data prev_date current_date) symbols)).
      split; [ring | lia].
    + split; [reflexivity | reflexivity].
Qed.

Lemma benchmark_loop_no_reference historical_data current_date symbols acc :
  foldl (benchmark_symbol historical_data current_date None) acc symbols = acc.
Proof.
  induction symbols as [|symbol symbols IH] in acc |- *; [reflexivity|].
  cbn [foldl]. rewrite benchmark_symbol_no_reference. apply IH.
Qed.

(** A tick after the first: the benchmark advances by the mean of the valid
    returns, or is carried forward, and the reference timestamp moves to the
    tick in both cases. *)
Lemma calculate_benchmark_value_next (h : HistoricalSimulator) current_date
    historical_data prev_benchmark :
  last (benchmark_values h) = Some prev_benchmark ->
  exists v,
    _calculate_benchmark_value current_date historical_data h =
      (set_last_benchmark_date (Some current_date) h, inr v) /\
    v == advance_benchmark prev_benchmark
           (match last_benchmark_date h with
            | Some prev_date =>
                valid_returns historical_data prev_date current_date (h_symbols h)
            | None => []
            end).
Proof.
  intros Hlast. unfold _calculate_benchmark_value. run_method. rewrite Hlast.
  destruct (last_benchmark_date h) as [prev_date|] eqn:Hdate.
  - pose proof (benchmark_loop historical_data current_date prev_date (h_symbols h) (0, 0%Z))
      as Hloop. cbv zeta in Hloop. cbn [fst snd] in Hloop.
    destruct (foldl _ _ _) as [total_return valid_symbols].
    cbn [fst snd] in Hloop. destruct Hloop as [Hsum Hcount].
    destruct (valid_returns historical_data prev_date current_date (h_symbols h))
      as [|r rest].
    + cbn in Hcount. subst valid_symbols. cbn [Z.ltb Z.compare].
      eexists. split; reflexivity.
    + destruct (0 <? valid_symbols)%Z eqn:Hpos.
      * eexists. split; [reflexivity|].
        unfold advance_benchmark, mean. rewrite Hsum, Hcount, Z.add_0_l, Qplus_0_l.
        reflexivity.
      * exfalso. apply Z.ltb_ge in Hpos. rewrite Hcount in Hpos. cbn in Hpos. lia.
  - rewrite benchmark_loop_no_reference. cbn [Z.ltb Z.compare].
    eexists. split; reflexivity.
Qed.

(** The first tick: the benchmark is the initial capital and the tick
    becomes the reference. *)
Lemma calculate_benchmark_value_first (h : HistoricalSimulator) current_date historical_data :
  benchmark_values h = [] ->
  _calculate_benchmark_value current_date historical_data h =
    (set_last_benchmark_date (Some current_date) h, inr (initial_capital (h_engine h))).
Proof.
  intros Hnil. unfold _calculate_benchmark_value. run_method. rewrite Hnil. reflexivity.
Qed.

Lemma Qsum_zero (l : list Q) : Forall (fun r => r == 0) l -> Qsum l == 0.
Proof.
  induction 1 as [|r l Hr _ IH]; cbn [Qsum foldr]; [reflexivity|].
  fold (Qsum l). rewrite Hr, IH. ring.
Qed.

Lemma advance_benchmark_flat prev_benchmark (returns : list Q) :
  Forall (fun r => r == 0) returns -> advance_benchmark prev_benchmark returns == prev_benchmark.
Proof.
  intros Hall. destruct returns as [|r returns]; [reflexivity|].
  unfold advance_benchmark, mean. rewrite (Qsum_zero _ Hall).
  unfold Qdiv. ring.
Qed.

(** With constant prices every valid return is zero. *)
Lemma constant_prices_returns historical_data prev_date current_date symbols :
  constant_prices historical_data ->
  Forall (fun r => r == 0) (valid_returns historical_data prev_date current_date symbols).
Proof.
  intros Hconst. unfold valid_returns.
  induction symbols as [|symbol symbols IH]; cbn [omap list_omap]; [constructor|].
  destruct (symbol_return historical_data prev_date current_date symbol) as [r|] eqn:E;
    [|exact IH].
  constructor; [|exact IH].
  unfold symbol_return in E.
  destruct (historical_data !! symbol) as [df|] eqn:Hdf; cbn [mbind option_bind] in E;
    [|discriminate].
  destruct (in_index current_date df); cbn [mbind option_bind] in E; [|discriminate].
  destruct (loc_close current_date df) as [p_now|] eqn:Hnow; cbn [mbind option_bind] in E;
    [|discriminate].
  destruct (in_index prev_date df); cbn [mbind option_bind] in E; [|discriminate].
  destruct (loc_close prev_date df) as [p_prev|] eqn:Hprev; cbn [mbind option_bind] in E;
    [|discriminate].
  destruct (Qltb 0 p_prev) eqn:Hpos; [|discriminate].
  injection E as <-. apply Qltb_lt in Hpos.
  rewrite (Hconst symbol df current_date prev_date p_now p_prev Hdf Hnow Hprev).
  field. lra.
Qed.

(** One tick of the tracker under constant prices: the value appended is the
    initial capital, whatever the dates. *)
Lemma track_benchmark_constant (h : HistoricalSimulator) current_date historical_data :
  constant_prices historical_data ->
  Forall (fun v => v == initial_capital (h_engine h)) (benchmark_values h) ->
  exists h' v,
    track_benchmark current_date historical_data h = (h', inr v) /\
    benchmark_values h' = benchmark_values h ++ [v] /\
    h_engine h' = h_engine h /\
    v == initial_capital (h_engine h).
Proof.
  intros Hconst Hall. unfold track_benchmark. run_method.
  destruct (last (benchmark_values h)) as [prev|] eqn:Hlast.
  - destruct (calculate_benchmark_value_next h current_date historical_data prev Hlast)
      as (v & Hrun & Hv).
    rewrite Hrun. eexists. exists v. split; [reflexivity|].
    cbn [benchmark_values set_benchmark_values set_last_benchmark_date h_engine].
    split; [reflexivity|]. split; [reflexivity|].
    rewrite Hv.
    assert (Hprev : prev == initial_capital (h_engine h)).
    { apply last_Some_elem_of in Hlast. rewrite Forall_forall in Hall.
      apply Hall. exact Hlast. }
    rewrite <- Hprev. apply advance_benchmark_flat.
    destruct (last_benchmark_date h); [|constructor].
    apply constant_prices_returns. exact Hconst.
  - apply last_None in Hlast.
    rewrite (calculate_benchmark_value_first h current_date historical_data Hlast).
    eexists. eexists. split; [reflexivity|].
    cbn [benchmark_values set_benchmark_values set_last_benchmark_date h_engine].
    repeat split; reflexivity.
Qed.

Lemma benchmark_ticks_constant dates historical_data :
  constant_prices historical_data ->
  forall h : HistoricalSimulator,
    Forall (fun v => v == initial_capital (h_engine h)) (benchmark_values h) ->
    exists h',
      benchmark_ticks dates historical_data h = (h', inr tt) /\
      length (benchmark_values h') = (length (benchmark_values h) + length dates)%nat /\
      Forall (fun v => v == initial_capital (h_engine h)) (benchmark_values h').
Proof.
  intros Hconst. induction dates as [|d dates IH]; intros h Hall.
  - exists h. split; [reflexivity|]. split; [cbn; lia | exact Hall].
  - destruct (track_benchmark_constant h d historical_data Hconst Hall)
      as (h1 & v & Hstep & Hvalues & Hengine & Hv).
    destruct (IH h1) as (h2 & Hrun & Hlen & Hall2).
    { rewrite Hvalues, Hengine. apply Forall_app. split; [exact Hall|].
      constructor; [exact Hv | constructor]. }
    exists h2. split; [|split].
    + unfold benchmark_ticks in *. cbn [for_each]. run_method.
      rewrite Hstep. exact Hrun.
    + rewrite Hlen, Hvalues, length_app. cbn. lia.
    + rewrite Hengine in Hall2. exact Hall2.
Qed.

(** C6. On every tick after the first, [_calculate_benchmark_value] returns
    the previous benchmark value times one plus the arithmetic mean of the
    simple returns of exactly the symbols that have a price at the tick and
    at the reference timestamp (a positive one there), and the previous
    value unchanged when there is no such symbol.  Hence, when every symbol
    keeps one price, the tracker fed any ticks yields one value per tick,
    each equal to the initial capital. *)
Theorem benchmark_follows_mean_return :
  (forall (h : HistoricalSimulator) current_date historical_data prev_benchmark prev_date,
      last (benchmark_values h) = Some prev_benchmark ->
      last_benchmark_date h = Some prev_date ->
      exists v,
        _calculate_benchmark_value current_date historical_data h =
          (set_last_benchmark_date (Some current_date) h, inr v) /\
        v == advance_benchmark prev_benchmark
               (valid_returns historical_data prev_date current_date (h_symbols h))) /\
  (forall dates historical_data (h : HistoricalSimulator),
      benchmark_values h = [] ->
      constant_prices historical_data ->
      exists h',
        benchmark_ticks dates historical_data h = (h', inr tt) /\
        length (benchmark_values h') = length dates /\
        Forall (fun v => v == initial_capital (h_engine h)) (benchmark_values h')).
Proof.
  split.
  - intros h current_date historical_data prev prev_date Hlast Hdate.
    destruct (calculate_benchmark_value_next h current_date historical_data prev Hlast)
      as (v & Hrun & Hv).
    exists v. split; [exact Hrun|]. rewrite Hdate in Hv. exact Hv.
  - intros dates historical_data h Hnil Hconst.
    destruct (benchmark_ticks_constant dates historical_data Hconst h) as (h' & Hrun & Hlen & Hall).
    { rewrite Hnil. constructor. }
    exists h'. split; [exact Hrun|]. split; [|exact Hall].
    rewrite Hlen, Hnil. reflexivity.
Qed.

(** ** The scheduled-replay driver *)

(** The budget given by [run] is enough: a larger one changes nothing, so
    the loop is the [while] of the source. *)
Lemma run_loop_budget algorithm historical_data max_date :
  forall budget budget' current_date (h : HistoricalSimulator),
    ((current_date <= max_date)%Z -> (Z.to_nat (max_date - current_date) < budget)%nat) ->
    (budget <= budget')%nat ->
    run_loop algorithm historical_data max_date budget current_date h =
    run_loop algorithm historical_data max_date budget' current_date h.
Proof.
  induction budget as [|budget IH]; intros budget' current_date h Hlt Hle.
  { destruct budget'; cbn [run_loop];
      destruct (current_date <=? max_date)%Z eqn:Hgo; try reflexivity.
    apply Z.leb_le in Hgo. specialize (Hlt Hgo). lia. }
  destruct budget' as [|budget']; [lia|].
  cbn [run_loop]. destruct (current_date <=? max_date)%Z eqn:Hgo; [|reflexivity].
  apply Z.leb_le in Hgo. specialize (Hlt Hgo). run_method.
  destruct (_process_day algorithm current_date historical_data h) as [h1 [e|[]]];
    [reflexivity|].
  destruct (track_benchmark (current_date + hour) historical_data h1) as [h2 [e|v]];
    [reflexivity|].
  apply IH; unfold hour; lia.
Qed.

Lemma fetch_all_no_data (provider : string -> DataFrame) symbols :
  (forall symbol, symbol ∈ symbols -> provider symbol = []) ->
  fetch_all provider symbols = ∅.
Proof.
  unfold fetch_all. generalize (∅ : HistoricalData) as historical_data.
  induction symbols as [|symbol symbols IH]; intros historical_data Hnone; [reflexivity|].
  cbn [foldl]. rewrite (Hnone symbol) by (left). cbn [df_empty].
  apply IH. intros s Hs. apply Hnone. right. exact Hs.
Qed.

(** C7. In the replay of three hourly bars of BTC (100, 110, 99) by a
    strategy that is fully invested in BTC from the first tick, the entries
    of the history are stamped one hour after the tick that marked them, and
    their benchmark values are those of these later timestamps: the
    portfolio is marked 1000, 1100, 990 while the benchmark of the same
    single symbol is recorded as 1000, 900, 900; valued at the timestamps of
    the marks it is 1000, 1100, 990. *)
Theorem benchmark_is_valued_one_hour_late :
  let result := run btc_bars buy_once btc_replay in
  let history := h_portfolio_history (fst result) in
  snd result = inr tt /\
  snap_timestamp <$> history = [3600; 7200; 10800]%Z /\
  (fun s => Qred (snap_total_value s)) <$> history = [1000; 1100; 990] /\
  (fun s => Qred <$> snap_benchmark_value s) <$> history = [Some 1000; Some 900; Some 900] /\
  Qred <$> benchmark_values (fst result) = [1000; 900; 900] /\
  Qred <$> benchmark_values
             (fst (benchmark_ticks [0; 3600; 7200]%Z (fetch_all btc_bars ["BTC"])
                     (fst (reset_simulation btc_replay))))
    = [1000; 1100; 990].
Proof.
  cbv zeta. repeat split; vm_compute; reflexivity.
Qed.

(** An exception of the strategy leaves [_process_day] as it came: the tick
    does not recover from it. *)
Lemma process_day_propagates algorithm current_date historical_data
    (h : HistoricalSimulator) (e : exn) :
  (forall p, algorithm current_date historical_data p = inl e) ->
  snd (_process_day algorithm current_date historical_data h) = inl e \/
  snd (_process_day algorithm current_date historical_data h) = inl ZeroDivisionError.
Proof.
  intros Hraise. unfold _process_day, generate_signals. run_method.
  destruct (_update_portfolio_value _ (h_engine h)) as [e1 [x|[]]] eqn:Hmark.
  - right. cbn [snd].
    revert Hmark. unfold _update_portfolio_value. run_method. unfold py_div. run_method.
    repeat match goal with
           | |- context [if ?b then _ else _] => destruct b
           end; intros Hmark; inversion Hmark; reflexivity.
  - left. cbn [h_engine set_h_engine]. rewrite Hraise. reflexivity.
Qed.

(** The live driver recovers: [_generate_signals] never raises, and answers
    a raising strategy with no signals. *)
Lemma generate_signals_recovers algorithm timestamp (r : RealtimeSimulator) :
  exists signals,
    _generate_signals algorithm timestamp r = (r, inr signals) /\
    (forall e, algorithm timestamp (historical_data_cache r) (portfolio (r_engine r)) = inl e ->
       signals = []).
Proof.
  unfold _generate_signals, generate_signals. run_method.
  destruct (algorithm timestamp (historical_data_cache r) (portfolio (r_engine r)))
    as [e|signals] eqn:E.
  - exists []. split; [destruct r; reflexivity | reflexivity].
  - exists signals. split; [destruct r; reflexivity | discriminate].
Qed.

(** C8. A strategy that raises aborts the scheduled replay at its first
    tick: [run] ends with the exception of the strategy and an empty
    history, while the live driver, fed two updates with the same strategy,
    completes both ticks. *)
Theorem strategy_error_aborts_replay :
  let result := run btc_bars raising_strategy btc_replay in
  let live := realtime_run raising_strategy [(0%Z, btc_at 100); (1%Z, btc_at 110)] btc_live in
  snd result = inl (StrategyError "no signal") /\
  h_portfolio_history (fst result) = [] /\
  benchmark_values (fst result) = [] /\
  snd live = inr tt /\
  length (r_portfolio_history (fst live)) = 2%nat.
Proof.
  cbv zeta. repeat split; vm_compute; reflexivity.
Qed.



Lemma common_start_empty : common_start ∅ = None.
Proof. unfold common_start. apply map_fold_empty. Qed.

(** C9, as the code has it. When no requested symbol has any data, [run]
    raises before any tick.  When some symbols have data but the latest
    first timestamp is after the earliest last timestamp, [run] executes no
    tick and returns normally: no failure is reported.  In both cases the
    simulator is left as [reset_simulation] made it: fresh portfolio, no
    trade, no history entry. *)
Theorem run_without_common_range (provider : string -> DataFrame) (algorithm : Strategy)
    (h : HistoricalSimulator) :
  ((forall symbol, symbol ∈ h_symbols h -> provider symbol = []) ->
   run provider algorithm h = (fst (reset_simulation h), inl (ValueError no_data_message))) /\
  (forall min_date max_date,
     common_start (fetch_all provider (h_symbols h)) = Some min_date ->
     common_end (fetch_all provider (h_symbols h)) = Some max_date ->
     (max_date < min_date)%Z ->
     run provider algorithm h = (fst (reset_simulation h), inr tt)) /\
  h_portfolio_history (fst (reset_simulation h)) = [] /\
  trades (h_engine (fst (reset_simulation h))) = [] /\
  portfolio (h_engine (fst (reset_simulation h))) =
    new_portfolio (initial_capital (h_engine h)).
Proof.
  split; [|split; [|repeat split]].
  - intros Hnone. unfold run, reset_simulation. run_method. cbn [h_symbols].
    rewrite (fetch_all_no_data provider (h_symbols h) Hnone).
    rewrite bool_decide_eq_true_2 by reflexivity. reflexivity.
  - intros min_date max_date Hstart Hend Hlt. unfold run, reset_simulation. run_method.
    cbn [h_symbols]. rewrite Hstart, Hend.
    rewrite bool_decide_eq_false_2.
    + cbn [run_loop]. apply Z.leb_gt in Hlt. rewrite Hlt. reflexivity.
    + intros Hempty. rewrite Hempty, common_start_empty in Hstart. discriminate.
Qed.

(** C9, as stated, fails: BTC with bars at hours 0 and 1 and ETH with bars at
    hours 2 and 3 have no common timestamp, and [run] returns normally. *)
Lemma no_overlap_is_not_reported :
  ~ (forall (provider : string -> DataFrame) (algorithm : Strategy) (h : HistoricalSimulator),
       ~ overlapping provider (h_symbols h) ->
       exists h' e, run provider algorithm h = (h', inl e)).
Proof.
  intros H.
  destruct (H disjoint_bars buy_once two_symbol_replay) as (h' & e & Hrun).
  - intros [t Ht].
    destruct (Ht "BTC") as (lo1 & hi1 & Hlo1 & Hhi1 & Hr1); [left|].
    destruct (Ht "ETH") as (lo2 & hi2 & Hlo2 & Hhi2 & Hr2); [right; left|].
    vm_compute in Hlo1, Hhi1, Hlo2, Hhi2.
    injection Hhi1 as <-. injection Hlo2 as <-. lia.
  - vm_compute in Hrun. discriminate.
Qed.

(** ** The performance report *)

Lemma safe_float_finite (value : float) : is_finite (Report.safe_float value) = true.
Proof.
  unfold Report.safe_float, is_finite.
  destruct (is_nan value || is_infinity value) eqn:E.
  - reflexivity.
  - rewrite E. reflexivity.
Qed.

(** The six metrics that [get_performance_metrics] of the replay driver
    passes through [safe_float] are finite. *)
Lemma historical_metrics_finite initial final portfolio_values benchmark_values sides
    max_dd m a :
  Report.historical_metrics initial final portfolio_values benchmark_values sides max_dd
    = inr (Some (m, a)) ->
  is_finite (Report.total_return m) = true /\
  is_finite (Report.daily_return m) = true /\
  is_finite (Report.sharpe_ratio m) = true /\
  is_finite (Report.max_drawdown m) = true /\
  is_finite (Report.win_rate m) = true /\
  is_finite (Report.volatility m) = true.
Proof.
  unfold Report.historical_metrics.
  destruct portfolio_values as [|v0 rest]; [discriminate|].
  destruct (Report.py_fdiv _ _) as [e|total]; [discriminate|].
  set (stats := if (1 <? _)%nat then _ else _).
  destruct stats as [[avg vol] sharpe].
  intros H. injection H as <- _.
  cbn [Report.total_return Report.daily_return Report.sharpe_ratio Report.max_drawdown
         Report.win_rate Report.volatility].
  repeat split; apply safe_float_finite.
Qed.

(** C4. The live driver reports its metrics as computed.  With capital 100
    spent on BTC at 10 and the price then reported as 0 twice, the history of
    values is 100, 0, 0; the per-tick returns are -1 and 0/0, and the report
    carries NaN as daily return and as volatility. *)
Theorem live_report_is_not_finite :
  let live := realtime_run buy_once outage_feed small_live in
  snd live = inr tt /\
  (fun s => Qred (snap_total_value s)) <$> r_portfolio_history (fst live) = [100; 0; 0] /\
  Qred (total_value (portfolio (r_engine (fst live)))) = 0 /\
  Qred (max_drawdown (r_engine (fst live))) = 1 /\
  trade_side <$> trades (r_engine (fst live)) = ["buy"] /\
  exists m,
    Report.realtime_metrics 100%float 0%float [100; 0; 0]%float ["buy"] 1%float
      = inr (Some m) /\
    is_nan (Report.daily_return m) = true /\
    is_nan (Report.volatility m) = true /\
    is_finite (Report.daily_return m) = false.
Proof.
  cbv zeta.
  split; [vm_compute; reflexivity|]. split; [vm_compute; reflexivity|].
  split; [vm_compute; reflexivity|]. split; [vm_compute; reflexivity|].
  split; [vm_compute; reflexivity|].
  eexists. split; [vm_compute; reflexivity|].
  repeat split; vm_compute; reflexivity.
Qed.

(** The guards of the two ratios hold as the specification says: a zero denominator
    gives a ratio of exactly zero. *)
Lemma float_zero_not_positive (x : float) :
  (x =? 0)%float = true -> (0 <? x)%float = false.
Proof.
  rewrite FloatAxioms.eqb_spec, FloatAxioms.ltb_spec.
  replace (Prim2SF 0%float) with (S754_zero false) by reflexivity.
  destruct (Prim2SF x) as [s|s| |s m e]; cbn; try reflexivity; try discriminate.
  all: destruct s; discriminate.
Qed.

Lemma live_sharpe_ratio_guard initial final portfolio_values sides max_dd m :
  Report.realtime_metrics initial final portfolio_values sides max_dd = inr (Some m) ->
  (Report.volatility m =? 0)%float = true ->
  Report.sharpe_ratio m = 0%float.
Proof.
  unfold Report.realtime_metrics.
  destruct portfolio_values as [|v0 rest]; [discriminate|].
  destruct (Report.py_fdiv _ _) as [e|total]; [discriminate|].
  destruct (1 <? length (v0 :: rest))%nat.
  - intros H. injection H as <-. cbn [Report.volatility Report.sharpe_ratio].
    intros Hzero. rewrite (float_zero_not_positive _ Hzero). reflexivity.
  - intros H. injection H as <-. reflexivity.
Qed.

Lemma information_ratio_guard portfolio_values benchmark_values :
  let a := Report._calculate_alpha_metrics portfolio_values benchmark_values in
  (Report.tracking_error a =? 0)%float = true ->
  Report.information_ratio a = 0%float.
Proof.
  unfold Report._calculate_alpha_metrics. cbv zeta.
  repeat match goal with
         | |- context [if ?b then Report.zero_alpha else _] => destruct b; [reflexivity|]
         | |- context [match ?o with Some _ => _ | None => Report.zero_alpha end] =>
             destruct o; [|reflexivity]
         | |- context [match ?o with inl _ => Report.zero_alpha | inr _ => _ end] =>
             destruct o; [reflexivity|]
         | |- context [match ?o with inl _ => _ | inr _ => _ end] =>
             destruct o; try reflexivity
         end.
  cbn [Report.tracking_error Report.information_ratio].
  intros Hzero. rewrite (float_zero_not_positive _ Hzero). reflexivity.
Qed.

(** The report of the replay driver does not coerce the metrics of
    [_calculate_alpha_metrics]: once a missing close (NaN) has entered the
    benchmark history, the benchmark return and the excess return are
    reported as NaN. *)
Lemma replay_report_carries_nan :
  exists m a,
    Report.historical_metrics 1000%float 1000%float
      [1000; 1000; 1000; 1000; 1000]%float [1000; 900; 900; nan; nan]%float [] 0%float
      = inr (Some (m, a)) /\
    is_nan (Report.benchmark_return a) = true /\
    is_nan (Report.excess_return a) = true.
Proof.
  eexists. eexists. split; [vm_compute; reflexivity|].
  split; vm_compute; reflexivity.
Qed.

(** ** The drawdown of a replay, from its recorded history *)

(** The executions of one tick of the replay driver. *)
Lemma replay_executions_reach name capital values (current_prices : gmap string Q)
    current_date signals :
  forall h : HistoricalSimulator,
    reaches name capital values (h_engine h) ->
    let h' := fst (for_each signals (fun '(symbol, signal) =>
                     match current_prices !! symbol with
                     | Some price => h_zoom (_execute_trade symbol signal price current_date)
                     | None => mret tt
                     end) h) in
    reaches name capital values (h_engine h') /\
    total_value (portfolio (h_engine h')) = total_value (portfolio (h_engine h)) /\
    h_portfolio_history h' = h_portfolio_history h.
Proof.
  unfold h_zoom, zoom.
  induction signals as [|[symbol signal] signals IH]; intros h Hrun.
  - cbn. repeat split. exact Hrun.
  - cbn [for_each]. cbv beta iota delta [mbind M_bind].
    destruct (current_prices !! symbol) as [price|].
    + pose proof (reaches_execute name capital values (h_engine h)
                    (mkOrder symbol signal price current_date) Hrun) as Hstep.
      pose proof (execute_trade_frame symbol signal price current_date (h_engine h))
        as (_ & _ & Hvalue & _).
      unfold execute in Hstep. cbn [order_symbol order_signal order_price order_timestamp]
        in Hstep.
      destruct (_execute_trade symbol signal price current_date (h_engine h))
        as [e' [x|[]]]; cbn [fst] in *.
      * repeat split; [exact Hstep | exact Hvalue].
      * destruct (IH (set_h_engine e' h) Hstep) as (Hreach & Htotal & Hhistory).
        cbv zeta. repeat split.
        -- exact Hreach.
        -- rewrite Htotal. exact Hvalue.
        -- rewrite Hhistory. reflexivity.
    + cbv beta iota delta [mret M_ret]. exact (IH h Hrun).
Qed.

(** One tick of the replay driver marks one value and stays on a run. *)
Lemma process_day_reaches name capital values algorithm current_date historical_data
    (h h1 : HistoricalSimulator) :
  0 < capital -> reaches name capital values (h_engine h) ->
  _process_day algorithm current_date historical_data h = (h1, inr tt) ->
  reaches name capital (values ++ [total_value (portfolio (h_engine h1))]) (h_engine h1) /\
  h_portfolio_history h1 = h_portfolio_history h.
Proof.
  intros Hc Hrun. unfold _process_day, generate_signals. run_method.
  destruct (reaches_update_returns name capital values (h_engine h)
              (prices_at current_date historical_data) Hc Hrun) as (e1 & Hmark).
  rewrite Hmark. cbn [h_engine set_h_engine].
  destruct (algorithm current_date historical_data (portfolio e1)) as [x|signals];
    [discriminate|].
  pose proof (reaches_mark name capital values (h_engine h) _ e1 Hrun Hmark) as Hrun1.
  pose proof (replay_executions_reach name capital _ (prices_at current_date historical_data)
                current_date signals (set_h_engine e1 h) Hrun1) as Hexec.
  cbv zeta in Hexec. unfold h_zoom, zoom in Hexec. run_method.
  cbn [h_engine set_h_engine h_symbols h_portfolio_history benchmark_values
         last_benchmark_date] in Hexec |- *.
  destruct (for_each signals _ _) as [h2 r]. cbn [fst] in Hexec.
  intros Heq. injection Heq as -> _.
  destruct Hexec as (Hreach & Htotal & Hhistory).
  rewrite Htotal. split; [exact Hreach | exact Hhistory].
Qed.

Lemma track_benchmark_frame current_date historical_data (h : HistoricalSimulator) :
  let h' := fst (track_benchmark current_date historical_data h) in
  h_engine h' = h_engine h /\ h_portfolio_history h' = h_portfolio_history h.
Proof.
  unfold track_benchmark, _calculate_benchmark_value. run_method.
  destruct (last (benchmark_values h)); [|split; reflexivity].
  destruct (foldl _ _ _) as [total_return valid_symbols].
  run_method. destruct (0 <? valid_symbols)%Z; split; reflexivity.
Qed.

Lemma run_loop_reaches name capital algorithm historical_data max_date :
  0 < capital ->
  forall budget current_date (h h' : HistoricalSimulator),
    reaches name capital (snap_total_value <$> h_portfolio_history h) (h_engine h) ->
    run_loop algorithm historical_data max_date budget current_date h = (h', inr tt) ->
    reaches name capital (snap_total_value <$> h_portfolio_history h') (h_engine h').
Proof.
  intros Hc. induction budget as [|budget IH]; intros current_date h h' Hrun;
    cbn [run_loop]; destruct (current_date <=? max_date)%Z;
    try discriminate; try (intros Heq; injection Heq as <-; exact Hrun).
  run_method.
  destruct (_process_day algorithm current_date historical_data h) as [h1 [x|[]]] eqn:Hday;
    [discriminate|].
  destruct (process_day_reaches name capital _ algorithm current_date historical_data
              h h1 Hc Hrun Hday) as (Hrun1 & Hhistory1).
  pose proof (track_benchmark_frame (current_date + hour) historical_data h1) as Hframe.
  destruct (track_benchmark (current_date + hour) historical_data h1) as [h2 [x|v]];
    [discriminate|].
  cbv zeta in Hframe. cbn [fst] in Hframe. destruct Hframe as (Hengine & Hhistory2).
  cbn [h_engine set_h_engine]. apply IH.
  cbn [h_engine h_portfolio_history set_h_portfolio_history].
  rewrite fmap_app. cbn [fmap list_fmap snap_total_value].
  unfold set_h_engine. cbn [h_engine h_portfolio_history].
  rewrite Hhistory2, Hhistory1, Hengine. exact Hrun1.
Qed.

(** The worst drawdown at the end of a replay that returns, with capital
    [> 0] and at least one tick, is the maximum drawdown of the values
    recorded in its history. *)
Lemma replay_max_drawdown provider algorithm (h h' : HistoricalSimulator) :
  0 < initial_capital (h_engine h) ->
  run provider algorithm h = (h', inr tt) ->
  h_portfolio_history h' <> [] ->
  is_max_drawdown (initial_capital (h_engine h))
    (snap_total_value <$> h_portfolio_history h') (max_drawdown (h_engine h')).
Proof.
  intros Hc. unfold run, reset_simulation. run_method. cbn [h_symbols].
  destruct (bool_decide (fetch_all provider (h_symbols h) = ∅)); [discriminate|].
  destruct (common_start _) as [min_date|]; [|discriminate].
  destruct (common_end _) as [max_date|]; [|discriminate].
  destruct (run_loop _ _ _ _ _ _) as [h2 [x|[]]] eqn:Hloop; [discriminate|].
  intros Heq Hne. injection Heq as <-.
  apply run_loop_reaches with (name := algorithm_name (h_engine h))
                              (capital := initial_capital (h_engine h)) in Hloop.
  - destruct (reaches_invariant _ _ _ _ Hc Hloop) as (_ & _ & Hall & Hsome).
    split; [|exact Hall].
    destruct Hsome as [[Hnil _]|Hex]; [|exact Hex].
    exfalso. apply Hne. destruct (h_portfolio_history h2); [reflexivity | discriminate].
  - exact Hc.
  - cbn. apply reaches_new.
Qed.

(** ** The scenarios of the specification *)

Example scenario_after_first_tick :
  let r := fst (realtime_run scenario_strategy (take 1 scenario_feed) scenario_live) in
  Qred (cash (portfolio (r_engine r))) = 5000 /\
  Qred <$> positions (portfolio (r_engine r)) !! "BTC" = Some 50.
Proof. split; vm_compute; reflexivity. Qed.

Example scenario_value_at_third_tick :
  let r := fst (realtime_run scenario_strategy (take 3 scenario_feed) scenario_live) in
  Qred (total_value (portfolio (r_engine r))) = 10500.
Proof. vm_compute. reflexivity. Qed.

Example scenario_drawdown_after_fourth_tick :
  let r := fst (realtime_run scenario_strategy (take 4 scenario_feed) scenario_live) in
  max_drawdown (r_engine r) == (10500 - 9500) / 10500.
Proof. vm_compute. reflexivity. Qed.

Example scenario_opposite_returns :
  let h := fst (track_benchmark 0 opposite_bars
                  (new_historical strategy_name 1000 ["BTC"; "ETH"])) in
  Qred <$> benchmark_values (fst (track_benchmark 3600 opposite_bars h)) = [1000; 1000].
Proof. vm_compute. reflexivity. Qed.

(** ** The theorems at sample runs *)

Lemma sample_orders_positive : Forall (fun o => 0 < order_price o) sample_orders.
Proof. repeat (constructor; [reflexivity|]). constructor. Defined.


Lemma positions_never_negative_witness :
  exists e', execute_all (take 3 sample_orders) (new_engine strategy_name 100) = (e', inr tt) /\
             positions_nonneg e'.
Proof.
  apply (proj1 positions_never_negative).
  - vm_compute. discriminate.
  - intros symbol q Hq. cbn in Hq. rewrite lookup_empty in Hq. discriminate.
  - exact sample_orders_positive.
Defined.

Lemma valuation_counts_priced_positions_only_witness :
  total_value (portfolio (fst (_update_portfolio_value (btc_at 100) invested_engine))) ==
    cash (portfolio invested_engine) +
    Qsum (priced_contributions (btc_at 100)
            (set_positions (delete "ETH" (positions (portfolio invested_engine)))
               (portfolio invested_engine))).
Proof.
  apply (proj2 (valuation_counts_priced_positions_only (btc_at 100) invested_engine) "ETH").
  vm_compute. reflexivity.
Defined.

Lemma max_drawdown_is_running_maximum_witness :
  let e := fst (_update_portfolio_value (btc_at 50) invested_engine) in
  is_max_drawdown 150 ([] ++ [total_value (portfolio e)]) (max_drawdown e).
Proof.
  intros e.
  refine (proj1 (max_drawdown_is_running_maximum strategy_name 150
                   ([] ++ [total_value (portfolio e)]) e _ _) _).
  - reflexivity.
  - apply (reaches_mark strategy_name 150 [] invested_engine (btc_at 50) e).
    + apply (reaches_execute strategy_name 150 []
               (new_engine strategy_name 150)
               (mkOrder "BTC" (mkSignal "buy" 1) 100 0)).
      apply reaches_new.
    + vm_compute. reflexivity.
  - discriminate.
Defined.

Lemma benchmark_follows_mean_return_witness :
  let historical_data := fetch_all btc_bars ["BTC"] in
  let h := fst (track_benchmark 0 historical_data btc_replay) in
  exists v,
    _calculate_benchmark_value 3600 historical_data h =
      (set_last_benchmark_date (Some 3600%Z) h, inr v) /\
    v == advance_benchmark 1000 (valid_returns historical_data 0 3600 (h_symbols h)).
Proof.
  intros historical_data h.
  apply (proj1 benchmark_follows_mean_return h 3600%Z historical_data 1000 0%Z).
  - vm_compute. reflexivity.
  - vm_compute. reflexivity.
Defined.

Lemma run_without_common_range_witness :
  run disjoint_bars buy_once two_symbol_replay =
    (fst (reset_simulation two_symbol_replay), inr tt).
Proof.
  apply (proj1 (proj2 (run_without_common_range disjoint_bars buy_once two_symbol_replay))
           7200%Z 3600%Z).
  - vm_compute. reflexivity.
  - vm_compute. reflexivity.
  - reflexivity.
Defined.

(** * Part III: further properties of the code *)

(** ** The ledger *)

(** Whatever the signal, the price and the outcome, [_execute_trade] leaves
    the ledger as it is or appends one record of the fill. *)
Lemma execute_trade_ledger symbol signal price timestamp (e : Engine) :
  let e' := fst (_execute_trade symbol signal price timestamp e) in
  trades e' = trades e \/
  exists side q,
    trades e' = trades e ++ [mkTrade timestamp symbol side q price (q * price)
                               (algorithm_name e)] /\
    (side = "buy" \/ side = "sell").
Proof.
  unfold _execute_trade.
  destruct (String.eqb (action signal) "buy" && Qltb 0 (quantity signal)).
  - run_method. unfold py_div. destruct (Qeq_bool price 0); run_method.
    + left. reflexivity.
    + destruct (Qle_bool _ _); cbn [fst]; [|left; reflexivity].
      right. eexists. eexists. split; [reflexivity | left; reflexivity].
  - destruct (String.eqb (action signal) "sell" && Qltb 0 (quantity signal));
      [|left; reflexivity].
    run_method. destruct (Qltb 0 _); [|left; reflexivity].
    destruct (positions (portfolio e) !! symbol); run_method; cbn [fst].
    + right. eexists. eexists. split; [reflexivity | right; reflexivity].
    + left. reflexivity.
Qed.

(** X1. The ledger is append-only: whatever the signals, their prices and
    the outcome (an exception included), the ledger after a sequence of
    executions is the ledger before followed by at most one new record per
    signal; each new record has value = quantity * price, side buy or sell,
    and carries the name of the algorithm. *)
Theorem ledger_is_append_only orders (e : Engine) :
  exists new,
    trades (fst (execute_all orders e)) = trades e ++ new /\
    (length new <= length orders)%nat /\
    Forall trade_consistent new /\
    Forall (fun t => trade_algorithm t = algorithm_name e) new.
Proof.
  revert e. induction orders as [|o orders IH]; intros e.
  - exists []. cbn. rewrite app_nil_r. repeat split; constructor.
  - rewrite execute_all_cons.
    pose proof (execute_trade_ledger (order_symbol o) (order_signal o) (order_price o)
                  (order_timestamp o) e) as Hstep.
    pose proof (execute_trade_frame (order_symbol o) (order_signal o) (order_price o)
                  (order_timestamp o) e) as (_ & _ & _ & _ & Hname).
    unfold execute. cbv zeta in Hstep.
    destruct (_execute_trade (order_symbol o) (order_signal o) (order_price o)
                (order_timestamp o) e) as [e1 [x|[]]]; cbn [fst] in *.
    + destruct Hstep as [Hsame|(side & q & Hadd & Hside)].
      * exists []. rewrite Hsame, app_nil_r. cbn. repeat split; try constructor. lia.
      * eexists. split; [exact Hadd|]. cbn [length]. split; [lia|].
        split; (constructor; [|constructor]); [|reflexivity].
        split; [reflexivity | exact Hside].
    + destruct (IH e1) as (new & Hnew & Hlen & Hcons & Halg).
      rewrite Hname in Halg.
      destruct Hstep as [Hsame|(side & q & Hadd & Hside)].
      * exists new. rewrite Hnew, Hsame. repeat split; try assumption. cbn. lia.
      * eexists. rewrite Hnew, Hadd, <- app_assoc. split; [reflexivity|].
        cbn [app length]. split; [lia|].
        split; constructor; try assumption; try reflexivity.
        split; [reflexivity | exact Hside].
Qed.

(** One execution at a positive price, from non-negative cash and
    positions: it returns, keeps both non-negative, and what it appends is a
    fill of a non-negative quantity, positive for a sell. *)
Lemma execute_trade_fill symbol signal price timestamp (e : Engine) :
  0 < price -> cash_nonneg e -> positions_nonneg e ->
  exists e' new,
    _execute_trade symbol signal price timestamp e = (e', inr tt) /\
    cash_nonneg e' /\ positions_nonneg e' /\
    trades e' = trades e ++ new /\
    Forall (fun t => 0 <= trade_quantity t /\ 0 <= trade_value t /\
                     trade_quantity t <= quantity signal /\
                     (trade_side t = "sell" -> 0 < trade_quantity t)) new.
Proof.
  intros Hp Hc Hpos.
  destruct (execute_trade_cash symbol signal price timestamp e Hp Hc) as (e1 & H1 & Hc1).
  destruct (execute_trade_positions symbol signal price timestamp e Hp Hc Hpos)
    as (e2 & H2 & Hp2).
  rewrite H1 in H2. injection H2 as <-.
  exists e1. unfold cash_nonneg in Hc.
  destruct (signal_cases signal) as [[Ha Hq] | [[Ha Hq] | Hno]].
  - destruct (execute_trade_buy symbol signal price timestamp e Ha Hq Hp)
      as (e' & He & _ & _ & _ & Htrades & _).
    rewrite H1 in He. injection He as <-.
    eexists. repeat split; try eassumption.
    constructor; [|constructor]. cbn [trade_quantity trade_value trade_side].
    assert (Hq0 : 0 <= Qmin (quantity signal) (cash (portfolio e) / price)).
    { apply Q.min_glb; [lra|]. apply Qle_shift_div_l; lra. }
    repeat split.
    + exact Hq0.
    + apply Qmult_le_0_compat; lra.
    + apply Q.le_min_l.
    + discriminate.
  - destruct (Qlt_le_dec 0 (Qmin (quantity signal) (held e symbol))) as [Hgt|Hle].
    + destruct (execute_trade_sell symbol signal price timestamp e Ha Hq Hgt)
        as (e' & He & _ & _ & _ & Htrades & _).
      rewrite H1 in He. injection He as <-.
      eexists. repeat split; try eassumption.
      constructor; [|constructor]. cbn [trade_quantity trade_value trade_side].
      repeat split.
      * lra.
      * apply Qmult_le_0_compat; lra.
      * apply Q.le_min_l.
      * intros _. exact Hgt.
    + pose proof (execute_trade_sell_nothing symbol signal price timestamp e Ha Hle) as He.
      rewrite H1 in He. injection He as ->. exists []. rewrite app_nil_r.
      split; [exact H1|]. repeat split; try assumption. constructor.
  - pose proof (execute_trade_ignored symbol signal price timestamp e Hno) as He.
    rewrite H1 in He. injection He as ->. exists []. rewrite app_nil_r.
    split; [exact H1|]. repeat split; try assumption. constructor.
Qed.

(** X2. From non-negative cash and positions and at positive prices, every
    record that a sequence of executions appends to the ledger has a
    non-negative quantity and value, and a sell record has a positive
    quantity: nothing is ever sold short or recorded with a negative size. *)
Theorem fills_are_nonnegative orders (e : Engine) :
  cash_nonneg e -> positions_nonneg e ->
  Forall (fun o => 0 < order_price o) orders ->
  exists e' new,
    execute_all orders e = (e', inr tt) /\
    trades e' = trades e ++ new /\
    Forall (fun t => 0 <= trade_quantity t /\ 0 <= trade_value t /\
                     (trade_side t = "sell" -> 0 < trade_quantity t)) new.
Proof.
  intros Hc Hpos Hall.
  destruct (execute_all_preserves
              (fun e' => cash_nonneg e' /\ positions_nonneg e' /\
                 exists new, trades e' = trades e ++ new /\
                   Forall (fun t => 0 <= trade_quantity t /\ 0 <= trade_value t /\
                              (trade_side t = "sell" -> 0 < trade_quantity t)) new))
    with (orders := orders) (e := e) as (e' & Hrun & _ & _ & new & Hnew & Hok).
  - intros o e0 Ho (Hc0 & Hp0 & new0 & Hnew0 & Hok0).
    destruct (execute_trade_fill (order_symbol o) (order_signal o) (order_price o)
                (order_timestamp o) e0 Ho Hc0 Hp0)
      as (e1 & new1 & Hstep & Hc1 & Hp1 & Htr & Hok1).
    exists e1. split; [exact Hstep|]. split; [exact Hc1|]. split; [exact Hp1|].
    exists (new0 ++ new1). rewrite Htr, Hnew0, app_assoc. split; [reflexivity|].
    apply Forall_app. split; [exact Hok0|].
    eapply Forall_impl; [exact Hok1|]. cbv beta. intros t (H0 & H1 & _ & H3).
    repeat split; assumption.
  - exact Hall.
  - split; [exact Hc|]. split; [exact Hpos|]. exists []. rewrite app_nil_r.
    split; [reflexivity | constructor].
  - exists e', new. repeat split; assumption.
Qed.

Lemma fills_are_nonnegative_witness :
  exists e' new,
    execute_all sample_orders (new_engine strategy_name 100) = (e', inr tt) /\
    trades e' = trades (new_engine strategy_name 100) ++ new /\
    Forall (fun t => 0 <= trade_quantity t /\ 0 <= trade_value t /\
                     (trade_side t = "sell" -> 0 < trade_quantity t)) new.
Proof.
  apply fills_are_nonnegative.
  - vm_compute. discriminate.
  - intros symbol q Hq. cbn in Hq. rewrite lookup_empty in Hq. discriminate.
  - exact sample_orders_positive.
Defined.

(** ** The executions of one tick, in either driver *)

Section ZoomedExecutions.

Context {T : Type} (proj : T -> Engine) (upd : Engine -> T -> T).
Hypothesis proj_upd : forall e t, proj (upd e t) = e.
Hypothesis upd_upd : forall e e' t, upd e' (upd e t) = upd e' t.
Hypothesis upd_proj : forall t, upd (proj t) t = t.
Variable prices : gmap string Q.
Variable timestamp : Z.

(** A relation between engines that every fill at a price of the tick
    respects is respected by the loop over the signals, whatever its
    outcome; the loop touches nothing but the engine. *)
Lemma zoomed_executions_related (R : Engine -> Engine -> Prop) :
  (forall e, R e e) ->
  (forall e1 e2 e3, R e1 e2 -> R e2 e3 -> R e1 e3) ->
  (forall symbol signal price e,
     prices !! symbol = Some price ->
     R e (fst (_execute_trade symbol signal price timestamp e))) ->
  forall (signals : list (string * Signal)) (t : T),
    exists e',
      fst (for_each signals (fun '(symbol, signal) =>
             match prices !! symbol with
             | Some price => zoom proj upd (_execute_trade symbol signal price timestamp)
             | None => mret tt
             end) t) = upd e' t /\
      R (proj t) e'.
Proof.
  intros Hrefl Htrans Hstep. unfold zoom.
  induction signals as [|[symbol signal] signals IH]; intros t.
  - exists (proj t). cbn. rewrite upd_proj. split; [reflexivity | apply Hrefl].
  - cbn [for_each]. cbv beta iota delta [mbind M_bind].
    destruct (prices !! symbol) as [price|] eqn:Hprice.
    + pose proof (Hstep symbol signal price (proj t) Hprice) as Hone.
      destruct (_execute_trade symbol signal price timestamp (proj t)) as [e1 [x|[]]];
        cbn [fst] in *.
      * exists e1. split; [reflexivity | exact Hone].
      * destruct (IH (upd e1 t)) as (e2 & Heq & Hrel).
        exists e2. rewrite Heq, upd_upd. split; [reflexivity|].
        rewrite proj_upd in Hrel. eapply Htrans; eassumption.
    + cbv beta iota delta [mret M_ret]. apply IH.
Qed.

(** An invariant under which every fill at a price of the tick returns is
    kept by the loop, which then returns. *)
Lemma zoomed_executions_return (I : Engine -> Prop) :
  (forall symbol signal price e,
     prices !! symbol = Some price -> I e ->
     exists e', _execute_trade symbol signal price timestamp e = (e', inr tt) /\ I e') ->
  forall (signals : list (string * Signal)) (t : T),
    I (proj t) ->
    exists e',
      for_each signals (fun '(symbol, signal) =>
        match prices !! symbol with
        | Some price => zoom proj upd (_execute_trade symbol signal price timestamp)
        | None => mret tt
        end) t = (upd e' t, inr tt) /\
      I e'.
Proof.
  intros Hstep. unfold zoom.
  induction signals as [|[symbol signal] signals IH]; intros t Ht.
  - exists (proj t). cbn. rewrite upd_proj. split; [reflexivity | exact Ht].
  - cbn [for_each]. cbv beta iota delta [mbind M_bind].
    destruct (prices !! symbol) as [price|] eqn:Hprice.
    + destruct (Hstep symbol signal price (proj t) Hprice Ht) as (e1 & Hone & He1).
      rewrite Hone.
      destruct (IH (upd e1 t)) as (e2 & Heq & He2); [rewrite proj_upd; exact He1|].
      exists e2. rewrite Heq, upd_upd. split; [reflexivity | exact He2].
    + cbv beta iota delta [mret M_ret]. apply IH. exact Ht.
Qed.

End ZoomedExecutions.

Lemma r_engine_set (e : Engine) (r : RealtimeSimulator) : r_engine (set_r_engine e r) = e.
Proof. reflexivity. Qed.

Lemma set_r_engine_set (e e' : Engine) (r : RealtimeSimulator) :
  set_r_engine e' (set_r_engine e r) = set_r_engine e' r.
Proof. reflexivity. Qed.

Lemma set_r_engine_id (r : RealtimeSimulator) : set_r_engine (r_engine r) r = r.
Proof. destruct r. reflexivity. Qed.

Lemma h_engine_set (e : Engine) (h : HistoricalSimulator) : h_engine (set_h_engine e h) = e.
Proof. reflexivity. Qed.

Lemma set_h_engine_set (e e' : Engine) (h : HistoricalSimulator) :
  set_h_engine e' (set_h_engine e h) = set_h_engine e' h.
Proof. reflexivity. Qed.

Lemma set_h_engine_id (h : HistoricalSimulator) : set_h_engine (h_engine h) h = h.
Proof. destruct h. reflexivity. Qed.

(** ** Fills conserve value *)

Lemma priced_contributions_insert (prices : gmap string Q) (p : Portfolio) symbol price v :
  prices !! symbol = Some price ->
  Qsum (priced_contributions prices (set_positions (<[symbol := v]> (positions p)) p)) ==
  Qsum (priced_contributions prices (set_positions (delete symbol (positions p)) p))
  + v * price.
Proof.
  intros Hprice. unfold priced_contributions. cbn [positions set_positions].
  rewrite <- (insert_delete_eq (positions p)).
  rewrite (Qsum_Permutation _ _
             (omap_Permutation _ _ _
                (map_to_list_insert (delete symbol (positions p)) symbol v
                   (lookup_delete_eq _ _)))).
  cbn [omap list_omap]. rewrite Hprice. cbn [fmap option_fmap option_map].
  unfold Qsum. cbn [foldr]. set (rest := foldr Qplus 0 _). ring.
Qed.

Lemma priced_contributions_held (prices : gmap string Q) (p : Portfolio) symbol price :
  prices !! symbol = Some price ->
  Qsum (priced_contributions prices p) ==
  Qsum (priced_contributions prices (set_positions (delete symbol (positions p)) p))
  + default 0 (positions p !! symbol) * price.
Proof.
  intros Hprice. destruct (positions p !! symbol) as [h|] eqn:E; cbn [default].
  - rewrite <- (priced_contributions_insert prices p symbol price h Hprice).
    rewrite insert_id by exact E. destruct p; reflexivity.
  - unfold priced_contributions. cbn [positions set_positions].
    rewrite delete_id by exact E. set (rest := Qsum _). ring.
Qed.

(** What a fill exchanges: either the portfolio is as before, or the
    position of the symbol is replaced and the cash moves by the value of
    the difference at the fill price. *)
Lemma execute_trade_exchange symbol signal price timestamp (e : Engine) :
  let e' := fst (_execute_trade symbol signal price timestamp e) in
  portfolio e' = portfolio e \/
  exists v,
    positions (portfolio e') = <[symbol := v]> (positions (portfolio e)) /\
    cash (portfolio e') + v * price == cash (portfolio e) + held e symbol * price.
Proof.
  unfold _execute_trade, held.
  destruct (String.eqb (action signal) "buy" && Qltb 0 (quantity signal)).
  - run_method. unfold py_div. destruct (Qeq_bool price 0); run_method.
    + left. reflexivity.
    + destruct (Qle_bool _ _); cbn [fst]; [|left; reflexivity].
      destruct (positions (portfolio e) !! symbol) as [h|] eqn:E;
        right; eexists;
        cbn [portfolio set_portfolio set_trades positions set_positions cash set_cash];
        rewrite ?lookup_insert_eq, ?insert_insert_eq;
        (split; [reflexivity|]); rewrite ?E; cbn [default]; unfold id;
        set (q := Qmin _ _); ring.
  - destruct (String.eqb (action signal) "sell" && Qltb 0 (quantity signal));
      [|left; reflexivity].
    run_method. destruct (Qltb 0 _) eqn:Hq; [|left; reflexivity].
    destruct (positions (portfolio e) !! symbol) as [h|] eqn:E; run_method; cbn [fst].
    + right. eexists. cbn [portfolio set_portfolio set_trades positions set_positions
                             cash set_cash default]. split; [reflexivity|].
      unfold id. set (q := Qmin _ _). ring.
    + exfalso. apply Qltb_lt in Hq. cbn [default] in Hq.
      pose proof (Q.le_min_r (quantity signal) 0). lra.
Qed.

(** A fill at the price at which the symbol is marked does not change the
    mark-to-market value. *)
Lemma execute_trade_value (prices : gmap string Q) symbol signal price timestamp
    (e : Engine) :
  prices !! symbol = Some price ->
  mark_to_market prices (portfolio (fst (_execute_trade symbol signal price timestamp e)))
  == mark_to_market prices (portfolio e).
Proof.
  intros Hprice.
  destruct (execute_trade_exchange symbol signal price timestamp e) as [Hsame|(v & Hpos & Hcash)].
  - rewrite Hsame. reflexivity.
  - set (e' := fst (_execute_trade symbol signal price timestamp e)) in *.
    rewrite !mark_to_market_sum.
    rewrite (priced_contributions_held prices (portfolio e) symbol price Hprice).
    assert (Hp' : portfolio e' = set_cash (cash (portfolio e'))
                    (set_total_value (total_value (portfolio e'))
                       (set_positions (<[symbol := v]> (positions (portfolio e)))
                          (mkPortfolio 0 0 (positions (portfolio e))
                             (unrealized_pnl (portfolio e')) (realized_pnl (portfolio e')))))).
    { destruct (portfolio e'). cbn in *. rewrite Hpos. reflexivity. }
    unfold held in Hcash.
    assert (Hsum : Qsum (priced_contributions prices (portfolio e')) ==
                   Qsum (priced_contributions prices
                           (set_positions (delete symbol (positions (portfolio e)))
                              (portfolio e))) + v * price).
    { rewrite <- (priced_contributions_insert prices (portfolio e) symbol price v Hprice).
      unfold priced_contributions. rewrite Hpos. reflexivity. }
    rewrite Hsum.
    set (rest := Qsum (priced_contributions prices
                         (set_positions (delete symbol (positions (portfolio e)))
                            (portfolio e)))) in *.
    set (a := v * price) in *.
    set (b := default 0 (positions (portfolio e) !! symbol) * price) in *.
    lra.
Qed.



(** ** Valuation twice *)

Lemma Qmax_absorb (a b : Q) : Qmax (Qmax a b) b = Qmax a b.
Proof.
  rewrite <- (if_Qltb_max a b). destruct (Qltb a b) eqn:E.
  - rewrite <- if_Qltb_max. destruct (Qltb b b); reflexivity.
  - rewrite <- if_Qltb_max. rewrite E. reflexivity.
Qed.

(** The valuation step in full, when the peak is not zero. *)
Lemma update_portfolio_value_result current_prices (e : Engine) :
  let value := mark_to_market current_prices (portfolio e) in
  let peak := Qmax (peak_value e) value in
  ~ peak == 0 ->
  _update_portfolio_value current_prices e =
    (mkEngine (algorithm_name e) (initial_capital e)
       (set_total_value value (portfolio e)) (trades e) peak
       (Qmax (max_drawdown e) ((peak - value) / peak)),
     inr tt).
Proof.
  intros value peak Hpeak. unfold _update_portfolio_value. run_method.
  fold value. cbn [peak_value set_portfolio].
  assert (Hp : (if Qltb (peak_value e) value then value else peak_value e) = peak)
    by apply if_Qltb_max.
  destruct (Qltb (peak_value e) value) eqn:E;
    cbn [peak_value set_peak_value set_portfolio];
    rewrite <- Hp in Hpeak |- *;
    rewrite py_div_pos by exact Hpeak;
    cbn [max_drawdown set_peak_value set_portfolio];
    rewrite <- (if_Qltb_max (max_drawdown e));
    match goal with
    | |- context [Qltb ?a ?b] => destruct (Qltb a b)
    end; reflexivity.
Qed.

(** The valuation step raises exactly when the peak is zero. *)
Lemma update_portfolio_value_raises current_prices (e : Engine) :
  Qmax (peak_value e) (mark_to_market current_prices (portfolio e)) == 0 ->
  snd (_update_portfolio_value current_prices e) = inl ZeroDivisionError.
Proof.
  intros Hzero. unfold _update_portfolio_value. run_method. cbn [peak_value set_portfolio].
  rewrite <- if_Qltb_max in Hzero.
  destruct (Qltb (peak_value e) _); cbn [peak_value set_peak_value set_portfolio];
    unfold py_div; apply Qeq_bool_iff in Hzero; rewrite Hzero; reflexivity.
Qed.

(** X4. Valuation is idempotent: marking again with the same prices right
    after a valuation that returned changes nothing, neither the total
    value nor the peak nor the worst drawdown. *)
Theorem valuation_is_idempotent current_prices (e e1 : Engine) :
  _update_portfolio_value current_prices e = (e1, inr tt) ->
  _update_portfolio_value current_prices e1 = (e1, inr tt).
Proof.
  intros Hfirst.
  destruct (Qeq_dec (Qmax (peak_value e) (mark_to_market current_prices (portfolio e))) 0)
    as [Hzero|Hpeak].
  - apply (update_portfolio_value_raises current_prices e) in Hzero.
    rewrite Hfirst in Hzero. discriminate.
  - rewrite (update_portfolio_value_result current_prices e Hpeak) in Hfirst.
    injection Hfirst as <-.
    rewrite update_portfolio_value_result;
      cbn [peak_value portfolio max_drawdown algorithm_name initial_capital trades];
      change (mark_to_market current_prices
                (set_total_value (mark_to_market current_prices (portfolio e)) (portfolio e)))
        with (mark_to_market current_prices (portfolio e));
      rewrite !Qmax_absorb.
    + reflexivity.
    + exact Hpeak.
Qed.

Lemma valuation_is_idempotent_witness :
  let e1 := fst (_update_portfolio_value (btc_at 50) invested_engine) in
  _update_portfolio_value (btc_at 50) e1 = (e1, inr tt).
Proof.
  intros e1. apply (valuation_is_idempotent (btc_at 50) invested_engine e1).
  vm_compute. reflexivity.
Defined.

(** ** Recent trades *)

Lemma get_recent_trades_positive limit (e : Engine) :
  (0 < limit)%Z ->
  get_recent_trades limit e = drop (length (trades e) - Z.to_nat limit) (trades e).
Proof.
  intros Hlimit. unfold get_recent_trades.
  destruct (trades e) as [|t ledger] eqn:E; [reflexivity|].
  unfold py_slice_from. cbv zeta.
  replace (- limit <? 0)%Z with true by (symmetry; apply Z.ltb_lt; lia).
  f_equal. lia.
Qed.

(** X5. [get_recent_trades(limit)] with a positive limit returns the newest
    [min(limit, number of trades)] records, in ledger order (newest last);
    with limit 0 it returns the whole ledger, not an empty list, because
    [trades[-0:]] is [trades[0:]]. *)
Theorem recent_trades_window (e : Engine) :
  (forall limit, (0 < limit)%Z ->
     exists older,
       trades e = older ++ get_recent_trades limit e /\
       length (get_recent_trades limit e) = Nat.min (Z.to_nat limit) (length (trades e))) /\
  get_recent_trades 0 e = trades e.
Proof.
  split.
  - intros limit Hlimit. rewrite (get_recent_trades_positive limit e Hlimit).
    exists (take (length (trades e) - Z.to_nat limit) (trades e)).
    split; [symmetry; apply take_drop|]. rewrite length_drop. lia.
  - unfold get_recent_trades. destruct (trades e) as [|t ledger]; reflexivity.
Qed.

Lemma recent_trades_window_witness :
  exists older,
    trades (fst (execute_all sample_orders (new_engine strategy_name 100))) =
      older ++ get_recent_trades 2 (fst (execute_all sample_orders (new_engine strategy_name 100))) /\
    length (get_recent_trades 2 (fst (execute_all sample_orders (new_engine strategy_name 100))))
      = Nat.min (Z.to_nat 2) (length (trades (fst (execute_all sample_orders
                                                      (new_engine strategy_name 100))))).
Proof.
  apply (proj1 (recent_trades_window _) 2%Z). reflexivity.
Defined.

(** ** The live driver, tick by tick *)

(** A tick of a stopped simulator does nothing. *)
Lemma live_tick_stopped algorithm current_time prices (r : RealtimeSimulator) :
  is_running r = false ->
  _process_realtime_update algorithm current_time prices r = (r, inr tt).
Proof.
  intros Hstopped. unfold _process_realtime_update. run_method. rewrite Hstopped.
  reflexivity.
Qed.

(** A tick of a running simulator, step by step. *)
Lemma live_tick_running algorithm current_time prices (r : RealtimeSimulator) :
  is_running r = true ->
  _process_realtime_update algorithm current_time prices r =
  let series := append_prices current_time prices (price_history r) in
  match _update_portfolio_value prices (r_engine r) with
  | (e1, inl x) =>
      (mkRealtime e1 (r_symbols r) (r_portfolio_history r) series true prices
         (historical_data_cache r), inl x)
  | (e1, inr _) =>
      let cache := append_prices current_time prices (historical_data_cache r) in
      let r2 := mkRealtime e1 (r_symbols r) (r_portfolio_history r) series true prices
                  cache in
      let signals := match algorithm current_time cache (portfolio e1) with
                     | inr signals => signals
                     | inl _ => []
                     end in
      match for_each signals (fun '(symbol, signal) =>
              match prices !! symbol with
              | Some price => r_zoom (_execute_trade symbol signal price current_time)
              | None => mret tt
              end) r2 with
      | (r3, inl x) => (r3, inl x)
      | (r3, inr _) =>
          let p := portfolio (r_engine r3) in
          (set_r_portfolio_history
             (last_n 1000
                (r_portfolio_history r3 ++
                 [mkSnapshot current_time (total_value p) (cash p) (positions p)
                    (unrealized_pnl p) (realized_pnl p) None]))
             (set_r_engine (r_engine r3) r3), inr tt)
      end
  end.
Proof.
  intros Hrunning. unfold _process_realtime_update, _update_historical_cache,
    _generate_signals, generate_signals.
  destruct r as [e symbols history series running current cache].
  cbn [is_running] in Hrunning. subst running.
  cbv beta iota delta [mbind M_bind mret M_ret gets modify raise zoom try_except r_zoom
                         is_running negb].
  cbn [set_current_prices set_price_history set_r_engine set_historical_data_cache
         r_engine r_symbols r_portfolio_history price_history is_running current_prices
         historical_data_cache].
  destruct (_update_portfolio_value prices e) as [e1 [x|[]]]; [reflexivity|].
  unfold set_current_prices, set_price_history, set_r_engine, set_historical_data_cache.
  cbn [r_engine r_symbols r_portfolio_history price_history is_running current_prices
         historical_data_cache].
  destruct (algorithm current_time (append_prices current_time prices cache) (portfolio e1))
    as [x|signals]; cbv zeta;
    match goal with
    | |- context [for_each ?l ?f ?s] => destruct (for_each l f s) as [r3 [y|[]]]
    end; reflexivity.
Qed.

(** What a tick leaves of the simulator: the symbols and the running flag are
    kept; a running tick appends the price rows; a history entry stamped with
    the time of the tick is appended exactly when the running tick returns. *)
Lemma live_tick_frame algorithm current_time prices (r : RealtimeSimulator) :
  let out := _process_realtime_update algorithm current_time prices r in
  r_symbols (fst out) = r_symbols r /\
  is_running (fst out) = is_running r /\
  price_history (fst out) =
    (if is_running r then append_prices current_time prices (price_history r)
     else price_history r) /\
  r_portfolio_history (fst out) =
    match snd out with
    | inr _ =>
        if is_running r then
          let p := portfolio (r_engine (fst out)) in
          last_n 1000
            (r_portfolio_history r ++
             [mkSnapshot current_time (total_value p) (cash p) (positions p)
                (unrealized_pnl p) (realized_pnl p) None])
        else r_portfolio_history r
    | inl _ => r_portfolio_history r
    end.
Proof.
  cbv zeta. destruct (is_running r) eqn:Hrunning.
  - rewrite (live_tick_running algorithm current_time prices r Hrunning). cbv zeta.
    destruct (_update_portfolio_value prices (r_engine r)) as [e1 [x|[]]];
      [cbn; repeat split|].
    match goal with
    | |- context [for_each ?l ?f ?s] =>
        assert (Hout : exists e3, fst (for_each l f s) = set_r_engine e3 s)
          by (destruct (zoomed_executions_related r_engine set_r_engine r_engine_set
                          set_r_engine_set set_r_engine_id prices current_time
                          (fun _ _ => True) (fun _ => I) (fun _ _ _ _ _ => I)
                          (fun _ _ _ _ _ => I) l s) as (e3 & Hout & _);
              exists e3; exact Hout);
        destruct Hout as (e3 & Hout);
        destruct (for_each l f s) as [r3 [y|[]]]
    end; cbn [fst] in Hout; subst r3; cbn; repeat split.
  - rewrite (live_tick_stopped algorithm current_time prices r Hrunning). cbn.
    rewrite Hrunning. repeat split.
Qed.

(** ** The rolling windows of the live driver *)

Lemma last_n_length {A} (n : nat) (l : list A) : length (last_n n l) = Nat.min n (length l).
Proof. unfold last_n. rewrite length_drop. lia. Qed.

Lemma feed_cons algorithm current_time prices updates (r : RealtimeSimulator) :
  feed algorithm ((current_time, prices) :: updates) r =
  match _process_realtime_update algorithm current_time prices r with
  | (r', inl x) => (r', inl x)
  | (r', inr _) => feed algorithm updates r'
  end.
Proof. reflexivity. Qed.

(** The rows of a symbol after the price rows of a tick are appended. *)
Lemma append_prices_lookup current_time (prices : gmap string Q)
    (series : gmap string (list (Z * Q))) symbol :
  append_prices current_time prices series !! symbol =
  match series !! symbol with
  | Some rows =>
      Some (match prices !! symbol with
            | Some price => last_n 1000 (rows ++ [(current_time, price)])
            | None => rows
            end)
  | None => None
  end.
Proof.
  unfold append_prices. rewrite map_lookup_imap.
  destruct (series !! symbol); reflexivity.
Qed.

(** X6. The rolling windows of the live driver hold: if the portfolio
    history and every price series have at most 1000 entries, they still
    have at most 1000 after any number of updates, whatever the strategy
    and the outcome of the ticks; and the set of symbols with a price series
    never changes (a price for an untracked symbol is ignored). *)
Theorem live_windows_are_bounded algorithm updates (r : RealtimeSimulator) :
  (length (r_portfolio_history r) <= 1000)%nat ->
  (forall symbol rows, price_history r !! symbol = Some rows -> (length rows <= 1000)%nat) ->
  let r' := fst (feed algorithm updates r) in
  (length (r_portfolio_history r') <= 1000)%nat /\
  (forall symbol rows, price_history r' !! symbol = Some rows -> (length rows <= 1000)%nat) /\
  (forall symbol, is_Some (price_history r' !! symbol) <-> is_Some (price_history r !! symbol)).
Proof.
  revert r. induction updates as [|[current_time prices] updates IH]; intros r Hhistory Hrows.
  - cbn. repeat split; try assumption; intros H; exact H.
  - cbv zeta. rewrite feed_cons.
    pose proof (live_tick_frame algorithm current_time prices r) as Hframe. cbv zeta in Hframe.
    destruct Hframe as (_ & _ & Hseries & Hh).
    assert (Hh1 : (length (r_portfolio_history
                     (fst (_process_realtime_update algorithm current_time prices r)))
                   <= 1000)%nat).
    { rewrite Hh.
      destruct (snd (_process_realtime_update algorithm current_time prices r));
        [exact Hhistory|].
      destruct (is_running r); [|exact Hhistory]. cbv zeta. rewrite last_n_length. lia. }
    assert (Hrows1 : forall symbol rows,
               price_history (fst (_process_realtime_update algorithm current_time prices r))
                 !! symbol = Some rows -> (length rows <= 1000)%nat).
    { intros symbol rows. rewrite Hseries. destruct (is_running r); [|apply Hrows].
      rewrite append_prices_lookup.
      destruct (price_history r !! symbol) as [old|] eqn:E; [|discriminate].
      intros Heq. injection Heq as <-.
      destruct (prices !! symbol); [rewrite last_n_length; lia | eapply Hrows; exact E]. }
    assert (Hdom1 : forall symbol,
               is_Some (price_history
                          (fst (_process_realtime_update algorithm current_time prices r))
                          !! symbol) <-> is_Some (price_history r !! symbol)).
    { intros symbol. rewrite Hseries. destruct (is_running r); [|reflexivity].
      rewrite append_prices_lookup.
      destruct (price_history r !! symbol); split; intros [x Hx]; try discriminate; eauto. }
    destruct (_process_realtime_update algorithm current_time prices r) as [r1 [x|[]]];
      cbn [fst snd] in *.
    + repeat split; try assumption; apply Hdom1.
    + destruct (IH r1 Hh1 Hrows1) as (H1 & H2 & H3).
      split; [exact H1|]. split; [exact H2|].
      intros symbol. rewrite H3. apply Hdom1.
Qed.

Lemma live_windows_are_bounded_witness :
  let r' := fst (feed buy_once outage_feed (fst (modify (set_is_running true) small_live))) in
  (length (r_portfolio_history r') <= 1000)%nat /\
  (forall symbol rows, price_history r' !! symbol = Some rows -> (length rows <= 1000)%nat) /\
  (forall symbol, is_Some (price_history r' !! symbol) <->
                  is_Some (price_history (fst (modify (set_is_running true) small_live))
                             !! symbol)).
Proof.
  apply (live_windows_are_bounded buy_once outage_feed).
  - cbn. lia.
  - intros symbol rows Hrows. cbn in Hrows.
    destruct (decide (symbol = "BTC")) as [->|Hne].
    + rewrite lookup_insert_eq in Hrows. injection Hrows as <-. cbn. lia.
    + rewrite lookup_insert_ne, lookup_empty in Hrows by congruence. discriminate.
Defined.

(** ** The live driver never stalls on positive prices *)

Lemma live_tick_returns name capital algorithm current_time prices (r : RealtimeSimulator) :
  0 < capital -> live_ready name capital r -> positive_prices prices ->
  exists r' s,
    _process_realtime_update algorithm current_time prices r = (r', inr tt) /\
    live_ready name capital r' /\
    r_portfolio_history r' = last_n 1000 (r_portfolio_history r ++ [s]) /\
    snap_timestamp s = current_time.
Proof.
  intros Hc (Hrunning & Hcash & values & Hrun) Hprices.
  rewrite (live_tick_running algorithm current_time prices r Hrunning). cbv zeta.
  destruct (reaches_update_returns name capital values (r_engine r) prices Hc Hrun)
    as (e1 & Hmark).
  rewrite Hmark.
  pose proof (reaches_mark name capital values (r_engine r) prices e1 Hrun Hmark) as Hrun1.
  assert (Hcash1 : cash_nonneg e1).
  { pose proof (update_portfolio_value_total prices (r_engine r)) as (_ & Hc1 & _).
    rewrite Hmark in Hc1. cbn [fst] in Hc1. unfold cash_nonneg. rewrite Hc1. exact Hcash. }
  match goal with
  | |- context [for_each ?l ?f ?s] =>
      assert (Hout : exists e3, for_each l f s = (set_r_engine e3 s, inr tt) /\
                (cash_nonneg e3 /\ exists values, reaches name capital values e3))
  end.
  { apply (zoomed_executions_return r_engine set_r_engine r_engine_set set_r_engine_set
             set_r_engine_id prices current_time
             (fun e => cash_nonneg e /\ exists values, reaches name capital values e)).
    - intros symbol signal price e Hprice (Hce & vs & Hre).
      destruct (execute_trade_cash symbol signal price current_time e
                  (Hprices symbol price Hprice) Hce) as (e' & He' & Hce').
      exists e'. split; [exact He'|]. split; [exact Hce'|]. exists vs.
      pose proof (reaches_execute name capital vs e
                    (mkOrder symbol signal price current_time) Hre) as Hstep.
      unfold execute in Hstep. cbn [order_symbol order_signal order_price order_timestamp]
        in Hstep. rewrite He' in Hstep. exact Hstep.
    - cbn [r_engine]. split; [exact Hcash1|]. eexists. exact Hrun1. }
  destruct Hout as (e3 & Hout & Hcash3 & Hrun3). rewrite Hout.
  eexists. eexists. split; [reflexivity|].
  cbn [set_r_engine set_r_portfolio_history r_engine r_symbols r_portfolio_history
         price_history is_running current_prices historical_data_cache].
  repeat split; assumption.
Qed.

(** X7. With a capital above zero and positive prices in every update, the
    live driver processes every update without an exception, whatever the
    strategy does (it may raise at every tick): each update appends one entry
    to the portfolio history, which keeps the newest 1000. *)
Theorem live_feed_returns name capital algorithm updates (r : RealtimeSimulator) :
  0 < capital -> live_ready name capital r ->
  (length (r_portfolio_history r) <= 1000)%nat ->
  Forall (fun update => positive_prices (snd update)) updates ->
  exists r',
    feed algorithm updates r = (r', inr tt) /\
    live_ready name capital r' /\
    length (r_portfolio_history r') =
      Nat.min 1000 (length (r_portfolio_history r) + length updates).
Proof.
  intros Hc Hready Hlen Hall. revert r Hready Hlen.
  induction Hall as [|[current_time prices] updates Hp _ IH]; intros r Hready Hlen.
  - exists r. split; [reflexivity|]. split; [exact Hready|]. cbn [length]. lia.
  - destruct (live_tick_returns name capital algorithm current_time prices r Hc Hready Hp)
      as (r1 & s & Htick & Hready1 & Hhistory & _).
    destruct (IH r1 Hready1) as (r2 & Hfeed & Hready2 & Hlen2).
    { rewrite Hhistory, last_n_length. lia. }
    exists r2. rewrite feed_cons, Htick. split; [exact Hfeed|]. split; [exact Hready2|].
    rewrite Hlen2, Hhistory, last_n_length, length_app. cbn [length]. lia.
Qed.

Lemma btc_at_positive (price : Q) : 0 < price -> positive_prices (btc_at price).
Proof.
  intros Hpos symbol p Hp. unfold btc_at in Hp.
  apply lookup_singleton_Some in Hp. destruct Hp as [_ <-]. exact Hpos.
Qed.

Lemma live_feed_returns_witness :
  exists r',
    feed raising_strategy [(0%Z, btc_at 100); (1%Z, btc_at 110)]
      (fst (modify (set_is_running true) btc_live)) = (r', inr tt) /\
    live_ready strategy_name 1000 r' /\
    length (r_portfolio_history r') =
      Nat.min 1000 (length (r_portfolio_history (fst (modify (set_is_running true) btc_live)))
                    + length [(0%Z, btc_at 100); (1%Z, btc_at 110)]).
Proof.
  apply live_feed_returns.
  - reflexivity.
  - split; [reflexivity|]. split; [vm_compute; discriminate|].
    exists []. apply reaches_new.
  - cbn [btc_live new_realtime modify fst set_is_running r_portfolio_history length]. lia.
  - constructor; [apply btc_at_positive; reflexivity|].
    constructor; [apply btc_at_positive; reflexivity|].
    constructor.
Defined.

(** ** Stopping the live driver *)

(** X8. After [stop] the live driver ignores the feed: every later update
    returns at once and leaves the simulator as it was, whatever the prices
    and the strategy; no price row, no valuation, no trade and no history
    entry is produced. *)
Theorem stopped_simulator_ignores_updates algorithm updates (r : RealtimeSimulator) :
  is_running (fst (stop r)) = false /\
  feed algorithm updates (fst (stop r)) = (fst (stop r), inr tt).
Proof.
  split; [reflexivity|].
  induction updates as [|[current_time prices] updates IH]; [reflexivity|].
  rewrite feed_cons, live_tick_stopped by reflexivity. exact IH.
Qed.

(** ** The snapshots of the live driver *)



(** ** Exceptions of the live run *)

Lemma stream_frame algorithm rounds symbols (r : RealtimeSimulator) :
  let out := stream_realtime_data rounds symbols (_process_realtime_update algorithm) r in
  snd out = inr tt /\ is_running (fst out) = is_running r /\
  r_symbols (fst out) = r_symbols r.
Proof.
  unfold stream_realtime_data, try_except. cbv zeta.
  revert r. induction rounds as [|[now ticker] rounds IH]; intros r; [repeat split|].
  cbn [for_each]. cbv beta iota delta [mbind M_bind].
  pose proof (live_tick_frame algorithm now (get_multiple_prices ticker symbols) r) as Hframe.
  cbv zeta in Hframe. destruct Hframe as (Hsym & Hrun & _).
  destruct (_process_realtime_update algorithm now (get_multiple_prices ticker symbols) r)
    as [r1 [x|[]]]; cbn [fst] in Hsym, Hrun.
  - cbn. repeat split; assumption.
  - destruct (IH r1) as (H1 & H2 & H3). rewrite <- Hrun, <- Hsym. repeat split; assumption.
Qed.

(** X10. No exception of a tick reaches [run] of the live driver:
    [stream_realtime_data] swallows it and ends the stream.  So for any
    rounds played, with any data, tickers and strategy, the run does not
    raise, and the simulator is still flagged as running afterwards, also
    when a tick failed and the stream has ended. *)
Theorem live_run_never_raises provider algorithm rounds (r : RealtimeSimulator) :
  exists r',
    live_run provider algorithm rounds r = (r', inr tt) /\
    is_running r' = true /\ r_symbols r' = r_symbols r.
Proof.
  unfold live_run, _initialize_historical_data.
  cbv beta iota delta [mbind M_bind mret M_ret gets modify raise try_except].
  match goal with
  | |- context [stream_realtime_data ?a ?b ?c ?s] =>
      pose proof (stream_frame algorithm a b s) as Hframe;
      cbv zeta in Hframe; destruct Hframe as (Hret & Hrun & Hsym);
      destruct (stream_realtime_data a b c s) as [r1 [x|[]]]
  end; cbn [snd fst] in *; [discriminate|].
  exists r1. split; [reflexivity|]. split; assumption.
Qed.

(** ** Exceptions of an execution *)



(** ** The prices of a round *)

Lemma get_multiple_prices_fold ticker symbols (prices : gmap string Q) symbol :
  foldl (fun prices symbol => <[symbol := get_current_price ticker symbol]> prices)
        prices symbols !! symbol =
  if bool_decide (symbol ∈ symbols) then Some (default 0 (ticker symbol))
  else prices !! symbol.
Proof.
  revert prices. induction symbols as [|s symbols IH]; intros prices; cbn [foldl].
  - rewrite bool_decide_eq_false_2 by (intros H; inversion H). reflexivity.
  - rewrite IH. destruct (bool_decide (symbol ∈ symbols)) eqn:Hin.
    + apply bool_decide_eq_true in Hin.
      rewrite bool_decide_eq_true_2 by (right; exact Hin). reflexivity.
    + apply bool_decide_eq_false in Hin. destruct (decide (symbol = s)) as [->|Hne].
      * rewrite bool_decide_eq_true_2 by left. rewrite lookup_insert_eq.
        unfold get_current_price. destruct (ticker s); reflexivity.
      * rewrite bool_decide_eq_false_2 by (intros H; inversion H; subst; contradiction).
        rewrite lookup_insert_ne by congruence. reflexivity.
Qed.

(** X12. [get_multiple_prices] prices exactly the requested symbols, each
    once whatever the repetitions in the request: a symbol has the last
    price of its ticker, and the price 0 when its fetch failed; a failed
    fetch is never an absent price.  So the prices of a round with a failed
    fetch are not all positive. *)
Theorem multiple_prices_lookup ticker symbols :
  (forall symbol,
     get_multiple_prices ticker symbols !! symbol =
     if bool_decide (symbol ∈ symbols) then Some (default 0 (ticker symbol)) else None) /\
  (forall symbol, symbol ∈ symbols -> ticker symbol = None ->
     ~ positive_prices (get_multiple_prices ticker symbols)).
Proof.
  assert (Hlookup : forall symbol,
             get_multiple_prices ticker symbols !! symbol =
             if bool_decide (symbol ∈ symbols) then Some (default 0 (ticker symbol)) else None).
  { intros symbol. unfold get_multiple_prices. rewrite get_multiple_prices_fold.
    rewrite lookup_empty. reflexivity. }
  split; [exact Hlookup|].
  intros symbol Hin Hfail Hpos. specialize (Hlookup symbol).
  rewrite bool_decide_eq_true_2, Hfail in Hlookup by exact Hin. cbn [default] in Hlookup.
  apply Hpos in Hlookup. lra.
Qed.

(** ** The replay, round by round *)

(** The valuation step keeps the configuration of the engine and the profit
    and loss of the portfolio, whatever its outcome. *)
Lemma update_portfolio_value_config current_prices (e : Engine) :
  let e' := fst (_update_portfolio_value current_prices e) in
  algorithm_name e' = algorithm_name e /\ initial_capital e' = initial_capital e /\
  same_pnl (portfolio e) (portfolio e').
Proof.
  unfold _update_portfolio_value. run_method. unfold py_div. run_method.
  cbn [portfolio set_portfolio peak_value max_drawdown].
  destruct (Qltb (peak_value e) _); cbn [peak_value set_peak_value portfolio max_drawdown];
    destruct (Qeq_bool _ 0); cbn [fst];
    try destruct (Qltb _ _); cbn [fst]; repeat split; reflexivity.
Qed.

(** An execution keeps the profit and loss of the portfolio, whatever its
    outcome. *)
Lemma execute_trade_pnl symbol signal price timestamp (e : Engine) :
  same_pnl (portfolio e) (portfolio (fst (_execute_trade symbol signal price timestamp e))).
Proof.
  unfold _execute_trade.
  destruct (String.eqb (action signal) "buy" && Qltb 0 (quantity signal)).
  - run_method. unfold py_div. destruct (Qeq_bool price 0); run_method.
    + cbn [fst]. split; reflexivity.
    + destruct (Qle_bool _ _); cbn [fst]; split; reflexivity.
  - destruct (String.eqb (action signal) "sell" && Qltb 0 (quantity signal));
      [|cbn [fst]; split; reflexivity].
    run_method. destruct (Qltb 0 _); [|cbn [fst]; split; reflexivity].
    destruct (positions (portfolio e) !! symbol); run_method; cbn [fst]; split; reflexivity.
Qed.

Lemma same_pnl_trans (p1 p2 p3 : Portfolio) :
  same_pnl p1 p2 -> same_pnl p2 p3 -> same_pnl p1 p3.
Proof. intros [H1 H2] [H3 H4]. split; congruence. Qed.

Lemma inject_Z_length_S {A} (x : A) (l : list A) :
  inject_Z (Z.of_nat (length (x :: l))) == inject_Z (Z.of_nat (length l)) + 1.
Proof.
  cbn [length]. rewrite Nat2Z.inj_succ. unfold Z.succ. rewrite inject_Z_plus. reflexivity.
Qed.

Lemma inject_Z_length_nonneg {A} (l : list A) : 0 <= inject_Z (Z.of_nat (length l)).
Proof. change 0 with (inject_Z 0). rewrite <- Zle_Qle. apply Nat2Z.is_nonneg. Qed.

(** A sum of returns above -1 is above minus their number. *)
Lemma Qsum_above (l : list Q) :
  Forall (fun r => -1 < r) l -> - inject_Z (Z.of_nat (length l)) <= Qsum l.
Proof.
  induction 1 as [|r l Hr Hall IH]; [unfold Qle; cbn; lia|].
  rewrite inject_Z_length_S. cbn [Qsum foldr]. fold (Qsum l). lra.
Qed.

(** Returns above -1 keep the benchmark positive. *)
Lemma advance_benchmark_positive prev_benchmark (returns : list Q) :
  0 < prev_benchmark -> Forall (fun r => -1 < r) returns ->
  0 < advance_benchmark prev_benchmark returns.
Proof.
  intros Hprev Hall. unfold advance_benchmark.
  destruct returns as [|r returns]; [exact Hprev|].
  apply Qmult_lt_0_compat; [exact Hprev|]. unfold mean.
  pose proof (inject_Z_length_nonneg returns) as Hn.
  pose proof (inject_Z_length_S r returns) as Hs.
  inversion Hall as [|? ? Hr Hrest]; subst.
  pose proof (Qsum_above returns Hrest) as Hsum.
  cbn [Qsum foldr]. fold (Qsum returns).
  set (n := inject_Z (Z.of_nat (length (r :: returns)))) in *.
  assert (-1 < (r + Qsum returns) / n) by (apply Qlt_shift_div_l; lra).
  lra.
Qed.

(** With positive closes every valid return is above -1. *)
Lemma positive_closes_returns historical_data prev_date current_date symbols :
  positive_closes historical_data ->
  Forall (fun r => -1 < r) (valid_returns historical_data prev_date current_date symbols).
Proof.
  intros Hcloses. unfold valid_returns.
  induction symbols as [|symbol symbols IH]; cbn [omap list_omap]; [constructor|].
  destruct (symbol_return historical_data prev_date current_date symbol) as [r|] eqn:E;
    [|exact IH].
  constructor; [|exact IH].
  unfold symbol_return in E.
  destruct (historical_data !! symbol) as [df|] eqn:Hdf; cbn [mbind option_bind] in E;
    [|discriminate].
  destruct (in_index current_date df); cbn [mbind option_bind] in E; [|discriminate].
  destruct (loc_close current_date df) as [p_now|] eqn:Hnow; cbn [mbind option_bind] in E;
    [|discriminate].
  destruct (in_index prev_date df); cbn [mbind option_bind] in E; [|discriminate].
  destruct (loc_close prev_date df) as [p_prev|] eqn:Hprev; cbn [mbind option_bind] in E;
    [|discriminate].
  destruct (Qltb 0 p_prev) eqn:Hpos; [|discriminate].
  injection E as <-. apply Qltb_lt in Hpos.
  pose proof (Hcloses symbol df current_date p_now Hdf Hnow) as Hp.
  apply Qlt_shift_div_l; [exact Hpos|]. lra.
Qed.

(** The tracker always returns: it appends one value and moves the
    reference timestamp; the value is positive when the closes, the capital
    and the earlier values are. *)
Lemma track_benchmark_shape current_date historical_data (h : HistoricalSimulator) :
  exists v,
    track_benchmark current_date historical_data h =
    (mkHistorical (h_engine h) (h_symbols h) (h_portfolio_history h)
       (benchmark_values h ++ [v]) (Some current_date), inr v) /\
    (positive_closes historical_data -> 0 < initial_capital (h_engine h) ->
     Forall (fun v => 0 < v) (benchmark_values h) -> 0 < v).
Proof.
  unfold track_benchmark. run_method.
  destruct (last (benchmark_values h)) as [prev|] eqn:Hlast.
  - destruct (calculate_benchmark_value_next h current_date historical_data prev Hlast)
      as (v & Hrun & Hv).
    rewrite Hrun. exists v. split; [reflexivity|].
    intros Hcloses _ Hall. rewrite Hv. apply advance_benchmark_positive.
    + apply last_Some_elem_of in Hlast. rewrite Forall_forall in Hall.
      apply Hall. exact Hlast.
    + destruct (last_benchmark_date h); [|constructor].
      apply positive_closes_returns. exact Hcloses.
  - apply last_None in Hlast.
    rewrite (calculate_benchmark_value_first h current_date historical_data Hlast).
    eexists. split; [reflexivity|]. intros _ Hcap _. exact Hcap.
Qed.

(** What a tick of the replay leaves, whatever its outcome: nothing but the
    engine changes; the total value is the mark at the prices of the tick,
    also after the executions; the configuration and the profit and loss
    are kept; the ledger grows by fills at the prices of the tick. *)
Lemma process_day_frame algorithm current_date historical_data (h : HistoricalSimulator) :
  exists e1,
    fst (_process_day algorithm current_date historical_data h) = set_h_engine e1 h /\
    total_value (portfolio e1) ==
      mark_to_market (prices_at current_date historical_data) (portfolio e1) /\
    algorithm_name e1 = algorithm_name (h_engine h) /\
    initial_capital e1 = initial_capital (h_engine h) /\
    same_pnl (portfolio (h_engine h)) (portfolio e1) /\
    exists fills,
      trades e1 = trades (h_engine h) ++ fills /\
      Forall (filled_at_close historical_data) fills.
Proof.
  unfold _process_day, generate_signals.
  cbv beta iota delta [mbind M_bind mret M_ret gets modify raise zoom h_zoom].
  set (prices := prices_at current_date historical_data).
  pose proof (update_portfolio_value_total prices (h_engine h))
    as (Htotal & Hcash & Hpos & Htrades).
  pose proof (update_portfolio_value_config prices (h_engine h))
    as (Hname & Hcapital & Hpnl).
  destruct (_update_portfolio_value prices (h_engine h)) as [e1 [x|[]]];
    cbn [fst] in Htotal, Hcash, Hpos, Htrades, Hname, Hcapital, Hpnl.
  all: assert (Hmarked : total_value (portfolio e1) == mark_to_market prices (portfolio e1))
         by (rewrite Htotal; unfold mark_to_market; rewrite Hcash, Hpos; reflexivity).
  all: assert (Hnone : exists fills, trades e1 = trades (h_engine h) ++ fills /\
                         Forall (filled_at_close historical_data) fills)
         by (exists []; rewrite app_nil_r; split; [exact Htrades | constructor]).
  - exists e1. cbn [fst]. repeat split; first [assumption | apply Hpnl].
  - cbn [h_engine set_h_engine].
    destruct (algorithm current_date historical_data (portfolio e1)) as [x|signals].
    + exists e1. cbn [fst]. unfold set_h_engine. cbn [h_engine h_symbols h_portfolio_history
        benchmark_values last_benchmark_date].
      repeat split; first [assumption | apply Hpnl].
    + destruct (zoomed_executions_related h_engine set_h_engine h_engine_set set_h_engine_set
                  set_h_engine_id prices current_date
                  (fun e e' =>
                     (total_value (portfolio e') = total_value (portfolio e) /\
                      mark_to_market prices (portfolio e') == mark_to_market prices (portfolio e))
                     /\ (algorithm_name e' = algorithm_name e /\
                         initial_capital e' = initial_capital e /\
                         same_pnl (portfolio e) (portfolio e')) /\
                     exists fills,
                       trades e' = trades e ++ fills /\
                       Forall (filled_at_close historical_data) fills))
        with (signals := signals) (t := set_h_engine e1 (set_h_engine e1 h))
        as (e3 & Heq & (Hsame & Hvalue) & (Hn & Hc & Hp) & fills & Hfills & Hclose).
      * intros e. repeat split; try reflexivity.
        exists []. rewrite app_nil_r. split; [reflexivity | constructor].
      * intros ea eb ec [[H1 H2] [(H3 & H4 & P1) (f1 & Hf1 & Hc1)]]
          [[H5 H6] [(H7 & H8 & P2) (f2 & Hf2 & Hc2)]].
        split; [split; [congruence | rewrite H6, H2; reflexivity]|].
        split; [split; [congruence|]; split; [congruence|];
                exact (same_pnl_trans _ _ _ P1 P2)|].
        exists (f1 ++ f2). rewrite Hf2, Hf1, app_assoc. split; [reflexivity|].
        apply Forall_app. split; assumption.
      * intros symbol signal price e Hprice.
        pose proof (execute_trade_frame symbol signal price current_date e)
          as (_ & _ & Ht & Hc & Hn).
        split; [split; [exact Ht | apply execute_trade_value; exact Hprice]|].
        split; [split; [exact Hn|]; split; [exact Hc | apply execute_trade_pnl]|].
        destruct (execute_trade_ledger symbol signal price current_date e)
          as [Hsame|(side & q & Hadd & _)].
        -- exists []. rewrite app_nil_r. split; [exact Hsame | constructor].
        -- eexists. split; [exact Hadd|]. constructor; [|constructor].
           unfold filled_at_close. cbn [trade_timestamp trade_symbol trade_price].
           exact Hprice.
      * exists e3. unfold zoom in Heq. split; [exact Heq|].
        cbn [h_engine set_h_engine] in *.
        split; [rewrite Hsame, Hvalue; exact Hmarked|]. split; [congruence|].
        split; [congruence|]. split; [exact (same_pnl_trans _ _ _ Hpnl Hp)|].
        destruct Hnone as (f0 & Hf0 & Hc0).
        exists (f0 ++ fills). rewrite Hfills, Hf0, app_assoc. split; [reflexivity|].
        apply Forall_app. split; assumption.
Qed.

Lemma tick_times_S first n :
  tick_times first (S n) = (first + hour)%Z :: tick_times (first + hour) n.
Proof.
  unfold tick_times. cbn [seq fmap list_fmap].
  replace (first + (Z.of_nat 0 + 1) * hour)%Z with (first + hour)%Z by lia. f_equal.
  rewrite <- fmap_S_seq, <- list_fmap_compose. apply list_fmap_ext.
  intros i k _. cbn [compose]. lia.
Qed.

Lemma ticks_between_S min_date max_date :
  (min_date <= max_date)%Z ->
  ticks_between min_date max_date = S (ticks_between (min_date + hour) max_date).
Proof.
  intros Hle. unfold ticks_between, hour.
  replace (max_date - (min_date + 3600))%Z with (max_date - min_date + (-1) * 3600)%Z by lia.
  rewrite Z.div_add by lia.
  pose proof (Z.div_pos (max_date - min_date) 3600). lia.
Qed.

Lemma ticks_between_O min_date max_date :
  (max_date < min_date)%Z -> ticks_between min_date max_date = O.
Proof.
  intros Hlt. unfold ticks_between, hour.
  assert ((max_date - min_date) / 3600 < 0)%Z by (apply Z.div_lt_upper_bound; lia). lia.
Qed.

Lemma replay_entries_refl historical_data first (h : HistoricalSimulator) :
  replay_entries historical_data first h h [].
Proof.
  unfold replay_entries, same_pnl. cbn. rewrite !app_nil_r.
  repeat split; try constructor.
  - exists []. rewrite app_nil_r. split; [reflexivity | constructor].
  - intros _ _ Hall. exact Hall.
Qed.

(** The loop of [run], whatever its outcome. *)
Lemma run_loop_shape algorithm historical_data max_date :
  forall budget current_date (h : HistoricalSimulator),
    ((current_date <= max_date)%Z -> (Z.to_nat (max_date - current_date) < budget)%nat) ->
    let out := run_loop algorithm historical_data max_date budget current_date h in
    exists new,
      replay_entries historical_data current_date h (fst out) new /\
      (length new <= ticks_between current_date max_date)%nat /\
      (snd out = inr tt -> length new = ticks_between current_date max_date).
Proof.
  induction budget as [|budget IH]; intros current_date h Hlt; cbv zeta; cbn [run_loop];
    destruct (current_date <=? max_date)%Z eqn:Hgo.
  1: { apply Z.leb_le in Hgo. specialize (Hlt Hgo). lia. }
  1, 3: apply Z.leb_gt in Hgo; exists []; rewrite (ticks_between_O _ _ Hgo);
        split; [apply replay_entries_refl | split; [constructor | reflexivity]].
  apply Z.leb_le in Hgo. specialize (Hlt Hgo).
  cbv beta iota delta [mbind M_bind mret M_ret gets modify raise zoom h_zoom].
  destruct (process_day_frame algorithm current_date historical_data h)
    as (e1 & Hday & Hmarked & Hname & Hcapital & Hpnl & fills & Hfills & Hclose).
  destruct (_process_day algorithm current_date historical_data h) as [h1 [x|[]]];
    cbn [fst] in Hday; subst h1.
  - exists []. unfold replay_entries. cbn. rewrite !app_nil_r.
    repeat split; try assumption; try constructor; try lia; try discriminate;
      try apply Hpnl.
    + exists fills. split; assumption.
    + intros _ _ Hall. exact Hall.
  - destruct (track_benchmark_shape (current_date + hour) historical_data (set_h_engine e1 h))
      as (v & Htrack & Hpositive).
    rewrite Htrack. cbn [h_engine set_h_engine h_symbols h_portfolio_history benchmark_values
                           last_benchmark_date set_h_portfolio_history].
    match goal with
    | |- context [run_loop _ _ _ budget _ ?s] =>
        destruct (IH (current_date + hour)%Z s) as (new & Hshape & Hle & Hall);
        [unfold hour; lia|]
    end.
    destruct (run_loop _ _ _ budget _ _) as [h3 out]. cbn [fst snd] in *.
    destruct Hshape
      as (Hh & Hb & Hsb & Hts & Hcons & Hsym & Hn & Hc & Hledger & Hbench & Hpnl' & Hsnaps).
    destruct Hledger as (fills' & Hfills' & Hclose').
    unfold set_h_portfolio_history, set_h_engine in Hh, Hb, Hsym, Hn, Hc, Hfills', Hbench,
      Hpositive, Hpnl', Hsnaps.
    cbn [h_engine h_symbols h_portfolio_history benchmark_values]
      in Hh, Hb, Hsym, Hn, Hc, Hfills', Hbench, Hpositive, Hpnl', Hsnaps.
    eexists (_ :: new). rewrite (ticks_between_S _ _ Hgo). split; [|cbn [length]; split; [lia | intros Hx; rewrite (Hall Hx); reflexivity]].
    unfold replay_entries. rewrite Hh, Hb, <- !app_assoc. cbn [app omap list_omap
      snap_benchmark_value fmap list_fmap length snap_timestamp].
    rewrite tick_times_S, Hsb, Hts.
    repeat split; try congruence.
    + constructor; [|exact Hcons].
      unfold snapshot_consistent.
      cbn [snap_timestamp snap_total_value snap_cash snap_positions snap_unrealized_pnl
             snap_realized_pnl].
      replace (current_date + hour - hour)%Z with current_date by lia.
      etransitivity; [exact Hmarked|]. rewrite mark_to_market_sum.
      unfold priced_contributions. cbn [positions]. reflexivity.
    + exists (fills ++ fills'). rewrite Hfills', Hfills, app_assoc. split; [reflexivity|].
      apply Forall_app. split; assumption.
    + intros Hcloses Hcap Hold.
      assert (Hnew : Forall (fun v => 0 < v) (benchmark_values h3)).
      { apply Hbench; [exact Hcloses | congruence |].
        apply Forall_app. split; [exact Hold|]. constructor; [|constructor].
        apply Hpositive; [exact Hcloses | congruence | exact Hold]. }
      rewrite Hb, <- app_assoc in Hnew. exact Hnew.
    + apply (same_pnl_trans _ _ _ Hpnl Hpnl').
    + apply (same_pnl_trans _ _ _ Hpnl Hpnl').
    + constructor; [exact Hpnl|].
      eapply Forall_impl; [exact Hsnaps|]. cbv beta. intros s [H1 H2].
      destruct Hpnl as [P1 P2]. split; congruence.
Qed.

(** [run], whatever its outcome, from the state left by [reset_simulation]. *)
Lemma run_shape provider algorithm (h : HistoricalSimulator) :
  let out := run provider algorithm h in
  let historical_data := fetch_all provider (h_symbols h) in
  exists new,
    replay_entries historical_data (default 0%Z (common_start historical_data))
      (fst (reset_simulation h)) (fst out) new /\
    (forall min_date max_date,
       common_start historical_data = Some min_date ->
       common_end historical_data = Some max_date ->
       (length new <= ticks_between min_date max_date)%nat /\
       (snd out = inr tt -> length new = ticks_between min_date max_date)).
Proof.
  cbv zeta. unfold run, reset_simulation. run_method. cbn [h_symbols].
  pose proof replay_entries_refl as Hnone.
  destruct (bool_decide (fetch_all provider (h_symbols h) = ∅)) eqn:Hempty.
  { apply bool_decide_eq_true in Hempty. exists []. cbn [fst snd]. split; [apply Hnone|].
    intros min_date max_date Hstart. rewrite Hempty, common_start_empty in Hstart.
    discriminate. }
  destruct (common_start _) as [min_date|] eqn:Hstart;
    [|exists []; cbn [fst snd]; split; [apply Hnone | intros; discriminate]].
  destruct (common_end _) as [max_date|] eqn:Hend;
    [|exists []; cbn [fst snd]; split; [apply Hnone | intros; discriminate]].
  cbn [default].
  match goal with
  | |- context [run_loop ?a ?d ?m ?b ?c ?s] =>
      destruct (run_loop_shape a d m b c s) as (new & Hshape & Hle & Hall); [lia|];
      destruct (run_loop a d m b c s) as [h2 [x|[]]]
  end; cbn [fst snd] in *; exists new; (split; [exact Hshape|]);
    intros ? ? Heq1 Heq2; injection Heq1 as <-; injection Heq2 as <-; split; assumption.
Qed.

(** [run] reads nothing of the simulator but its configuration. *)
Lemma run_config provider algorithm (h h0 : HistoricalSimulator) :
  h_symbols h = h_symbols h0 ->
  algorithm_name (h_engine h) = algorithm_name (h_engine h0) ->
  initial_capital (h_engine h) = initial_capital (h_engine h0) ->
  run provider algorithm h = run provider algorithm h0.
Proof.
  intros Hsym Hname Hcapital. unfold run, reset_simulation. run_method.
  rewrite Hsym, Hname, Hcapital. reflexivity.
Qed.

(** X13. After [run], whatever its outcome, the portfolio history and
    [benchmark_values] correspond entry by entry: they have the same length
    and the benchmark value stored in the k-th history entry is the k-th
    element of [benchmark_values] (which [_calculate_alpha_metrics] reads by
    the index of the history). *)
Theorem replay_history_carries_benchmark provider algorithm (h : HistoricalSimulator) :
  let h' := fst (run provider algorithm h) in
  snap_benchmark_value <$> h_portfolio_history h' = Some <$> benchmark_values h'.
Proof.
  cbv zeta. destruct (run_shape provider algorithm h) as (new & Hshape & _).
  destruct Hshape as (Hh & Hb & Hsb & _). rewrite Hh, Hb. exact Hsb.
Qed.

(** X14. The history of a replay is hourly and stamped after the hour is
    added: with [min_date] and [max_date] the common range of the frames,
    the k-th entry (from 0) is stamped [min_date + (k+1) hours], so the first
    is stamped one hour after the first tick and the last may be stamped
    after [max_date]; there are at most [floor((max_date - min_date) / 1h) + 1]
    entries, and exactly that many when [run] returns. *)
Theorem replay_ticks_are_hourly provider algorithm (h : HistoricalSimulator)
    min_date max_date :
  common_start (fetch_all provider (h_symbols h)) = Some min_date ->
  common_end (fetch_all provider (h_symbols h)) = Some max_date ->
  let out := run provider algorithm h in
  let history := h_portfolio_history (fst out) in
  snap_timestamp <$> history = tick_times min_date (length history) /\
  (length history <= ticks_between min_date max_date)%nat /\
  (snd out = inr tt -> length history = ticks_between min_date max_date).
Proof.
  intros Hstart Hend. cbv zeta.
  destruct (run_shape provider algorithm h) as (new & Hshape & Hcount).
  destruct Hshape as (Hh & _ & _ & Hts & _). rewrite Hstart in Hts. cbn [default] in Hts.
  cbn [reset_simulation modify fst h_portfolio_history app] in Hh. rewrite Hh.
  split; [exact Hts|]. exact (Hcount min_date max_date Hstart Hend).
Qed.

Lemma replay_ticks_are_hourly_witness :
  let out := run btc_bars buy_once btc_replay in
  let history := h_portfolio_history (fst out) in
  snap_timestamp <$> history = tick_times 0 (length history) /\
  (length history <= ticks_between 0 7200)%nat /\
  (snd out = inr tt -> length history = ticks_between 0 7200).
Proof.
  apply (replay_ticks_are_hourly btc_bars buy_once btc_replay 0 7200);
    vm_compute; reflexivity.
Defined.


(** X16. Running a replay again gives the same result: [run] starts with
    [reset_simulation] and keeps the configuration (symbols, algorithm name,
    initial capital), so with the same data and a strategy without state of
    its own nothing of the previous run survives, neither portfolio, ledger,
    peak, drawdown, history nor benchmark. *)
Theorem rerun_gives_the_same_result provider algorithm (h : HistoricalSimulator) :
  run provider algorithm (fst (run provider algorithm h)) = run provider algorithm h.
Proof.
  destruct (run_shape provider algorithm h) as (new & Hshape & _).
  destruct Hshape as (_ & _ & _ & _ & _ & Hsym & Hname & Hcapital & _).
  apply run_config; assumption.
Qed.

(** X17. Every trade in the ledger after [run], whatever its outcome, was
    filled at the close of its symbol at the timestamp of the trade: the
    fills use the prices of the tick at which the signal was given, while
    the history entry of that tick is stamped one hour later. *)
Theorem replay_fills_are_at_the_close provider algorithm (h : HistoricalSimulator) :
  Forall (filled_at_close (fetch_all provider (h_symbols h)))
    (trades (h_engine (fst (run provider algorithm h)))).
Proof.
  destruct (run_shape provider algorithm h) as (new & Hshape & _).
  destruct Hshape as (_ & _ & _ & _ & _ & _ & _ & _ & (fills & Hfills & Hclose) & _).
  rewrite Hfills. exact Hclose.
Qed.


Lemma btc_bars_positive : positive_closes (fetch_all btc_bars (h_symbols btc_replay)).
Proof.
  intros symbol df t p Hdf Hp.
  change (fetch_all btc_bars (h_symbols btc_replay))
    with (<[ "BTC" := btc_bars "BTC" ]> (∅ : gmap string DataFrame)) in Hdf.
  apply lookup_insert_Some in Hdf. destruct Hdf as [[_ <-]|[_ Hdf]];
    [|rewrite lookup_empty in Hdf; discriminate].
  unfold loc_close, btc_bars in Hp. cbn [String.eqb Ascii.eqb Bool.eqb find fst snd] in Hp.
  repeat (destruct (Z.eqb _ t); [injection Hp as <-; reflexivity|]; cbn [find fst snd] in Hp).
  discriminate.
Qed.


(** ** The frames that the drivers keep *)

(** The loop that collects the frames of the symbols. *)
Lemma keep_frames_lookup (provider : string -> DataFrame) symbols (cache : HistoricalData)
    symbol :
  foldl (fun historical_data symbol =>
           let data := provider symbol in
           if df_empty data then historical_data
           else <[symbol := data]> historical_data) cache symbols !! symbol =
  if bool_decide (symbol ∈ symbols) && negb (df_empty (provider symbol))
  then Some (provider symbol) else cache !! symbol.
Proof.
  revert cache. induction symbols as [|s symbols IH]; intros cache; cbn [foldl].
  - rewrite bool_decide_eq_false_2 by (intros H; inversion H). reflexivity.
  - rewrite IH. cbv zeta.
    destruct (bool_decide (symbol ∈ symbols)) eqn:Hin.
    + apply bool_decide_eq_true in Hin.
      rewrite (bool_decide_eq_true_2 (symbol ∈ s :: symbols)) by (right; exact Hin).
      cbn [andb]. destruct (df_empty (provider symbol)) eqn:Hempty; cbn [negb]; [|reflexivity].
      destruct (df_empty (provider s)) eqn:Hs; [reflexivity|].
      apply lookup_insert_ne. intros ->. congruence.
    + apply bool_decide_eq_false in Hin. cbn [andb].
      destruct (decide (symbol = s)) as [->|Hne].
      * rewrite (bool_decide_eq_true_2 (s ∈ s :: symbols)) by left. cbn [andb].
        destruct (df_empty (provider s)); cbn [negb]; [reflexivity|].
        apply lookup_insert_eq.
      * rewrite (bool_decide_eq_false_2 (symbol ∈ s :: symbols))
          by (intros H; inversion H; subst; contradiction).
        cbn [andb]. destruct (df_empty (provider s)); [reflexivity|].
        apply lookup_insert_ne. congruence.
Qed.

Lemma historical_data_empty symbol : (∅ : HistoricalData) !! symbol = None.
Proof. apply lookup_empty. Qed.

(** X19. The drivers keep exactly the non-empty frames of their symbols.
    The data of a replay holds a frame for a symbol exactly when the symbol
    is requested and its frame is not empty (a symbol requested twice is
    kept once); [_initialize_historical_data] of the live driver does the
    same on top of the cache, where an empty fetch leaves the frame already
    cached for the symbol. *)
Theorem kept_frames_are_the_fetched_ones (provider : string -> DataFrame) :
  (forall symbols symbol,
     fetch_all provider symbols !! symbol =
     if bool_decide (symbol ∈ symbols) && negb (df_empty (provider symbol))
     then Some (provider symbol) else None) /\
  (forall (r : RealtimeSimulator) symbol,
     historical_data_cache (fst (_initialize_historical_data provider r)) !! symbol =
     if bool_decide (symbol ∈ r_symbols r) && negb (df_empty (provider symbol))
     then Some (provider symbol) else historical_data_cache r !! symbol).
Proof.
  split.
  - intros symbols symbol. unfold fetch_all. rewrite keep_frames_lookup, historical_data_empty.
    reflexivity.
  - intros r symbol. unfold _initialize_historical_data. run_method.
    cbn [fst historical_data_cache set_historical_data_cache].
    apply keep_frames_lookup.
Qed.

Lemma fetch_all_frames (provider : string -> DataFrame) symbols symbol df :
  fetch_all provider symbols !! symbol = Some df ->
  symbol ∈ symbols /\ df = provider symbol /\ df <> [].
Proof.
  unfold fetch_all. rewrite keep_frames_lookup, historical_data_empty.
  destruct (bool_decide (symbol ∈ symbols)) eqn:Hin; cbn [andb]; [|discriminate].
  apply bool_decide_eq_true in Hin.
  destruct (df_empty (provider symbol)) eqn:Hempty; cbn [negb]; [discriminate|].
  intros Heq. injection Heq as <-. repeat split; [exact Hin|].
  intros Hnil. rewrite Hnil in Hempty. discriminate.
Qed.

Lemma fetch_all_some (provider : string -> DataFrame) symbols symbol :
  symbol ∈ symbols -> provider symbol <> [] -> fetch_all provider symbols <> ∅.
Proof.
  intros Hin Hne Hempty.
  assert (Hlookup : fetch_all provider symbols !! symbol = Some (provider symbol)).
  { unfold fetch_all. rewrite keep_frames_lookup.
    rewrite bool_decide_eq_true_2 by exact Hin.
    destruct (provider symbol); [contradiction | reflexivity]. }
  rewrite Hempty, historical_data_empty in Hlookup. discriminate.
Qed.

(** When some frame is kept, the common range of the frames is defined. *)
Lemma common_range_defined (historical_data : HistoricalData) :
  (forall symbol df, historical_data !! symbol = Some df -> df <> []) ->
  historical_data <> ∅ ->
  is_Some (common_start historical_data) /\ is_Some (common_end historical_data).
Proof.
  intros Hframes Hne. split.
  - unfold common_start. revert Hframes Hne.
    apply (map_fold_weak_ind
             (fun r (m : HistoricalData) =>
                (forall symbol df, m !! symbol = Some df -> df <> []) -> m <> ∅ -> is_Some r)).
    + intros _ H. contradiction.
    + intros symbol df m r Hnone _ Hframes _.
      assert (Hdf : df <> []) by (apply (Hframes symbol); apply lookup_insert_eq).
      destruct df as [|row rest]; [contradiction|]. cbn [frame_min].
      destruct r; eexists; reflexivity.
  - unfold common_end. revert Hframes Hne.
    apply (map_fold_weak_ind
             (fun r (m : HistoricalData) =>
                (forall symbol df, m !! symbol = Some df -> df <> []) -> m <> ∅ -> is_Some r)).
    + intros _ H. contradiction.
    + intros symbol df m r Hnone _ Hframes _.
      assert (Hdf : df <> []) by (apply (Hframes symbol); apply lookup_insert_eq).
      destruct df as [|row rest]; [contradiction|]. cbn [frame_max].
      destruct r; eexists; reflexivity.
Qed.

Lemma fetch_all_range (provider : string -> DataFrame) symbols :
  fetch_all provider symbols <> ∅ ->
  exists min_date max_date,
    common_start (fetch_all provider symbols) = Some min_date /\
    common_end (fetch_all provider symbols) = Some max_date.
Proof.
  intros Hne.
  destruct (common_range_defined (fetch_all provider symbols)) as [[lo Hlo] [hi Hhi]].
  - intros symbol df Hdf. apply (fetch_all_frames provider symbols symbol df Hdf).
  - exact Hne.
  - exists lo, hi. split; assumption.
Qed.



(** ** A replay that returns *)
Lemma prices_at_positive historical_data current_date :
  positive_closes historical_data ->
  positive_prices (prices_at current_date historical_data).
Proof.
  intros Hcloses symbol price Hprice. unfold prices_at in Hprice.
  rewrite lookup_omap in Hprice.
  apply bind_Some in Hprice. destruct Hprice as (df & Hdf & Hprice).
  destruct (in_index current_date df); [|discriminate Hprice].
  exact (Hcloses symbol df current_date price Hdf Hprice).
Qed.

(** A tick of the replay returns when the closes are positive and the
    strategy does not raise. *)
Lemma process_day_returns name capital algorithm current_date historical_data
    (h : HistoricalSimulator) :
  0 < capital -> positive_closes historical_data -> never_raises algorithm ->
  on_a_run name capital (h_engine h) ->
  exists h1,
    _process_day algorithm current_date historical_data h = (h1, inr tt) /\
    on_a_run name capital (h_engine h1).
Proof.
  intros Hc Hcloses Hnever (Hcash & values & Hrun).
  pose proof (prices_at_positive historical_data current_date Hcloses) as Hprices.
  unfold _process_day, generate_signals.
  cbv beta iota delta [mbind M_bind mret M_ret gets modify raise zoom h_zoom].
  set (prices := prices_at current_date historical_data) in *.
  destruct (reaches_update_returns name capital values (h_engine h) prices Hc Hrun)
    as (e1 & Hmark).
  rewrite Hmark.
  pose proof (reaches_mark name capital values (h_engine h) prices e1 Hrun Hmark) as Hrun1.
  assert (Hcash1 : cash_nonneg e1).
  { pose proof (update_portfolio_value_total prices (h_engine h)) as (_ & Hc1 & _).
    rewrite Hmark in Hc1. cbn [fst] in Hc1. unfold cash_nonneg. rewrite Hc1. exact Hcash. }
  cbn [h_engine set_h_engine].
  destruct (Hnever current_date historical_data (portfolio e1)) as (signals & Hsignals).
  rewrite Hsignals.
  destruct (zoomed_executions_return h_engine set_h_engine h_engine_set set_h_engine_set
              set_h_engine_id prices current_date (on_a_run name capital))
    with (signals := signals) (t := set_h_engine e1 (set_h_engine e1 h))
    as (e3 & Hout & Hready).
  - intros symbol signal price e Hprice (Hce & vs & Hre).
    destruct (execute_trade_cash symbol signal price current_date e
                (Hprices symbol price Hprice) Hce) as (e' & He' & Hce').
    exists e'. split; [exact He'|]. split; [exact Hce'|]. exists vs.
    pose proof (reaches_execute name capital vs e
                  (mkOrder symbol signal price current_date) Hre) as Hstep.
    unfold execute in Hstep. cbn [order_symbol order_signal order_price order_timestamp]
      in Hstep. rewrite He' in Hstep. exact Hstep.
  - cbn [h_engine set_h_engine]. split; [exact Hcash1|]. eexists. exact Hrun1.
  - unfold zoom in Hout. eexists. split; [exact Hout|]. exact Hready.
Qed.

Lemma run_loop_returns name capital algorithm historical_data max_date :
  0 < capital -> positive_closes historical_data -> never_raises algorithm ->
  forall budget current_date (h : HistoricalSimulator),
    ((current_date <= max_date)%Z -> (Z.to_nat (max_date - current_date) < budget)%nat) ->
    on_a_run name capital (h_engine h) ->
    exists h',
      run_loop algorithm historical_data max_date budget current_date h = (h', inr tt) /\
      on_a_run name capital (h_engine h').
Proof.
  intros Hc Hcloses Hnever.
  induction budget as [|budget IH]; intros current_date h Hlt Hready; cbn [run_loop];
    destruct (current_date <=? max_date)%Z eqn:Hgo.
  1: { apply Z.leb_le in Hgo. specialize (Hlt Hgo). lia. }
  1, 3: exists h; split; [reflexivity | exact Hready].
  apply Z.leb_le in Hgo. specialize (Hlt Hgo).
  cbv beta iota delta [mbind M_bind mret M_ret gets modify raise zoom h_zoom].
  destruct (process_day_returns name capital algorithm current_date historical_data h
              Hc Hcloses Hnever Hready) as (h1 & Hday & Hready1).
  rewrite Hday.
  destruct (track_benchmark_shape (current_date + hour) historical_data h1) as (v & Htrack & _).
  rewrite Htrack. apply IH; [unfold hour; lia|].
  cbn [h_engine set_h_engine set_h_portfolio_history]. exact Hready1.
Qed.

(** X21. With a capital above zero, positive closes, data for at least one
    requested symbol and a strategy that does not raise, [run] returns: no
    tick raises, the history has one entry per hour of the common range, and
    the cash at the end is not negative. *)
Theorem replay_returns_on_positive_closes provider algorithm (h : HistoricalSimulator)
    symbol :
  0 < initial_capital (h_engine h) ->
  positive_closes (fetch_all provider (h_symbols h)) ->
  never_raises algorithm ->
  symbol ∈ h_symbols h -> provider symbol <> [] ->
  exists h' min_date max_date,
    common_start (fetch_all provider (h_symbols h)) = Some min_date /\
    common_end (fetch_all provider (h_symbols h)) = Some max_date /\
    run provider algorithm h = (h', inr tt) /\
    length (h_portfolio_history h') = ticks_between min_date max_date /\
    cash_nonneg (h_engine h').
Proof.
  intros Hc Hcloses Hnever Hin Hdata.
  pose proof (fetch_all_some provider (h_symbols h) symbol Hin Hdata) as Hne.
  destruct (fetch_all_range provider (h_symbols h) Hne)
    as (min_date & max_date & Hstart & Hend).
  destruct (run_shape provider algorithm h) as (new & Hshape & Hcount).
  destruct (Hcount min_date max_date Hstart Hend) as (_ & Hall).
  destruct Hshape as (Hh & _).
  cbn [reset_simulation modify fst h_portfolio_history app] in Hh.
  revert Hh Hall. unfold run, reset_simulation. run_method. cbn [h_symbols].
  rewrite bool_decide_eq_false_2 by exact Hne. rewrite Hstart, Hend.
  match goal with
  | |- context [run_loop ?a ?d ?m ?b ?c ?s] =>
      destruct (run_loop_returns (algorithm_name (h_engine h)) (initial_capital (h_engine h))
                  a d m Hc Hcloses Hnever b c s) as (h' & Hloop & Hcash & _)
  end.
  - lia.
  - split; [exact (Qlt_le_weak _ _ Hc)|]. exists []. apply reaches_new.
  - rewrite Hloop. cbn [fst snd]. intros Hh Hall.
    exists h', min_date, max_date. repeat split; try assumption.
    rewrite Hh. apply Hall. reflexivity.
Qed.

Lemma buy_once_never_raises : never_raises buy_once.
Proof. intros timestamp data p. eexists. reflexivity. Qed.

Lemma replay_returns_on_positive_closes_witness :
  exists h' min_date max_date,
    common_start (fetch_all btc_bars (h_symbols btc_replay)) = Some min_date /\
    common_end (fetch_all btc_bars (h_symbols btc_replay)) = Some max_date /\
    run btc_bars buy_once btc_replay = (h', inr tt) /\
    length (h_portfolio_history h') = ticks_between min_date max_date /\
    cash_nonneg (h_engine h').
Proof.
  apply (replay_returns_on_positive_closes btc_bars buy_once btc_replay "BTC").
  - reflexivity.
  - exact btc_bars_positive.
  - exact buy_once_never_raises.
  - left.
  - discriminate.
Defined.

(** ** The returns of the report *)

(** X22. The per-tick returns from which the replay report computes the
    mean, the volatility and the Sharpe ratio are all finite (a return after
    a value of zero, a NaN and an infinity are dropped), and there is at most
    one return per pair of consecutive values. *)
Theorem filtered_returns_are_finite (portfolio_values : list float) :
  Forall (fun x => is_finite x = true) (Report.filtered_returns portfolio_values) /\
  (length (Report.filtered_returns portfolio_values) <= length portfolio_values - 1)%nat.
Proof.
  induction portfolio_values as [|prev rest IH]; [split; [constructor | reflexivity]|].
  destruct rest as [|cur rest']; [split; [constructor | reflexivity]|].
  destruct IH as [IHfin IHlen].
  change (Report.filtered_returns (prev :: cur :: rest')) with
    (if negb (prev =? 0)%float then
       if negb (is_nan ((cur - prev) / prev)%float) &&
          negb (is_infinity ((cur - prev) / prev)%float)
       then ((cur - prev) / prev)%float :: Report.filtered_returns (cur :: rest')
       else Report.filtered_returns (cur :: rest')
     else Report.filtered_returns (cur :: rest')).
  cbn [length] in *.
  destruct (negb (prev =? 0)%float); [|split; [exact IHfin | lia]].
  destruct (is_nan ((cur - prev) / prev)%float) eqn:Hnan; cbn [negb andb];
    [split; [exact IHfin | lia]|].
  destruct (is_infinity ((cur - prev) / prev)%float) eqn:Hinf; cbn [negb andb];
    [split; [exact IHfin | lia]|].
  split; [|cbn [length]; lia].
  constructor; [|exact IHfin]. unfold is_finite. rewrite Hnan, Hinf. reflexivity.
Qed.

(** X23. [_calculate_alpha_metrics] reads [benchmark_values] by the index
    of the portfolio history: when the benchmark history is at least as long
    as the portfolio history (a replay keeps them equally long), no index is
    out of range, and the paired returns it keeps contain no NaN. *)
Theorem paired_returns_are_defined (portfolio_values : list float) :
  forall benchmark_values,
    (length portfolio_values <= length benchmark_values)%nat ->
    exists pairs,
      Report.paired_returns portfolio_values benchmark_values = Some pairs /\
      (length pairs <= length portfolio_values - 1)%nat /\
      Forall (fun pair => is_nan (fst pair) = false /\ is_nan (snd pair) = false) pairs.
Proof.
  induction portfolio_values as [|p0 rest IH]; intros benchmark_values Hlen;
    [exists []; split; [reflexivity | split; [cbn; lia | constructor]]|].
  destruct rest as [|p1 rest']; [exists []; split; [reflexivity | split; [cbn; lia | constructor]]|].
  destruct benchmark_values as [|b0 brest]; [cbn in Hlen; lia|].
  destruct brest as [|b1 brest']; [cbn in Hlen; lia|].
  destruct (IH (b1 :: brest')) as (more & Hmore & Hcount & Hfree); [cbn [length] in *; lia|].
  cbn [length] in *.
  change (Report.paired_returns (p0 :: p1 :: rest') (b0 :: b1 :: brest')) with
    (if negb (p0 =? 0)%float then
       if negb (b0 =? 0)%float then
         more ← Report.paired_returns (p1 :: rest') (b1 :: brest');
         Some (if negb (is_nan ((p1 - p0) / p0)%float) &&
                  negb (is_nan ((b1 - b0) / b0)%float)
               then (((p1 - p0) / p0)%float, ((b1 - b0) / b0)%float) :: more else more)
       else Report.paired_returns (p1 :: rest') (b1 :: brest')
     else Report.paired_returns (p1 :: rest') (b1 :: brest')).
  rewrite Hmore. cbn [mbind option_bind].
  destruct (negb (p0 =? 0)%float); [|exists more; split; [reflexivity | split; [lia | exact Hfree]]].
  destruct (negb (b0 =? 0)%float); [|exists more; split; [reflexivity | split; [lia | exact Hfree]]].
  eexists. split; [reflexivity|].
  destruct (is_nan ((p1 - p0) / p0)%float) eqn:Hp; cbn [negb andb];
    [split; [lia | exact Hfree]|].
  destruct (is_nan ((b1 - b0) / b0)%float) eqn:Hb; cbn [negb andb];
    [split; [lia | exact Hfree]|].
  split; [cbn [length]; lia|]. constructor; [|exact Hfree]. split; assumption.
Qed.

Lemma paired_returns_are_defined_witness :
  exists pairs,
    Report.paired_returns [1000; 1100; 990]%float [1000; 900; 900]%float = Some pairs /\
    (length pairs <= length [1000; 1100; 990]%float - 1)%nat /\
    Forall (fun pair => is_nan (fst pair) = false /\ is_nan (snd pair) = false) pairs.
Proof.
  apply (paired_returns_are_defined [1000; 1100; 990]%float [1000; 900; 900]%float).
  cbn. lia.
Defined.

(** ** What the engine never writes *)

Lemma execute_all_pnl orders (e : Engine) :
  same_pnl (portfolio e) (portfolio (fst (execute_all orders e))).
Proof.
  revert e. induction orders as [|o orders IH]; intros e; [split; reflexivity|].
  rewrite execute_all_cons.
  pose proof (execute_trade_pnl (order_symbol o) (order_signal o) (order_price o)
                (order_timestamp o) e) as Hstep.
  unfold execute.
  destruct (_execute_trade (order_symbol o) (order_signal o) (order_price o)
              (order_timestamp o) e) as [e1 [x|[]]]; cbn [fst] in *; [exact Hstep|].
  exact (same_pnl_trans _ _ _ Hstep (IH e1)).
Qed.

(** X24. The engine never writes the profit and loss of the portfolio:
    a valuation and a sequence of executions, whatever their outcome, leave
    [unrealized_pnl] and [realized_pnl] as they are; a replay starts from a
    fresh portfolio, so every entry of its history reports both as 0,
    whatever was bought and sold. *)
Theorem profit_and_loss_is_never_written :
  (forall current_prices (e : Engine),
     same_pnl (portfolio e) (portfolio (fst (_update_portfolio_value current_prices e)))) /\
  (forall orders (e : Engine),
     same_pnl (portfolio e) (portfolio (fst (execute_all orders e)))) /\
  (forall provider algorithm (h : HistoricalSimulator),
     Forall (fun s => snap_unrealized_pnl s = 0 /\ snap_realized_pnl s = 0)
       (h_portfolio_history (fst (run provider algorithm h)))).
Proof.
  split; [|split].
  - intros current_prices e. apply update_portfolio_value_config.
  - exact execute_all_pnl.
  - intros provider algorithm h.
    destruct (run_shape provider algorithm h) as (new & Hshape & _).
    destruct Hshape as (Hh & _ & _ & _ & _ & _ & _ & _ & _ & _ & _ & Hsnaps).
    rewrite Hh. exact Hsnaps.
Qed.

(** The keys of the positions after one execution. *)
Lemma execute_trade_keys symbol signal price timestamp (e : Engine) key :
  let e' := fst (_execute_trade symbol signal price timestamp e) in
  (is_Some (positions (portfolio e) !! key) -> is_Some (positions (portfolio e') !! key)) /\
  (is_Some (positions (portfolio e') !! key) ->
   is_Some (positions (portfolio e) !! key) \/ key = symbol).
Proof.
  cbv zeta.
  destruct (execute_trade_exchange symbol signal price timestamp e) as [Hsame|(v & Hpos & _)].
  - rewrite Hsame. split; [intros H; exact H | intros H; left; exact H].
  - rewrite Hpos. destruct (decide (key = symbol)) as [->|Hne].
    + rewrite lookup_insert_eq. split; [intros _; eexists; reflexivity | intros _; right; reflexivity].
    + rewrite lookup_insert_ne by congruence.
      split; [intros H; exact H | intros H; left; exact H].
Qed.

(** X25. A position is never closed: whatever the signals and the outcome,
    a symbol that has an entry in the positions keeps one after any sequence
    of executions (a position sold in full stays, with quantity 0), and a
    symbol gets an entry only when it is the symbol of one of the signals. *)
Theorem positions_are_never_closed orders (e : Engine) symbol :
  let e' := fst (execute_all orders e) in
  (is_Some (positions (portfolio e) !! symbol) ->
   is_Some (positions (portfolio e') !! symbol)) /\
  (is_Some (positions (portfolio e') !! symbol) ->
   is_Some (positions (portfolio e) !! symbol) \/ symbol ∈ order_symbol <$> orders).
Proof.
  cbv zeta. revert e. induction orders as [|o orders IH]; intros e.
  - cbn. split; [intros H; exact H | intros H; left; exact H].
  - rewrite execute_all_cons.
    pose proof (execute_trade_keys (order_symbol o) (order_signal o) (order_price o)
                  (order_timestamp o) e symbol) as Hstep. cbv zeta in Hstep.
    unfold execute.
    destruct (_execute_trade (order_symbol o) (order_signal o) (order_price o)
                (order_timestamp o) e) as [e1 [x|[]]]; cbn [fst] in *.
    + destruct Hstep as [Hkeep Hnew]. split; [exact Hkeep|].
      intros H. destruct (Hnew H) as [Hold| ->]; [left; exact Hold | right; left].
    + destruct Hstep as [Hkeep Hnew]. destruct (IH e1) as [Hkeep' Hnew'].
      split; [intros H; exact (Hkeep' (Hkeep H))|].
      intros H. destruct (Hnew' H) as [Hmid|Hin]; [|right; right; exact Hin].
      destruct (Hnew Hmid) as [Hold| ->]; [left; exact Hold | right; left].
Qed.

(** ** The cache of the live driver *)

(** A tick leaves the cache as it is or appends the prices of the tick to
    the frames it holds. *)
Lemma live_tick_cache algorithm current_time prices (r : RealtimeSimulator) :
  let cache' :=
    historical_data_cache (fst (_process_realtime_update algorithm current_time prices r)) in
  cache' = historical_data_cache r \/
  cache' = append_prices current_time prices (historical_data_cache r).
Proof.
  cbv zeta. destruct (is_running r) eqn:Hrunning.
  - rewrite (live_tick_running algorithm current_time prices r Hrunning). cbv zeta.
    destruct (_update_portfolio_value prices (r_engine r)) as [e1 [x|[]]];
      [left; reflexivity|].
    match goal with
    | |- context [for_each ?l ?f ?s] =>
        assert (Hout : exists e3, fst (for_each l f s) = set_r_engine e3 s)
          by (destruct (zoomed_executions_related r_engine set_r_engine r_engine_set
                          set_r_engine_set set_r_engine_id prices current_time
                          (fun _ _ => True) (fun _ => I) (fun _ _ _ _ _ => I)
                          (fun _ _ _ _ _ => I) l s) as (e3 & Hout & _);
              exists e3; exact Hout);
        destruct Hout as (e3 & Hout);
        destruct (for_each l f s) as [r3 [y|[]]]
    end; cbn [fst] in Hout; subst r3; right; reflexivity.
  - rewrite (live_tick_stopped algorithm current_time prices r Hrunning). left. reflexivity.
Qed.

Lemma append_prices_keys current_time (prices : gmap string Q)
    (series : gmap string (list (Z * Q))) symbol :
  is_Some (append_prices current_time prices series !! symbol) <-> is_Some (series !! symbol).
Proof.
  rewrite append_prices_lookup.
  destruct (series !! symbol); split; intros [x Hx]; try discriminate; eauto.
Qed.

Lemma live_tick_cache_keys algorithm current_time prices (r : RealtimeSimulator) symbol :
  is_Some (historical_data_cache
             (fst (_process_realtime_update algorithm current_time prices r)) !! symbol) <->
  is_Some (historical_data_cache r !! symbol).
Proof.
  destruct (live_tick_cache algorithm current_time prices r) as [-> | ->]; [reflexivity|].
  exact (append_prices_keys current_time prices (historical_data_cache r) symbol).
Qed.

Lemma stream_cache_keys algorithm rounds symbols (r : RealtimeSimulator) symbol :
  is_Some (historical_data_cache
             (fst (stream_realtime_data rounds symbols
                     (_process_realtime_update algorithm) r)) !! symbol) <->
  is_Some (historical_data_cache r !! symbol).
Proof.
  unfold stream_realtime_data, try_except.
  revert r. induction rounds as [|[now ticker] rounds IH]; intros r; [reflexivity|].
  cbn [for_each]. cbv beta iota delta [mbind M_bind].
  pose proof (live_tick_cache_keys algorithm now (get_multiple_prices ticker symbols) r symbol)
    as Hstep.
  destruct (_process_realtime_update algorithm now (get_multiple_prices ticker symbols) r)
    as [r1 [x|[]]]; cbn [fst] in Hstep.
  - cbn. exact Hstep.
  - rewrite <- Hstep. apply IH.
Qed.

(** X26. The cache from which the live strategy reads holds a frame for a
    symbol exactly when it held one before the run or the symbol is tracked
    and its initial history is not empty: [_update_historical_cache] appends
    to the frames of the cache only, so a symbol whose initial history was
    empty never enters the cache, whatever prices are streamed for it. *)
Theorem live_cache_is_never_extended provider algorithm rounds (r : RealtimeSimulator)
    symbol :
  let r' := fst (live_run provider algorithm rounds r) in
  is_Some (historical_data_cache r' !! symbol) <->
  is_Some (historical_data_cache r !! symbol) \/
  (symbol ∈ r_symbols r /\ provider symbol <> []).
Proof.
  cbv zeta. unfold live_run, _initialize_historical_data.
  cbv beta iota delta [mbind M_bind mret M_ret gets modify raise try_except].
  match goal with
  | |- context [stream_realtime_data ?a ?b ?c ?s] =>
      pose proof (stream_cache_keys algorithm a b s symbol) as Hstream;
      pose proof (stream_frame algorithm a b s) as Hframe;
      cbv zeta in Hframe; destruct Hframe as (Hret & _);
      destruct (stream_realtime_data a b c s) as [r1 [x|[]]]
  end; cbn [fst snd] in *; [discriminate|].
  rewrite Hstream.
  cbn [historical_data_cache set_historical_data_cache set_is_running r_symbols].
  rewrite keep_frames_lookup.
  destruct (bool_decide (symbol ∈ r_symbols r)) eqn:Hin; cbn [andb].
  - apply bool_decide_eq_true in Hin.
    destruct (provider symbol) as [|row rest] eqn:Hdf; cbn [df_empty negb].
    + split; [intros H; left; exact H | intros [H|[_ H]]; [exact H | contradiction]].
    + split; [intros _; right; split; [exact Hin | discriminate] | intros _; eexists; reflexivity].
  - apply bool_decide_eq_false in Hin.
    split; [intros H; left; exact H | intros [H|[H _]]; [exact H | contradiction]].
Qed.

(** ** The ledger accounts for the portfolio *)

Lemma accounted_by_nothing (e e' : Engine) :
  trades e' = trades e -> portfolio e' = portfolio e -> accounted_by [] e e'.
Proof.
  intros Ht Hp. unfold accounted_by, held. rewrite Ht, Hp, app_nil_r. cbn.
  split; [reflexivity|]. split; [ring | intros symbol; ring].
Qed.

Lemma Qsum_app (l l' : list Q) : Qsum (l ++ l') == Qsum l + Qsum l'.
Proof.
  induction l as [|x l IH]; cbn [app Qsum foldr].
  - fold (Qsum l'). ring.
  - fold (Qsum (l ++ l')) (Qsum l). rewrite IH. ring.
Qed.

Lemma accounted_by_trans new new' (e1 e2 e3 : Engine) :
  accounted_by new e1 e2 -> accounted_by new' e2 e3 -> accounted_by (new ++ new') e1 e3.
Proof.
  intros (Ht & Hc & Hq) (Ht' & Hc' & Hq'). unfold accounted_by.
  rewrite Ht', Ht, app_assoc. split; [reflexivity|].
  split.
  - rewrite Hc', Hc, fmap_app, Qsum_app. ring.
  - intros symbol. rewrite Hq', Hq, fmap_app, Qsum_app. ring.
Qed.

(** One execution, whatever its outcome. *)
Lemma execute_trade_accounts symbol signal price timestamp (e : Engine) :
  exists new, accounted_by new e (fst (_execute_trade symbol signal price timestamp e)).
Proof.
  unfold _execute_trade.
  destruct (String.eqb (action signal) "buy" && Qltb 0 (quantity signal)).
  - run_method. unfold py_div. destruct (Qeq_bool price 0); run_method.
    + exists []. apply accounted_by_nothing; reflexivity.
    + destruct (Qle_bool _ _); cbn [fst];
        [|exists []; apply accounted_by_nothing; reflexivity].
      eexists [_]. unfold accounted_by, held.
      cbn [portfolio set_portfolio set_trades trades positions set_positions cash set_cash
             fmap list_fmap Qsum foldr].
      split; [reflexivity|]. set (q := Qmin _ _).
      split; [unfold signed_value; cbn [trade_side trade_value String.eqb Ascii.eqb Bool.eqb];
              ring|].
      intros key. unfold signed_quantity. cbn [trade_side trade_symbol trade_quantity].
      replace (String.eqb "buy" "sell") with false by reflexivity.
      destruct (String.eqb_spec symbol key) as [<-|Hne].
      * rewrite lookup_insert_eq. cbn [default].
        destruct (positions (portfolio e) !! symbol) as [h|] eqn:E;
          rewrite ?E, ?lookup_insert_eq; cbn [default]; unfold id; ring.
      * rewrite lookup_insert_ne by exact Hne.
        destruct (positions (portfolio e) !! symbol) as [h|] eqn:E;
          rewrite ?lookup_insert_ne by exact Hne; ring.
  - destruct (String.eqb (action signal) "sell" && Qltb 0 (quantity signal));
      [|exists []; apply accounted_by_nothing; reflexivity].
    run_method. destruct (Qltb 0 _) eqn:Hq;
      [|exists []; apply accounted_by_nothing; reflexivity].
    destruct (positions (portfolio e) !! symbol) as [h|] eqn:E; run_method; cbn [fst].
    + eexists [_]. unfold accounted_by, held.
      cbn [portfolio set_portfolio set_trades trades positions set_positions cash set_cash
             fmap list_fmap Qsum foldr default].
      split; [reflexivity|]. unfold id. set (q := Qmin _ _).
      split; [unfold signed_value; cbn [trade_side trade_value]; rewrite String.eqb_refl;
              ring|].
      intros key. unfold signed_quantity. cbn [trade_side trade_symbol trade_quantity].
      rewrite String.eqb_refl.
      destruct (String.eqb_spec symbol key) as [<-|Hne].
      * rewrite lookup_insert_eq, E. cbn [default]. unfold id. ring.
      * rewrite lookup_insert_ne by exact Hne. ring.
    + exfalso. apply Qltb_lt in Hq. cbn [default] in Hq.
      pose proof (Q.le_min_r (quantity signal) 0). lra.
Qed.

(** X27. The ledger accounts for the portfolio: whatever the signals, their
    prices and the outcome, the records appended by a sequence of executions
    explain every change of the portfolio: the cash moves by the values of
    the new sell records minus the values of the new buy records, and the
    quantity held of every symbol by its new buy quantities minus its new
    sell quantities. *)
Theorem ledger_accounts_for_the_portfolio orders (e : Engine) :
  exists new,
    accounted_by new e (fst (execute_all orders e)) /\ (length new <= length orders)%nat.
Proof.
  revert e. induction orders as [|o orders IH]; intros e.
  - exists []. split; [apply accounted_by_nothing; reflexivity | reflexivity].
  - rewrite execute_all_cons.
    destruct (execute_trade_accounts (order_symbol o) (order_signal o) (order_price o)
                (order_timestamp o) e) as (new & Hnew).
    assert (Hlen : (length new <= 1)%nat).
    { destruct (execute_trade_ledger (order_symbol o) (order_signal o) (order_price o)
                  (order_timestamp o) e) as [Hsame|(side & q & Hadd & _)];
        destruct Hnew as (Ht & _); rewrite Ht in *.
      - apply (f_equal length) in Hsame. rewrite length_app in Hsame. lia.
      - apply (f_equal length) in Hadd. rewrite !length_app in Hadd. cbn in Hadd. lia. }
    unfold execute.
    destruct (_execute_trade (order_symbol o) (order_signal o) (order_price o)
                (order_timestamp o) e) as [e1 [x|[]]]; cbn [fst] in *.
    + exists new. split; [exact Hnew | cbn [length]; lia].
    + destruct (IH e1) as (new' & Hnew' & Hlen').
      exists (new ++ new'). split; [exact (accounted_by_trans _ _ _ _ _ Hnew Hnew')|].
      rewrite length_app. cbn [length]. lia.
Qed.

(** ** The range of the drawdown *)

Lemma drawdown_at_most_one capital values k :
  0 < capital -> Forall (fun v => 0 <= v) values -> drawdown_at capital values k <= 1.
Proof.
  intros Hc Hall. unfold drawdown_at. cbv zeta.
  pose proof (peak_so_far_ge_capital capital (take (S k) values)) as Hpeak.
  assert (Hv : 0 <= default 0 (values !! k)).
  { destruct (values !! k) as [v|] eqn:E; cbn [default]; [|apply Qle_refl].
    exact (Forall_lookup_1 _ _ _ _ Hall E). }
  apply Qle_shift_div_r; unfold id in *; lra.
Qed.

(** X28. On every run of the engine from a capital above zero on which no
    marked value is negative, the worst drawdown is a fraction between 0
    and 1. *)
Theorem max_drawdown_is_a_fraction name capital values (e : Engine) :
  0 < capital -> reaches name capital values e ->
  Forall (fun v => 0 <= v) values ->
  0 <= max_drawdown e /\ max_drawdown e <= 1.
Proof.
  intros Hc Hrun Hall.
  destruct (reaches_invariant name capital values e Hc Hrun) as (_ & Hnonneg & _ & Hsome).
  split; [exact Hnonneg|].
  destruct Hsome as [[_ Hzero]|(k & _ & Hk)].
  - rewrite Hzero. discriminate.
  - rewrite Hk. apply drawdown_at_most_one; assumption.
Qed.

Lemma max_drawdown_is_a_fraction_witness :
  let e := fst (_update_portfolio_value (btc_at 50) invested_engine) in
  0 <= max_drawdown e /\ max_drawdown e <= 1.
Proof.
  intros e.
  apply (max_drawdown_is_a_fraction strategy_name 150 ([] ++ [total_value (portfolio e)]) e).
  - reflexivity.
  - apply (reaches_mark strategy_name 150 [] invested_engine (btc_at 50) e).
    + apply (reaches_execute strategy_name 150 []
               (new_engine strategy_name 150)
               (mkOrder "BTC" (mkSignal "buy" 1) 100 0)).
      apply reaches_new.
    + vm_compute. reflexivity.
  - constructor; [vm_compute; discriminate | constructor].
Defined.
